(** * Meds-Mate: the real-time risk scorer and the 24-hour IOP forecast

    A shallow embedding of [calculateRealTimeRisk] (server/routes.ts, the
    second document of src/server/storage.ts) over IEEE-754 binary64
    numbers, the number type of the JavaScript the function is written in,
    and the statements of the specification about it.

    The forecast is computed by [server/ml/iop_model.py], which is not
    among the sources; [Forecast] models it from section 4.2 of the
    specification.

    Around the scorer stand the storage ([Storage], server/storage.ts),
    the two routes that call scorer and model ([Routes], server/routes.ts),
    which take the output of the model as the value it parses to
    ([JSON]), and the parts of the client that compute what is drawn
    ([Client]).

    The file has two parts: the definitions, then the lemmas and theorems. *)

From Stdlib Require Import ZArith QArith Qround Qabs Lqa Floats Ascii String.
From Stdlib Require Import List Bool Lia Sorted FMapPositive.
From Stdlib Require DecimalString.
Import ListNotations.

Set Warnings "-inexact-float,-register-all".

(* ================================================================== *)
(** * Part I: definitions *)

(** ** Exceptions *)

Inductive exn : Type := RangeError.

Inductive result (A : Type) : Type :=
| Ok (a : A)
| Throw (e : exn).
Arguments Ok {A} a.
Arguments Throw {A} e.

Definition bind {A B : Type} (c : result A) (k : A -> result B) : result B :=
  match c with
  | Ok a => k a
  | Throw e => Throw e
  end.

Notation "x <- c ;; k" := (bind c (fun x => k))
  (at level 61, c at next level, right associativity).

(** ** JavaScript numbers *)

Module JS.

(** A validated integer field read as a Number: the nearest binary64
    value (exact below 2^53). *)
Definition of_Z (z : Z) : float :=
  SF2Prim (binary_normalize prec emax z 0 false).

(** [Math.max(a, b)]: NaN if either is, and +0 is larger than -0. *)
Definition Math_max (a b : float) : float :=
  if is_nan a || is_nan b then nan
  else if (a <? b)%float then b
  else if (b <? a)%float then a
  else if get_sign a then b else a.

(** [Math.min(a, b)]: NaN if either is, and -0 is smaller than +0. *)
Definition Math_min (a b : float) : float :=
  if is_nan a || is_nan b then nan
  else if (a <? b)%float then a
  else if (b <? a)%float then b
  else if get_sign a then a else b.

(** What the string built by [toFixed] denotes.  [Fixed neg n f] is the
    decimal numeral of [n / 10^f] with [f] fractional digits and a
    leading minus sign when [neg]; [Shortest x] is [ToString(x)], which
    is used from 1e21 on. *)
Inductive numeral : Type :=
| LitNaN
| LitInfinity (neg : bool)
| Fixed (neg : bool) (n : Z) (f : Z)
| Shortest (x : float).

(** "Let n be an integer for which n / 10^f - x is as close to zero as
    possible.  If there are two such n, pick the larger n", for
    [x = m * 2^e]. *)
Definition nearest_scaled (m : positive) (e : Z) (f : Z) : Z :=
  let s := (Zpos m * 10 ^ f)%Z in
  match e with
  | Zneg k => ((2 * s + 2 ^ Zpos k) / 2 ^ (Zpos k + 1))%Z
  | _ => (s * 2 ^ e)%Z
  end.

(** The numeral [toFixed] builds once [fractionDigits] is accepted. *)
Definition fixed_point (x : float) (fractionDigits : Z) : numeral :=
  match Prim2SF x with
  | S754_nan => LitNaN
  | S754_infinity s => LitInfinity s
  | S754_zero _ => Fixed false 0 fractionDigits
  | S754_finite s m e =>
      if (1e21 <=? abs x)%float then Shortest x
      else Fixed s (nearest_scaled m e fractionDigits) fractionDigits
  end.

(** [Number.prototype.toFixed(fractionDigits)]: a RangeError unless
    [fractionDigits] is between 0 and 100. *)
Definition toFixed (x : float) (fractionDigits : Z) : result numeral :=
  if ((fractionDigits <? 0) || (100 <? fractionDigits))%Z then Throw RangeError
  else Ok (fixed_point x fractionDigits).

(** The binary64 value nearest to [n / d] (ties to even), for [0 <= n]. *)
Definition nearest_ratio (neg : bool) (n : Z) (d : Z) : spec_float :=
  match n with
  | Z0 => S754_zero neg
  | Zpos _ =>
      let '(mz, ez, lz) := SFdiv_core_binary prec emax n 0 d 0 in
      binary_round_aux prec emax neg mz ez lz
  | Zneg _ => S754_nan
  end.

(** [parseFloat] on a string built by [toFixed]. *)
Definition parseFloat (s : numeral) : float :=
  match s with
  | LitNaN => nan
  | LitInfinity neg => if neg then neg_infinity else infinity
  | Fixed neg n f => SF2Prim (nearest_ratio neg n (10 ^ f))
  | Shortest x => x
  end.

End JS.

(** ** The data of shared/schema.ts *)

(** [InsertPatientData]: the columns of [patient_data] without [id] and
    [createdAt].  [integer] columns are integers, [text] columns strings,
    and [bloodSugar], the one column that is not [notNull], may be absent. *)
Record PatientData : Type := {
  age : Z;
  gender : string;
  sleepQuality : Z;
  stressLevel : Z;
  physicalActivity : Z;
  diabetesStatus : string;
  bloodSugar : option Z;
  systolicBP : Z;
  diastolicBP : Z;
  familyHistory : string;
  currentMedications : string;
  lastDropHours : Z
}.

Record RealTimeRiskResponse : Type := {
  risk_percentage : float;
  risk_level : string;
  average_predicted_iop : float;
  message : string
}.

(** ** [calculateRealTimeRisk] *)

Definition msg_low : string :=
  "Current treatment appears to be working effectively. Continue current regimen.".
Definition msg_moderate : string :=
  "Elevated risk detected. Consider adjusting treatment schedule or medication.".
Definition msg_high : string :=
  "High risk of elevated IOP. Recommend immediate consultation with ophthalmologist.".
Definition msg_critical : string :=
  "Critical risk level. Emergency ophthalmology consultation required.".

Section RiskCalculation.
Import JS.
Local Open Scope float_scope.

(** The value of [riskScore] when the chain of [+=] is through. *)
Definition riskScore (data : PatientData) : float :=
  let riskScore := 0 in
  (* Age factor (higher age = higher risk) *)
  let riskScore := riskScore + Math_max 0 ((of_Z (age data) - 40) * 0.5) in
  (* Sleep quality (poor sleep = higher risk) *)
  let riskScore := riskScore + (10 - of_Z (sleepQuality data)) * 2 in
  (* Stress level (high stress = higher risk) *)
  let riskScore := riskScore + of_Z (stressLevel data) * 1.5 in
  (* Physical activity (low activity = higher risk) *)
  let riskScore := riskScore + (10 - of_Z (physicalActivity data)) * 1.2 in
  (* Blood pressure (high BP = higher risk) *)
  let riskScore :=
    if (140 <? of_Z (systolicBP data)) || (90 <? of_Z (diastolicBP data))
    then riskScore + 8
    else if (130 <? of_Z (systolicBP data)) || (80 <? of_Z (diastolicBP data))
    then riskScore + 4
    else riskScore in
  (* Diabetes factor *)
  let riskScore :=
    if (diabetesStatus data =? "type1")%string || (diabetesStatus data =? "type2")%string
    then riskScore + 12
    else if (diabetesStatus data =? "prediabetes")%string
    then riskScore + 6
    else riskScore in
  (* Family history *)
  let riskScore :=
    if (familyHistory data =? "multiple")%string
    then riskScore + 15
    else if (familyHistory data =? "parent")%string || (familyHistory data =? "sibling")%string
    then riskScore + 8
    else riskScore in
  (* Time since last drop *)
  let riskScore :=
    if 24 <? of_Z (lastDropHours data)
    then riskScore + (of_Z (lastDropHours data) - 24) * 0.8
    else riskScore in
  riskScore.

(** [const riskPercentage = Math.min(100, Math.max(0, riskScore))]. *)
Definition riskPercentage (data : PatientData) : float :=
  Math_min 100 (Math_max 0 (riskScore data)).

Definition calculateRealTimeRisk (data : PatientData) : result RealTimeRiskResponse :=
  let riskPercentage := riskPercentage data in
  (* Calculate average predicted IOP based on risk *)
  let baseIOP := 14 in
  let riskMultiplier := 1 + (riskPercentage / 100) * 0.6 in
  iopText <- toFixed (baseIOP * riskMultiplier) 1 ;;
  let averagePredictedIop := parseFloat iopText in
  (* Determine risk level *)
  let '(riskLevel, message) :=
    if riskPercentage <? 20 then ("low"%string, msg_low)
    else if riskPercentage <? 40 then ("moderate"%string, msg_moderate)
    else if riskPercentage <? 70 then ("high"%string, msg_high)
    else ("critical"%string, msg_critical) in
  percentageText <- toFixed riskPercentage 1 ;;
  Ok {| risk_percentage := parseFloat percentageText;
        risk_level := riskLevel;
        average_predicted_iop := averagePredictedIop;
        message := message |}.

End RiskCalculation.
(** ** The risk scorer in the words of the specification (section 4.1) *)

Module Spec.
Import JS.
Local Open Scope float_scope.

Definition age_points (d : PatientData) : float :=
  Math_max 0 ((of_Z (age d) - 40) * 0.5).

Definition sleep_points (d : PatientData) : float :=
  (10 - of_Z (sleepQuality d)) * 2.

Definition stress_points (d : PatientData) : float :=
  of_Z (stressLevel d) * 1.5.

Definition activity_points (d : PatientData) : float :=
  (10 - of_Z (physicalActivity d)) * 1.2.

Definition blood_pressure_points (d : PatientData) : float :=
  if (140 <? of_Z (systolicBP d)) || (90 <? of_Z (diastolicBP d)) then 8
  else if (130 <? of_Z (systolicBP d)) || (80 <? of_Z (diastolicBP d)) then 4
  else 0.

Definition diabetes_points (d : PatientData) : float :=
  if (diabetesStatus d =? "type1")%string || (diabetesStatus d =? "type2")%string then 12
  else if (diabetesStatus d =? "prediabetes")%string then 6
  else 0.

Definition family_points (d : PatientData) : float :=
  if (familyHistory d =? "multiple")%string then 15
  else if (familyHistory d =? "parent")%string || (familyHistory d =? "sibling")%string then 8
  else 0.

Definition dose_points (d : PatientData) : float :=
  if 24 <? of_Z (lastDropHours d) then (of_Z (lastDropHours d) - 24) * 0.8 else 0.

(** "Sum all contributions", in the order of the table. *)
Definition rawScore (d : PatientData) : float :=
  age_points d + sleep_points d + stress_points d + activity_points d
  + blood_pressure_points d + diabetes_points d + family_points d
  + dose_points d.

Definition clamp (x lo hi : float) : float := Math_min hi (Math_max lo x).

(** "Rounded to 1 decimal": the decimal with one fractional digit nearest
    to [x], read back as a number. *)
Definition round1 (x : float) : float := parseFloat (fixed_point x 1).

(** [clamp(rawScore, 0, 100)]. *)
Definition clampedScore (d : PatientData) : float := clamp (rawScore d) 0 100.

Definition riskPercentage (d : PatientData) : float := round1 (clampedScore d).

(** The level of a percentage: [0,20) low, [20,40) moderate, [40,70)
    high, [70,100] critical. *)
Definition riskLevel (p : float) : string :=
  if p <? 20 then "low"
  else if p <? 40 then "moderate"
  else if p <? 70 then "high"
  else "critical".

Definition message_of (level : string) : string :=
  if (level =? "low")%string then msg_low
  else if (level =? "moderate")%string then msg_moderate
  else if (level =? "high")%string then msg_high
  else msg_critical.

Definition averagePredictedIop (p : float) : float :=
  round1 (14.0 * (1 + (p / 100) * 0.6)).

End Spec.

(** The response, once both calls of [toFixed] have returned, as a
    function of the clamped score. *)
Definition response_of (p : float) : RealTimeRiskResponse :=
  {| risk_percentage := Spec.round1 p;
     risk_level := Spec.riskLevel p;
     average_predicted_iop := Spec.averagePredictedIop p;
     message := Spec.message_of (Spec.riskLevel p) |}.

Definition levels : list string := ["low"; "moderate"; "high"; "critical"]%string.

(** ** Signed zeros

    The [+=] of a branch that is not taken leaves [riskScore] alone, where
    the table of the specification adds a contribution of 0.  The two can
    differ only in the sign of a zero. *)

Definition same_or_zeros (x y : float) : Prop :=
  x = y \/ exists s t, Prim2SF x = S754_zero s /\ Prim2SF y = S754_zero t.

(** ** Large numbers

    From 512 hours on, the dose term alone exceeds 100 points.  To follow
    it through the subtraction, the product and the sum, it is enough to
    know the sign and the exponent of each intermediate result. *)

(** The number of binary digits of a mantissa. *)
Abbreviation dig m := (Zpos (digits2_pos m)).

(** A number of sign [sx] that is infinite, or normal with an exponent of
    at least [E]: its magnitude is at least [2 ^ (E + 52)]. *)
Inductive shape (sx : bool) (E : Z) : spec_float -> Prop :=
| shape_infinity : shape sx E (S754_infinity sx)
| shape_finite (m : positive) (e : Z) :
    dig m = 53%Z -> (E <= e)%Z -> (e <= 971)%Z -> shape sx E (S754_finite sx m e).

(** ** Valid records

    The ranges of PatientAttributes in section 3 of the specification: age
    18..100, the three scores 1..10, hours since the last dose not
    negative.  The two pressures are integers without a stated range, and
    the enumerations are not restricted here: the code treats a string it
    does not know like "none". *)

Definition valid_attributes (d : PatientData) : Prop :=
  (18 <= age d <= 100)%Z /\
  (1 <= sleepQuality d <= 10)%Z /\
  (1 <= stressLevel d <= 10)%Z /\
  (1 <= physicalActivity d <= 10)%Z /\
  (0 <= lastDropHours d)%Z.

(** The ranges of the patient form, which are narrower:
    client/src/components/patient-form.tsx also bounds the systolic
    pressure by 80..200, the diastolic pressure by 40..120 and the hours
    since the last drop by 0..48. *)

Definition in_form_range (d : PatientData) : Prop :=
  (18 <= age d <= 100)%Z /\
  (1 <= sleepQuality d <= 10)%Z /\
  (1 <= stressLevel d <= 10)%Z /\
  (1 <= physicalActivity d <= 10)%Z /\
  (80 <= systolicBP d <= 200)%Z /\
  (40 <= diastolicBP d <= 120)%Z /\
  (0 <= lastDropHours d <= 48)%Z.

(** Every numeric field is a finite Number. *)
Definition finite_fields (d : PatientData) : Prop :=
  is_finite (JS.of_Z (age d)) = true /\
  is_finite (JS.of_Z (sleepQuality d)) = true /\
  is_finite (JS.of_Z (stressLevel d)) = true /\
  is_finite (JS.of_Z (physicalActivity d)) = true /\
  is_finite (JS.of_Z (systolicBP d)) = true /\
  is_finite (JS.of_Z (diastolicBP d)) = true /\
  is_finite (JS.of_Z (lastDropHours d)) = true /\
  match bloodSugar d with
  | Some b => is_finite (JS.of_Z b) = true
  | None => True
  end.

(** The fields [calculateRealTimeRisk] reads: all but [gender],
    [bloodSugar] and [currentMedications]. *)
Definition same_scored_fields (d d' : PatientData) : Prop :=
  age d = age d' /\ sleepQuality d = sleepQuality d' /\
  stressLevel d = stressLevel d' /\ physicalActivity d = physicalActivity d' /\
  diabetesStatus d = diabetesStatus d' /\
  systolicBP d = systolicBP d' /\ diastolicBP d = diastolicBP d' /\
  familyHistory d = familyHistory d' /\ lastDropHours d = lastDropHours d'.

Definition same_but_stressLevel (d d' : PatientData) : Prop :=
  age d = age d' /\ gender d = gender d' /\ sleepQuality d = sleepQuality d' /\
  physicalActivity d = physicalActivity d' /\
  diabetesStatus d = diabetesStatus d' /\ bloodSugar d = bloodSugar d' /\
  systolicBP d = systolicBP d' /\ diastolicBP d = diastolicBP d' /\
  familyHistory d = familyHistory d' /\
  currentMedications d = currentMedications d' /\
  lastDropHours d = lastDropHours d'.

Definition same_but_sleepQuality (d d' : PatientData) : Prop :=
  age d = age d' /\ gender d = gender d' /\ stressLevel d = stressLevel d' /\
  physicalActivity d = physicalActivity d' /\
  diabetesStatus d = diabetesStatus d' /\ bloodSugar d = bloodSugar d' /\
  systolicBP d = systolicBP d' /\ diastolicBP d = diastolicBP d' /\
  familyHistory d = familyHistory d' /\
  currentMedications d = currentMedications d' /\
  lastDropHours d = lastDropHours d'.

(** ** The table in exact arithmetic, in tenths of a point *)

Module Exact.
Local Open Scope Z_scope.

(** Ten times each contribution of the table: the weights 0.5, 2, 1.5, 1.2
    and 0.8 become 5, 20, 15, 12 and 8. *)
Definition age_tenths (d : PatientData) : Z := Z.max 0 ((age d - 40) * 5).
Definition sleep_tenths (d : PatientData) : Z := (10 - sleepQuality d) * 20.
Definition stress_tenths (d : PatientData) : Z := stressLevel d * 15.
Definition activity_tenths (d : PatientData) : Z := (10 - physicalActivity d) * 12.
Definition blood_pressure_tenths (d : PatientData) : Z :=
  if (140 <? systolicBP d) || (90 <? diastolicBP d) then 80
  else if (130 <? systolicBP d) || (80 <? diastolicBP d) then 40
  else 0.
Definition diabetes_tenths (d : PatientData) : Z :=
  if (diabetesStatus d =? "type1")%string || (diabetesStatus d =? "type2")%string then 120
  else if (diabetesStatus d =? "prediabetes")%string then 60
  else 0.
Definition family_tenths (d : PatientData) : Z :=
  if (familyHistory d =? "multiple")%string then 150
  else if (familyHistory d =? "parent")%string || (familyHistory d =? "sibling")%string then 80
  else 0.
Definition dose_tenths (d : PatientData) : Z :=
  if 24 <? lastDropHours d then (lastDropHours d - 24) * 8 else 0.

Definition raw_tenths (d : PatientData) : Z :=
  age_tenths d + sleep_tenths d + stress_tenths d + activity_tenths d
  + blood_pressure_tenths d + diabetes_tenths d + family_tenths d
  + dose_tenths d.

(** The clamped score.  It is a whole number of tenths, so rounding to one
    decimal leaves it as it is. *)
Definition percentage_tenths (d : PatientData) : Z :=
  Z.min 1000 (Z.max 0 (raw_tenths d)).

(** The Number that the decimal [n / 10] is read as. *)
Definition decimal1 (n : Z) : float := JS.parseFloat (JS.Fixed false n 1).

(** The formula of the average IOP on paper, for a percentage of [t]
    tenths: [14 (1 + (t / 10 / 100) 0.6)] as a rational number. *)
Definition pressure_on_paper (t : Z) : Q :=
  (14 * (1 + ((t # 10) / 100) * (6 # 10)))%Q.

(** The number of tenths nearest to [q], the larger one of two, as
    [toFixed(1)] chooses it. *)
Definition nearest_tenths (q : Q) : Z := Qfloor (q * 10 + (1 # 2))%Q.

End Exact.

(** ** Bounds on rounded results

    A record whose integers are far from the overflow of binary64 is
    followed through the scorer with bounds on the magnitude of each
    intermediate result, given as a mantissa and an exponent. *)

(** [m * 2 ^ e <= M * 2 ^ E], for mantissas that are not negative. *)
Definition dle (m e M E : Z) : Prop :=
  (m * 2 ^ Z.max 0 (e - E) <= M * 2 ^ Z.max 0 (E - e))%Z.

(** [X + Y <= B]. *)
Definition dsum_le (MX EX MY EY MB EB : Z) : Prop :=
  let k := Z.min EX (Z.min EY EB) in
  (MX * 2 ^ (EX - k) + MY * 2 ^ (EY - k) <= MB * 2 ^ (EB - k))%Z.

(** A number that is zero, or finite of magnitude at most [M * 2 ^ E]. *)
Definition at_most (M : positive) (E : Z) (x : spec_float) : Prop :=
  match x with
  | S754_zero _ => True
  | S754_finite _ m e => dle (Zpos m) e (Zpos M) E
  | _ => False
  end.

(** A number that is finite of magnitude at least [M * 2 ^ E], or
    infinite. *)
Definition at_least (M : positive) (E : Z) (x : spec_float) : Prop :=
  match x with
  | S754_finite _ m e => dle (Zpos M) E (Zpos m) e
  | S754_infinity _ => True
  | _ => False
  end.

(** A number with the sign [sx]. *)
Definition signed (sx : bool) (x : spec_float) : Prop :=
  match x with
  | S754_zero s | S754_finite s _ _ | S754_infinity s => s = sx
  | S754_nan => False
  end.

(** A Number that is zero, or finite of magnitude at most [2 ^ K]. *)
Definition small (K : Z) (x : float) : Prop :=
  at_most 4503599627370496 (K - 52) (Prim2SF x).

(** An integer far from the overflow of binary64: of magnitude at most
    [2 ^ 1000].  The [integer] columns of shared/schema.ts hold 32 bits. *)
Definition far_from_overflow (z : Z) : Prop := (Z.abs z <= 2 ^ 1000)%Z.

(** Every integer [calculateRealTimeRisk] reads is far from the
    overflow. *)
Definition fields_far_from_overflow (d : PatientData) : Prop :=
  far_from_overflow (age d) /\ far_from_overflow (sleepQuality d) /\
  far_from_overflow (stressLevel d) /\ far_from_overflow (physicalActivity d) /\
  far_from_overflow (systolicBP d) /\ far_from_overflow (diastolicBP d) /\
  far_from_overflow (lastDropHours d).

(** ** The running sums of valid records

    The eight [+=] are followed field by field: each stage takes the
    running sums reached so far, each paired with its exact value in
    tenths, and adds what the next field of a valid record can contribute.
    Equal results are kept once.  The hours since the last dose are
    followed up to 511; from 512 on the result is 100. *)

Module Reach.
Import JS.

(** A running sum of [riskScore] with its exact value in tenths. *)
Definition state : Type := float * Z.

Definition state_eqb (s t : state) : bool :=
  PrimFloat.Leibniz.eqb (fst s) (fst t) && (snd s =? snd t)%Z.

Definition key (s : state) : positive := Z.to_pos (snd s + 1).

Definition table : Type := PositiveMap.t (list state).

Definition bucket (m : table) (k : positive) : list state :=
  match PositiveMap.find k m with
  | Some l => l
  | None => []
  end.

Definition insert (m : table) (s : state) : table :=
  let l := bucket m (key s) in
  if existsb (state_eqb s) l then m else PositiveMap.add (key s) (s :: l) m.

Definition collect (l : list state) : table :=
  fold_left insert l (PositiveMap.empty (list state)).

Definition states (m : table) : list state :=
  flat_map snd (PositiveMap.elements m).

(** The list without its repetitions. *)
Definition dedup (l : list state) : list state := states (collect l).

Definition mem (m : table) (s : state) : Prop := In s (bucket m (key s)).

(** One [+=]: the points added, if the branch is taken, and their exact
    value in tenths. *)
Definition choice : Type := option float * Z.

Definition step (c : choice) (s : state) : state :=
  (match fst c with
   | Some v => (fst s + v)%float
   | None => fst s
   end,
   (snd s + snd c)%Z).

Definition stage (choices : list choice) (l : list state) : list state :=
  dedup (flat_map (fun c => map (step c) l) choices).

(** [lo; lo + 1; ...], [n] integers. *)
Definition range (lo : Z) (n : nat) : list Z :=
  map (fun i => (lo + Z.of_nat i)%Z) (seq 0 n).

Local Open Scope float_scope.

Definition age_choice (a : Z) : choice :=
  (Some (Math_max 0 ((of_Z a - 40) * 0.5)), Z.max 0 ((a - 40) * 5)).
Definition sleep_choice (q : Z) : choice :=
  (Some ((10 - of_Z q) * 2), ((10 - q) * 20)%Z).
Definition stress_choice (t : Z) : choice :=
  (Some (of_Z t * 1.5), (t * 15)%Z).
Definition activity_choice (p : Z) : choice :=
  (Some ((10 - of_Z p) * 1.2), ((10 - p) * 12)%Z).
Definition blood_pressure_choices : list choice :=
  [(Some 8, 80%Z); (Some 4, 40%Z); (None, 0%Z)].
Definition diabetes_choices : list choice :=
  [(Some 12, 120%Z); (Some 6, 60%Z); (None, 0%Z)].
Definition family_choices : list choice :=
  [(Some 15, 150%Z); (Some 8, 80%Z); (None, 0%Z)].
Definition dose_choice (h : Z) : choice :=
  (if 24 <? of_Z h then Some ((of_Z h - 24) * 0.8) else None,
   if (24 <? h)%Z then ((h - 24) * 8)%Z else 0%Z).

(** Every value [riskScore] can have before the last [+=], on a valid
    record. *)
Definition scores_before_dose : list state :=
  stage family_choices
    (stage diabetes_choices
      (stage blood_pressure_choices
        (stage (map activity_choice (range 1 10))
          (stage (map stress_choice (range 1 10))
            (stage (map sleep_choice (range 1 10))
              (stage (map age_choice (range 18 83)) [(0, 0%Z)])))))).

(** Every value [riskScore] can end with on a valid record with fewer than
    512 hours since the last dose. *)
Definition scores : list state :=
  stage (map dose_choice (range 0 512)) scores_before_dose.

Definition clamp_state (s : state) : state :=
  (Math_min 100 (Math_max 0 (fst s)), Z.min 1000 (Z.max 0 (snd s))).

(** Every value of [riskPercentage] on a valid record, with the exact
    percentage in tenths. *)
Definition percentages : list state :=
  Eval vm_compute in dedup (map clamp_state scores).

(** What the branches of a record choose. *)
Definition blood_pressure_choice (d : PatientData) : choice :=
  if (140 <? of_Z (systolicBP d)) || (90 <? of_Z (diastolicBP d)) then (Some 8, 80%Z)
  else if (130 <? of_Z (systolicBP d)) || (80 <? of_Z (diastolicBP d)) then (Some 4, 40%Z)
  else (None, 0%Z).

Definition diabetes_choice (d : PatientData) : choice :=
  if (diabetesStatus d =? "type1")%string || (diabetesStatus d =? "type2")%string
  then (Some 12, 120%Z)
  else if (diabetesStatus d =? "prediabetes")%string then (Some 6, 60%Z)
  else (None, 0%Z).

Definition family_choice (d : PatientData) : choice :=
  if (familyHistory d =? "multiple")%string then (Some 15, 150%Z)
  else if (familyHistory d =? "parent")%string || (familyHistory d =? "sibling")%string
  then (Some 8, 80%Z)
  else (None, 0%Z).

(** [riskScore] as eight steps from 0: seven, then the dose. *)
Definition state_before_dose (d : PatientData) : state :=
  step (family_choice d)
    (step (diabetes_choice d)
      (step (blood_pressure_choice d)
        (step (activity_choice (physicalActivity d))
          (step (stress_choice (stressLevel d))
            (step (sleep_choice (sleepQuality d))
              (step (age_choice (age d)) (0, 0%Z))))))).

Definition score_state (d : PatientData) : state :=
  step (dose_choice (lastDropHours d)) (state_before_dose d).

(** The comparisons of the code with the pressure thresholds are those of
    the integers. *)
Definition pressure_thresholds_agree (z : Z) : bool :=
  Bool.eqb (140 <? of_Z z) (140 <? z)%Z && Bool.eqb (130 <? of_Z z) (130 <? z)%Z
  && Bool.eqb (90 <? of_Z z) (90 <? z)%Z && Bool.eqb (80 <? of_Z z) (80 <? z)%Z.

(** A positive finite number. *)
Definition positive_finite (s : state) : bool :=
  match Prim2SF (fst s) with
  | S754_finite false _ _ => true
  | _ => false
  end.

(** *** Checks run over the whole table *)

(** The returned percentage is the exact one. *)
Definition percentage_exact (s : state) : bool :=
  PrimFloat.Leibniz.eqb (Spec.round1 (fst s)) (Exact.decimal1 (snd s)).

(** The returned pressure is the formula at the returned percentage. *)
Definition pressure_of_rounded (s : state) : bool :=
  PrimFloat.Leibniz.eqb (Spec.averagePredictedIop (fst s))
                        (Spec.averagePredictedIop (Spec.round1 (fst s))).

Definition pressure_bounded (s : state) : bool :=
  (14 <=? Spec.averagePredictedIop (fst s))
  && (Spec.averagePredictedIop (fst s) <=? 22.4).

(** The level is that of the returned percentage, unless the sum is the
    one that falls an ulp short of 20. *)
Definition level_of_rounded (s : state) : bool :=
  (Spec.riskLevel (fst s) =? Spec.riskLevel (Spec.round1 (fst s)))%string
  || PrimFloat.Leibniz.eqb (fst s) 19.999999999999996.

Fixpoint ascending (l : list float) : bool :=
  match l with
  | [] => true
  | x :: r =>
      (x <=? x) && negb (x <? x)
      && forallb (fun y => (x <=? y) && negb (y <? x)) r && ascending r
  end.

(** The Numbers 0.0, 0.1, ..., 100.0. *)
Definition decimals : list float := map Exact.decimal1 (range 0 1001).

(** [parseFloat] of a decimal is the quotient the hardware computes. *)
Definition decimal1_is_quotient (n : Z) : bool :=
  PrimFloat.Leibniz.eqb (Exact.decimal1 n) (of_Z n / 10).

End Reach.

(** ** Records used in the statements *)

(** The scenario of the specification. *)
Definition scenario : PatientData :=
  {| age := 50; gender := "male"; sleepQuality := 7; stressLevel := 4;
     physicalActivity := 5; diabetesStatus := "none"; bloodSugar := None;
     systolicBP := 120; diastolicBP := 80; familyHistory := "none";
     currentMedications := "none"; lastDropHours := 24 |}.

(** 0 + 0 + 4 * 1.5 + 9 * 1.2 + 4 * 0.8: twenty points on paper. *)
Definition twenty_by_rounding : PatientData :=
  {| age := 18; gender := "female"; sleepQuality := 10; stressLevel := 4;
     physicalActivity := 1; diabetesStatus := "none"; bloodSugar := None;
     systolicBP := 120; diastolicBP := 80; familyHistory := "none";
     currentMedications := "none"; lastDropHours := 28 |}.

(** 0 + 5 * 2 + 4 * 1.5 + 0 + 4: twenty points, each of them exact. *)
Definition twenty_exactly : PatientData :=
  {| age := 40; gender := "female"; sleepQuality := 5; stressLevel := 4;
     physicalActivity := 10; diabetesStatus := "none"; bloodSugar := None;
     systolicBP := 135; diastolicBP := 80; familyHistory := "none";
     currentMedications := "none"; lastDropHours := 0 |}.

(** 0 + 4 * 2 + 3 * 1.5 + 0: 12.5 points. *)
Definition twelve_and_a_half : PatientData :=
  {| age := 18; gender := "other"; sleepQuality := 6; stressLevel := 3;
     physicalActivity := 10; diabetesStatus := "none"; bloodSugar := None;
     systolicBP := 120; diastolicBP := 80; familyHistory := "none";
     currentMedications := "none"; lastDropHours := 0 |}.

(** 19.5 + 9 * 2 + 10 * 1.5 + 0 + 8 + 12 + 15: 87.5 points, each of them
    exact, on a record within the ranges of the patient form. *)
Definition eighty_seven_and_a_half : PatientData :=
  {| age := 79; gender := "male"; sleepQuality := 1; stressLevel := 10;
     physicalActivity := 10; diabetesStatus := "type2"; bloodSugar := None;
     systolicBP := 150; diastolicBP := 80; familyHistory := "multiple";
     currentMedications := "none"; lastDropHours := 24 |}.

(** A record that passes the validation of the route, which checks types
    and not ranges: 0 + 6 * 2 + 1.5 + 18 * 1.2 + 3 * 0.8, which is 37.5
    points on paper. *)
Definition below_the_activity_scale : PatientData :=
  {| age := 18; gender := "male"; sleepQuality := 4; stressLevel := 1;
     physicalActivity := -8; diabetesStatus := "none"; bloodSugar := None;
     systolicBP := 120; diastolicBP := 80; familyHistory := "none";
     currentMedications := "none"; lastDropHours := 27 |}.

(** The ends of the 32-bit [integer] columns. *)
Definition ends_of_the_columns : PatientData :=
  {| age := - 2 ^ 31; gender := "male"; sleepQuality := 2 ^ 31 - 1;
     stressLevel := - 2 ^ 31; physicalActivity := 2 ^ 31 - 1;
     diabetesStatus := "none"; bloodSugar := None;
     systolicBP := 2 ^ 31 - 1; diastolicBP := - 2 ^ 31; familyHistory := "none";
     currentMedications := "none"; lastDropHours := - 2 ^ 31 |}.

(** Integers near the largest binary64 number. *)
Definition overflowing : PatientData :=
  {| age := 50; gender := "male"; sleepQuality := - 2 ^ 1023;
     stressLevel := - (2 ^ 1023 + 2 ^ 1022);
     physicalActivity := 5; diabetesStatus := "none"; bloodSugar := None;
     systolicBP := 120; diastolicBP := 80; familyHistory := "none";
     currentMedications := "none"; lastDropHours := 24 |}.

Definition with_stressLevel (v : Z) (d : PatientData) : PatientData :=
  {| age := age d; gender := gender d; sleepQuality := sleepQuality d;
     stressLevel := v; physicalActivity := physicalActivity d;
     diabetesStatus := diabetesStatus d; bloodSugar := bloodSugar d;
     systolicBP := systolicBP d; diastolicBP := diastolicBP d;
     familyHistory := familyHistory d;
     currentMedications := currentMedications d;
     lastDropHours := lastDropHours d |}.

Definition with_sleepQuality (v : Z) (d : PatientData) : PatientData :=
  {| age := age d; gender := gender d; sleepQuality := v;
     stressLevel := stressLevel d; physicalActivity := physicalActivity d;
     diabetesStatus := diabetesStatus d; bloodSugar := bloodSugar d;
     systolicBP := systolicBP d; diastolicBP := diastolicBP d;
     familyHistory := familyHistory d;
     currentMedications := currentMedications d;
     lastDropHours := lastDropHours d |}.

(** [scenario] with the three fields the scorer does not read changed. *)
Definition scenario_other_patient : PatientData :=
  {| age := 50; gender := "female"; sleepQuality := 7; stressLevel := 4;
     physicalActivity := 5; diabetesStatus := "none"; bloodSugar := Some 250%Z;
     systolicBP := 120; diastolicBP := 80; familyHistory := "none";
     currentMedications := "combination"; lastDropHours := 24 |}.

(** ** The 24-hour forecast *)

Module Forecast.
Local Open Scope Q_scope.

(** *** The response type of shared/schema.ts *)

Record HourlyPrediction : Type := {
  hour : nat;
  predicted_iop : Q;
  risk_level : string
}.

Record CircadianAnalysis : Type := {
  peak_iop : Q;
  trough_iop : Q;
  average_iop : Q
}.

Record RiskAssessment : Type := {
  level : string;
  message : string;
  risk_percentage : float
}.

Record IopForecastResponse : Type := {
  predictions : list HourlyPrediction;
  optimal_drop_time : string;
  circadian_analysis : CircadianAnalysis;
  risk_assessment : RiskAssessment
}.

(** *** The hour the client shows (client/src/components/optimal-timing.tsx) *)

(** [s.split(sep)] for a separator of one character. *)
Fixpoint split (sep : Ascii.ascii) (s : string) : list string :=
  match s with
  | EmptyString => [EmptyString]
  | String c r =>
      if Ascii.eqb c sep then EmptyString :: split sep r
      else match split sep r with
           | [] => [String c EmptyString]
           | w :: ws => String c w :: ws
           end
  end.

Fixpoint includes (c : Ascii.ascii) (s : string) : bool :=
  match s with
  | EmptyString => false
  | String a r => Ascii.eqb a c || includes c r
  end.

Definition digit (c : Ascii.ascii) : option nat :=
  let n := Ascii.nat_of_ascii c in
  if ((48 <=? n) && (n <=? 57))%nat then Some (n - 48)%nat else None.

Fixpoint digits (s : string) (acc : nat) : nat :=
  match s with
  | EmptyString => acc
  | String c r =>
      match digit c with
      | Some k => digits r (10 * acc + k)
      | None => acc
      end
  end.

(** [parseInt] on a string that starts with neither a blank, a sign nor
    "0x", as the hours of [format_time] do: the decimal digits are read as
    far as they go.  [None] is NaN. *)
Definition parseInt (s : string) : option nat :=
  match s with
  | EmptyString => None
  | String c _ =>
      match digit c with
      | Some _ => Some (digits s 0)
      | None => None
      end
  end.

Definition optimalHour (optimalTime : string) : option nat :=
  let timeString :=
    if includes " "%char optimalTime then nth 1 (split " "%char optimalTime) EmptyString
    else optimalTime in
  let hour := nth 0 (split ":"%char timeString) EmptyString in
  parseInt hour.

(** *** The engine *)

Section Engine.

(** Modelled from the spec: server/ml/iop_model.py, the script
    [callPythonModel] runs to compute the forecast, is missing.  What
    follows is section 4.2 of the specification, over exact rationals.

    Steps 1 and 2, the circadian baseline around the patient's average
    and the suppression after a dose, are described by their shape
    only (amplitude and phase are "fixed constants" that are not
    given); the curve they produce, before rounding, is a parameter. *)
Variable hourly_curve : PatientData -> nat -> Q.

(** Step 3: one decimal. *)
Definition round1 (q : Q) : Q := Qfloor (q * 10 + (1 # 2)) # 10.

(** Step 3: the level of an hour, by absolute thresholds in mmHg. *)
Definition hourly_level (v : Q) : string :=
  if Qlt_le_dec v 15 then "low"
  else if Qlt_le_dec v 18 then "moderate"
  else if Qlt_le_dec v 21 then "high"
  else "critical".

Definition predict (attrs : PatientData) (h : nat) : HourlyPrediction :=
  let v := round1 (hourly_curve attrs h) in
  {| hour := h; predicted_iop := v; risk_level := hourly_level v |}.

Definition hourly_predictions (attrs : PatientData) : list HourlyPrediction :=
  map (predict attrs) (seq 0 24).

(** Step 4. *)
Fixpoint maximum (x : Q) (l : list Q) : Q :=
  match l with
  | [] => x
  | y :: r => let m := maximum y r in if Qlt_le_dec x m then m else x
  end.

Fixpoint minimum (x : Q) (l : list Q) : Q :=
  match l with
  | [] => x
  | y :: r => let m := minimum y r in if Qlt_le_dec m x then m else x
  end.

Definition total (l : list Q) : Q := fold_right Qplus 0 l.

Definition mean (l : list Q) : Q := total l / inject_Z (Z.of_nat (length l)).

Definition analyse (ps : list HourlyPrediction) : CircadianAnalysis :=
  match map predicted_iop ps with
  | [] => {| peak_iop := 0; trough_iop := 0; average_iop := 0 |}
  | v :: vs =>
      {| peak_iop := round1 (maximum v vs);
         trough_iop := round1 (minimum v vs);
         average_iop := round1 (mean (v :: vs)) |}
  end.

(** Step 5 with the tie-break: the prediction with the lowest
    pressure, the earliest of them when several share it. *)
Fixpoint lowest (p : HourlyPrediction) (r : list HourlyPrediction) : HourlyPrediction :=
  match r with
  | [] => p
  | q :: r' =>
      let m := lowest q r' in
      if Qlt_le_dec (predicted_iop m) (predicted_iop p) then m else p
  end.

Definition two_digits (n : nat) : string :=
  String (Ascii.ascii_of_nat (48 + n / 10))
    (String (Ascii.ascii_of_nat (48 + n mod 10)) EmptyString).

Definition format_time (h : nat) : string := (two_digits h ++ ":00")%string.

Definition optimalDropTime (ps : list HourlyPrediction) : string :=
  match ps with
  | [] => EmptyString
  | p :: r => format_time (hour (lowest p r))
  end.

(** Section 4.3: pure composition. *)
Definition assemble (a : RealTimeRiskResponse) (ps : list HourlyPrediction)
    (stats : CircadianAnalysis) (time : string) : IopForecastResponse :=
  {| predictions := ps;
     optimal_drop_time := time;
     circadian_analysis := stats;
     risk_assessment :=
       match a with
       | Build_RealTimeRiskResponse p l _ m =>
           {| level := l; message := m; risk_percentage := p |}
       end |}.

Definition computeForecast (attrs : PatientData) : result IopForecastResponse :=
  a <- calculateRealTimeRisk attrs ;;
  let ps := hourly_predictions attrs in
  Ok (assemble a ps (analyse ps) (optimalDropTime ps)).

End Engine.

End Forecast.


(** ** More about the risk scorer *)

(** [d'] is no better off than [d] in any number, and has the same
    diabetes status and family history. *)
Definition no_better_off (d d' : PatientData) : Prop :=
  (age d <= age d')%Z /\
  (sleepQuality d' <= sleepQuality d)%Z /\
  (stressLevel d <= stressLevel d')%Z /\
  (physicalActivity d' <= physicalActivity d)%Z /\
  (systolicBP d <= systolicBP d')%Z /\
  (diastolicBP d <= diastolicBP d')%Z /\
  (lastDropHours d <= lastDropHours d')%Z /\
  diabetesStatus d = diabetesStatus d' /\
  familyHistory d = familyHistory d'.

(** The average pressures answered for 0.0, 0.1, ..., 100.0 percent. *)
Definition pressures : list float :=
  map (fun n => Spec.averagePredictedIop (Exact.decimal1 n)) (Reach.range 0 1001).

Definition numeral_eqb (a b : JS.numeral) : bool :=
  match a, b with
  | JS.LitNaN, JS.LitNaN => true
  | JS.LitInfinity s, JS.LitInfinity t => Bool.eqb s t
  | JS.Fixed s n f, JS.Fixed t m g => (Bool.eqb s t && (n =? m) && (f =? g))%Z
  | JS.Shortest x, JS.Shortest y => PrimFloat.Leibniz.eqb x y
  | _, _ => false
  end.

(** [toFixed(1)] of the percentage answered writes the exact percentage. *)
Definition shown_percentage_exact (s : Reach.state) : bool :=
  numeral_eqb (JS.fixed_point (Spec.round1 (fst s)) 1) (JS.Fixed false (snd s) 1).

(** [toFixed(1)] of the pressure answered writes what the server wrote
    before it read it back. *)
Definition shown_pressure_same (s : Reach.state) : bool :=
  numeral_eqb (JS.fixed_point (Spec.averagePredictedIop (fst s)) 1)
              (JS.fixed_point (14 * (1 + (fst s / 100) * 0.6))%float 1).

(** A sum of 100 points or more is answered 100 percent, critical, 22.4
    mmHg. *)
Definition capped (s : Reach.state) : bool :=
  negb (snd s =? 1000)%Z
  || (PrimFloat.Leibniz.eqb (Spec.round1 (fst s)) 100
      && (Spec.riskLevel (fst s) =? "critical")%string
      && PrimFloat.Leibniz.eqb (Spec.averagePredictedIop (fst s)) 22.4).

(** The percentage answered lies between 1.5 and 100. *)
Definition percentage_in_range (s : Reach.state) : bool :=
  ((1.5 <=? Spec.round1 (fst s)) && (Spec.round1 (fst s) <=? 100))%float.

(** [scenario] with other hours since the last dose. *)
Definition with_lastDropHours (v : Z) (d : PatientData) : PatientData :=
  {| age := age d; gender := gender d; sleepQuality := sleepQuality d;
     stressLevel := stressLevel d; physicalActivity := physicalActivity d;
     diabetesStatus := diabetesStatus d; bloodSugar := bloodSugar d;
     systolicBP := systolicBP d; diastolicBP := diastolicBP d;
     familyHistory := familyHistory d;
     currentMedications := currentMedications d;
     lastDropHours := v |}.

(** ** The values of [JSON.parse] *)

Module JSON.

(** What [JSON.parse] builds: null, a boolean, a Number, a string, an
    array, or an object with its members, one for each name.
    [Undefined] is what reading a member that is not there gives;
    [JSON.parse] builds none. *)
Inductive value : Type :=
| Undefined
| Null
| Boolean (b : bool)
| Number (x : float)
| Text (s : string)
| Array (elements : list value)
| Object (members : list (string * value)).

Fixpoint lookup (members : list (string * value)) (name : string) : value :=
  match members with
  | [] => Undefined
  | (k, v) :: r => if (k =? name)%string then v else lookup r name
  end.

(** [v.name] for a [v] that is neither null nor undefined, and a [name]
    that no prototype defines: the member of an object, and [undefined]
    on every other value. *)
Definition member (v : value) (name : string) : value :=
  match v with
  | Object members => lookup members name
  | _ => Undefined
  end.

(** Reading a member of null or undefined throws a TypeError. *)
Definition nullish (v : value) : bool :=
  match v with
  | Undefined | Null => true
  | _ => false
  end.

End JSON.

(** ** The in-memory storage (server/storage.ts) *)

Module Storage.

(** *** [Map]

    A JavaScript [Map] with string keys: its entries in the order of
    insertion.  [set] on a key that is present replaces the value where
    it stands; on a new key it appends. *)
Definition Map (V : Type) : Type := list (string * V).

Fixpoint Map_get {V : Type} (m : Map V) (key : string) : option V :=
  match m with
  | [] => None
  | (k, v) :: r => if (k =? key)%string then Some v else Map_get r key
  end.

Fixpoint Map_set {V : Type} (m : Map V) (key : string) (value : V) : Map V :=
  match m with
  | [] => [(key, value)]
  | (k, v) :: r =>
      if (k =? key)%string then (key, value) :: r
      else (k, v) :: Map_set r key value
  end.

Definition Map_values {V : Type} (m : Map V) : list V := map snd m.

Definition Map_keys {V : Type} (m : Map V) : list string := map fst m.

(** *** The rows of shared/schema.ts *)

(** [new Date()], in milliseconds. *)
Definition Date : Type := Z.

Record InsertUser : Type := {
  username : string;
  password : string
}.

(** The columns of [patient_data] without [id] and [createdAt]. *)
Definition InsertPatientData : Type := PatientData.

(** The columns of [iop_predictions] without [id] and [createdAt].  The
    table declares [hour] an integer, [predictedIop] a real and
    [riskLevel] a text; this storage keeps what it is handed, and the
    route hands it members of the output of the model as they are. *)
Record InsertIopPrediction : Type := {
  patientDataId : string;
  hour : JSON.value;
  predictedIop : JSON.value;
  riskLevel : JSON.value
}.

(** A row as the storage builds it, [{ ...data, id, createdAt }]: the
    inserted columns, the generated [id] and, in the tables that have
    one, the [createdAt] stamp. *)
Record Row (Columns Stamp : Type) : Type := {
  id : string;
  columns : Columns;
  createdAt : Stamp
}.
Arguments id {Columns Stamp} r.
Arguments columns {Columns Stamp} r.
Arguments createdAt {Columns Stamp} r.

Definition User : Type := Row InsertUser unit.
Definition StoredPatientData : Type := Row InsertPatientData Date.
Definition IopPrediction : Type := Row InsertIopPrediction Date.

(** *** [MemStorage] *)

Record MemStorage : Type := {
  users : Map User;
  patientData : Map StoredPatientData;
  iopPredictions : Map IopPrediction
}.

(** [new MemStorage()]. *)
Definition new_MemStorage : MemStorage :=
  {| users := []; patientData := []; iopPredictions := [] |}.

(** The storage together with the number of identifiers and of dates
    drawn so far. *)
Record World : Type := {
  storage : MemStorage;
  uuids : nat;
  dates : nat
}.

Definition new_World : World :=
  {| storage := new_MemStorage; uuids := 0; dates := 0 |}.

Section Methods.

(** The [n]-th value returned by [randomUUID()] and by [new Date()]. *)
Variable randomUUID : nat -> string.
Variable Date_now : nat -> Date.

Definition getUser (s : MemStorage) (id : string) : option User :=
  Map_get (users s) id.

Definition getUserByUsername (s : MemStorage) (username' : string) : option User :=
  find (fun user => (username (columns user) =? username')%string)
       (Map_values (users s)).

Definition createUser (w : World) (insertUser : InsertUser) : User * World :=
  let id := randomUUID (uuids w) in
  let user := {| id := id; columns := insertUser; createdAt := tt |} in
  (user,
   {| storage := {| users := Map_set (users (storage w)) id user;
                    patientData := patientData (storage w);
                    iopPredictions := iopPredictions (storage w) |};
      uuids := S (uuids w);
      dates := dates w |}).

Definition createPatientData (w : World) (data : InsertPatientData)
    : StoredPatientData * World :=
  let id := randomUUID (uuids w) in
  let patientData' :=
    {| id := id; columns := data; createdAt := Date_now (dates w) |} in
  (patientData',
   {| storage := {| users := users (storage w);
                    patientData := Map_set (patientData (storage w)) id patientData';
                    iopPredictions := iopPredictions (storage w) |};
      uuids := S (uuids w);
      dates := S (dates w) |}).

Definition getPatientData (s : MemStorage) (id : string) : option StoredPatientData :=
  Map_get (patientData s) id.

(** The loop of [createIopPredictions], from the predictions still to
    store and the rows pushed so far. *)
Fixpoint createIopPredictions_loop (predictions : list InsertIopPrediction)
    (createdPredictions : list IopPrediction) (w : World)
    : list IopPrediction * World :=
  match predictions with
  | [] => (createdPredictions, w)
  | prediction :: rest =>
      let id := randomUUID (uuids w) in
      let iopPrediction :=
        {| id := id; columns := prediction; createdAt := Date_now (dates w) |} in
      createIopPredictions_loop rest (createdPredictions ++ [iopPrediction])
        {| storage := {| users := users (storage w);
                         patientData := patientData (storage w);
                         iopPredictions :=
                           Map_set (iopPredictions (storage w)) id iopPrediction |};
           uuids := S (uuids w);
           dates := S (dates w) |}
  end.

Definition createIopPredictions (w : World) (predictions : list InsertIopPrediction)
    : list IopPrediction * World :=
  createIopPredictions_loop predictions [] w.

Definition getIopPredictionsByPatientId (s : MemStorage) (patientDataId' : string)
    : list IopPrediction :=
  filter (fun prediction => (patientDataId (columns prediction) =? patientDataId')%string)
         (Map_values (iopPredictions s)).

(** *** Runs of the storage *)

(** Every row stands under its own [id], and no key stands twice. *)
Definition filed {Columns Stamp : Type} (m : Map (Row Columns Stamp)) : Prop :=
  NoDup (Map_keys m) /\ forall k row, In (k, row) m -> id row = k.

Inductive call : Type :=
| CreateUser (insertUser : InsertUser)
| CreatePatientData (data : InsertPatientData)
| CreateIopPredictions (predictions : list InsertIopPrediction).

Definition perform (w : World) (c : call) : World :=
  match c with
  | CreateUser insertUser => snd (createUser w insertUser)
  | CreatePatientData data => snd (createPatientData w data)
  | CreateIopPredictions predictions => snd (createIopPredictions w predictions)
  end.

(** The state after the calls of [calls], in order, on a new storage. *)
Definition run (calls : list call) : World := fold_left perform calls new_World.

End Methods.

End Storage.

(** ** The API (server/routes.ts) *)

(** The response types of shared/schema.ts, at which the client takes
    the body of an answer: every number a Number. *)
Module Api.

Record HourlyPrediction : Type := {
  hour : float;
  predicted_iop : float;
  risk_level : string
}.

Record CircadianAnalysis : Type := {
  peak_iop : float;
  trough_iop : float;
  average_iop : float
}.

Record RiskAssessment : Type := {
  level : string;
  message : string;
  risk_percentage : float
}.

Record IopForecastResponse : Type := {
  predictions : list HourlyPrediction;
  optimal_drop_time : string;
  circadian_analysis : CircadianAnalysis;
  risk_assessment : RiskAssessment
}.

End Api.

Module Routes.
Import Storage.

(** What a [catch] clause receives: an [Error] with its message, or a
    value of another kind. *)
Inductive thrown : Type :=
| Error (message : string)
| NotAnError.

(** [error instanceof Error ? error.message : fallback]. *)
Definition message_or (error : thrown) (fallback : string) : string :=
  match error with
  | Error message => message
  | NotAnError => fallback
  end.

(** The RangeError of [toFixed], with the message V8 gives it. *)
Definition of_exn (e : exn) : thrown :=
  match e with
  | RangeError => Error "toFixed() digits argument must be between 0 and 100"
  end.

(** [res.json(value)] and [res.status(status).json({ error })]. *)
Inductive body (A : Type) : Type :=
| Json (value : A)
| ErrorJson (error : string).
Arguments Json {A} value.
Arguments ErrorJson {A} error.

Record Response (A : Type) : Type := {
  status : nat;
  json : body A
}.
Arguments status {A} r.
Arguments json {A} r.

(** The Python process when it has closed: its exit code ([null] when a
    signal ended it) and what it wrote. *)
Record Closed : Type := {
  code : option Z;
  stdout : string;
  stderr : string
}.

(** [`${code}`]. *)
Definition code_text (code : option Z) : string :=
  match code with
  | Some n => DecimalString.NilZero.string_of_int (Z.to_int n)
  | None => "null"
  end.

Section Handlers.

(** [req.body], and [insertPatientDataSchema.parse], which returns the
    validated record or throws. *)
Variable Request : Type.
Variable parse : Request -> thrown + PatientData.

Variable randomUUID : nat -> string.
Variable Date_now : nat -> Date.

(** The run of [server/ml/iop_model.py] on the record written to its
    standard input, up to its [close] event. *)
Variable python3 : PatientData -> Closed.

(** [JSON.parse]: the value, or the text [`${error}`] of what it
    throws. *)
Variable JSON_parse : string -> string + JSON.value.

(** The message of the TypeError that
    [predictions.predictions.map(pred => ...)] throws on a value it fails
    on; the wording is the engine's. *)
Variable TypeError_message : JSON.value -> string.

(** POST /api/calculate-risk. *)
Definition calculate_risk (request : Request) : Response RealTimeRiskResponse :=
  match parse request with
  | inl error =>
      {| status := 400; json := ErrorJson (message_or error "Invalid data provided") |}
  | inr validatedData =>
      match calculateRealTimeRisk validatedData with
      | Throw e =>
          {| status := 400;
             json := ErrorJson (message_or (of_exn e) "Invalid data provided") |}
      | Ok riskData => {| status := 200; json := Json riskData |}
      end
  end.

(** The promise of [callPythonModel]: resolved with the parsed output,
    whatever its shape (the type [IopForecastResponse] is not checked),
    or rejected with an [Error] of the message on the left. *)
Definition callPythonModel (data : PatientData) : string + JSON.value :=
  let python := python3 data in
  match code python with
  | Some 0%Z =>
      match JSON_parse (stdout python) with
      | inr result => inr result
      | inl error => inl ("Failed to parse Python output: " ++ error)%string
      end
  | code =>
      inl ("Python script failed with code " ++ code_text code ++ ": "
           ++ stderr python)%string
  end.

(** [array.map(callback)] with a callback that may throw: the results
    in order, or nothing when a call throws. *)
Fixpoint Array_map {A : Type} (callback : JSON.value -> option A)
    (elements : list JSON.value) : option (list A) :=
  match elements with
  | [] => Some []
  | element :: rest =>
      match callback element with
      | None => None
      | Some a =>
          match Array_map callback rest with
          | None => None
          | Some r => Some (a :: r)
          end
      end
  end.

(** [predictions.predictions.map(pred => ({ ... }))], or nothing when
    it throws: when [predictions] is null, when its member [predictions]
    is not an array (of what [JSON.parse] builds only an array has a
    [map] that can be called), and when an element is null. *)
Definition predictionData (savedPatientData : StoredPatientData)
    (predictions : JSON.value) : option (list InsertIopPrediction) :=
  if JSON.nullish predictions then None
  else
    match JSON.member predictions "predictions" with
    | JSON.Array elements =>
        Array_map
          (fun pred =>
             if JSON.nullish pred then None
             else Some {| patientDataId := id savedPatientData;
                          hour := JSON.member pred "hour";
                          predictedIop := JSON.member pred "predicted_iop";
                          riskLevel := JSON.member pred "risk_level" |})
          elements
    | _ => None
    end.

(** POST /api/predict-iop. *)
Definition predict_iop (request : Request) (w : World)
    : Response JSON.value * World :=
  match parse request with
  | inl error =>
      ({| status := 500;
          json := ErrorJson (message_or error "Failed to generate predictions") |}, w)
  | inr validatedData =>
      (* Store patient data *)
      let '(savedPatientData, w) := createPatientData randomUUID Date_now w validatedData in
      (* Call Python ML model *)
      match callPythonModel validatedData with
      | inl message =>
          ({| status := 500;
              json := ErrorJson (message_or (Error message)
                                            "Failed to generate predictions") |}, w)
      | inr predictions =>
          (* Store predictions *)
          match predictionData savedPatientData predictions with
          | None =>
              ({| status := 500;
                  json := ErrorJson (message_or (Error (TypeError_message predictions))
                                                "Failed to generate predictions") |}, w)
          | Some predictionData =>
              let '(_, w) := createIopPredictions randomUUID Date_now w predictionData in
              ({| status := 200; json := Json predictions |}, w)
          end
      end
  end.

End Handlers.

End Routes.

(** ** The client *)

Module Client.
Import Forecast.

(** *** Strings *)

Definition is_blank (c : Ascii.ascii) : bool :=
  let n := Ascii.nat_of_ascii c in
  ((n =? 32) || ((9 <=? n) && (n <=? 13)))%nat.

(** The value of a character as a digit in [radix], if it is one. *)
Definition digit_in (radix : nat) (c : Ascii.ascii) : option nat :=
  let n := Ascii.nat_of_ascii c in
  let v :=
    if ((48 <=? n) && (n <=? 57))%nat then Some (n - 48)%nat
    else if ((97 <=? n) && (n <=? 122))%nat then Some (n - 87)%nat
    else if ((65 <=? n) && (n <=? 90))%nat then Some (n - 55)%nat
    else None in
  match v with
  | Some k => if (k <? radix)%nat then Some k else None
  | None => None
  end.

(** The longest prefix of digits, read in [radix]; [None] when the first
    character is no digit. *)
Fixpoint digits_in (radix : nat) (s : string) (acc : option Z) : option Z :=
  match s with
  | EmptyString => acc
  | String c r =>
      match digit_in radix c with
      | Some k =>
          digits_in radix r
            (Some (Z.of_nat radix * match acc with Some a => a | None => 0 end
                   + Z.of_nat k)%Z)
      | None => acc
      end
  end.

Fixpoint trimStart (s : string) : string :=
  match s with
  | String c r => if is_blank c then trimStart r else s
  | EmptyString => s
  end.

(** [parseInt(s)], on a string of ASCII characters: blanks are skipped, a
    sign is read, "0x" announces hexadecimal digits, and the digits are
    read as far as they go.  [None] is NaN; -0 is read as 0.  The result
    is the integer read; the Number [parseInt] returns is the binary64
    value nearest to it, which below 2^53 is the integer itself. *)
Definition parseInt (s : string) : option Z :=
  let s := trimStart s in
  let '(negative, s) :=
    match s with
    | String "-"%char r => (true, r)
    | String "+"%char r => (false, r)
    | _ => (false, s)
    end in
  let '(radix, s) :=
    match s with
    | String "0"%char (String "x"%char r) => (16%nat, r)
    | String "0"%char (String "X"%char r) => (16%nat, r)
    | _ => (10%nat, s)
    end in
  match digits_in radix s None with
  | Some n => Some (if negative then (- n)%Z else n)
  | None => None
  end.

Fixpoint zeros (n : nat) : string :=
  match n with
  | O => EmptyString
  | S k => String "0"%char (zeros k)
  end.

(** [s.padStart(targetLength, "0")]. *)
Definition padStart (s : string) (targetLength : nat) : string :=
  (zeros (targetLength - String.length s) ++ s)%string.

(** *** The card of the optimal time
        (client/src/components/optimal-timing.tsx) *)

Module OptimalTiming.

Definition timeString (optimalTime : string) : string :=
  if includes " "%char optimalTime
  then nth 1 (split " "%char optimalTime) EmptyString
  else optimalTime.

(** [const [hour] = timeString.split(":")]. *)
Definition hour (optimalTime : string) : string :=
  nth 0 (split ":"%char (timeString optimalTime)) EmptyString.

Definition formattedTime (optimalTime : string) : string :=
  (padStart (hour optimalTime) 2 ++ ":00")%string.

Definition optimalHour (optimalTime : string) : option Z :=
  parseInt (hour optimalTime).

(** [optimalHour > currentHour], which is false of NaN. *)
Definition isFutureToday (optimalTime : string) (currentHour : Z) : bool :=
  match optimalHour optimalTime with
  | Some h => (currentHour <? h)%Z
  | None => false
  end.

End OptimalTiming.

(** *** The same card in the first page
        (attached_assets/page_1756862289198.js, EnhancedOptimalTiming) *)

Module Page.

(** [const [hour, minute] = timeString.split(':')]; [minute] may be
    undefined. *)
Definition formattedTime (optimalTime : string) : string :=
  let timeString := OptimalTiming.timeString optimalTime in
  let parts := split ":"%char timeString in
  let hour := nth 0 parts EmptyString in
  let minute := nth_error parts 1 in
  (hour ++ ":" ++
   match minute with
   | Some (String c r) => String c r
   | _ => "00"
   end)%string.

End Page.

(** The character of a decimal digit. *)
Definition digit_char (d : nat) : Ascii.ascii := Ascii.ascii_of_nat (48 + d).

(** [parseInt] reads the digits [a], [b] as [10 * a + b], and [b] alone
    as [b]. *)
Definition reads_digits (a b : nat) : bool :=
  match parseInt (String (digit_char a) (String (digit_char b) EmptyString)),
        parseInt (String (digit_char b) EmptyString) with
  | Some n, Some m => ((n =? Z.of_nat (10 * a + b)) && (m =? Z.of_nat b))%Z
  | _, _ => false
  end.

(** *** The risk card (client/src/components/risk-assessment.tsx) *)

Module RiskAssessment.

Record RiskConfig : Type := {
  bg : string;
  border : string;
  text : string;
  badge : string;
  progress : string
}.

Definition configs_low : RiskConfig :=
  {| bg := "bg-chart-1/10"; border := "border-chart-1/20"; text := "text-chart-1";
     badge := "bg-chart-1 text-white"; progress := "bg-chart-1" |}.
Definition configs_moderate : RiskConfig :=
  {| bg := "bg-chart-3/10"; border := "border-chart-3/20"; text := "text-chart-3";
     badge := "bg-chart-3 text-white"; progress := "bg-chart-3" |}.
Definition configs_high : RiskConfig :=
  {| bg := "bg-orange-500/10"; border := "border-orange-500/20";
     text := "text-orange-600"; badge := "bg-orange-500 text-white";
     progress := "bg-orange-500" |}.
Definition configs_critical : RiskConfig :=
  {| bg := "bg-destructive/10"; border := "border-destructive/20";
     text := "text-destructive";
     badge := "bg-destructive text-destructive-foreground";
     progress := "bg-destructive" |}.

(** What [configs[level]] finds: a configuration of [configs], or a
    member that the object literal inherits from [Object.prototype]. *)
Inductive member : Type :=
| Own (config : RiskConfig)
| Inherited (name : string).

Definition Object_prototype : list string :=
  [ "constructor"; "hasOwnProperty"; "isPrototypeOf"; "propertyIsEnumerable";
    "toLocaleString"; "toString"; "valueOf"; "__proto__"; "__defineGetter__";
    "__defineSetter__"; "__lookupGetter__"; "__lookupSetter__" ]%string.

(** [configs[level] || configs.low]: every member found is an object or a
    function, hence truthy. *)
Definition getRiskConfig (level : string) : member :=
  if (level =? "low")%string then Own configs_low
  else if (level =? "moderate")%string then Own configs_moderate
  else if (level =? "high")%string then Own configs_high
  else if (level =? "critical")%string then Own configs_critical
  else if existsb (String.eqb level) Object_prototype then Inherited level
  else Own configs_low.

(** [c.toUpperCase()], for a character of ASCII. *)
Definition toUpperCase (c : Ascii.ascii) : Ascii.ascii :=
  let n := Ascii.nat_of_ascii c in
  if ((97 <=? n) && (n <=? 122))%nat then Ascii.ascii_of_nat (n - 32) else c.

(** The badge: [level.charAt(0).toUpperCase() + level.slice(1)]. *)
Definition badge_text (level : string) : string :=
  match level with
  | EmptyString => EmptyString
  | String c r => String (toUpperCase c) r
  end.

(** The text the card shows for a Number: [x.toFixed(1)]. *)
Definition shown (x : float) : result JS.numeral := JS.toFixed x 1.

End RiskAssessment.

(** *** The chart: the two versions of [IopChart]
        (src/unnamed/part_002 with bars, src/unnamed/part_001 with a
        trace) *)

Module IopChart.

(** [l.filter((_, i) => f(i))], from index [i] on. *)
Fixpoint filter_index {A : Type} (f : nat -> bool) (i : nat) (l : list A) : list A :=
  match l with
  | [] => []
  | x :: r => if f i then x :: filter_index f (S i) r else filter_index f (S i) r
  end.

(** The bars of the chart with bars:
    [predictions.filter((_, i) => i % 3 === 0)]. *)
Definition bars {A : Type} (predictions : list A) : list A :=
  filter_index (fun i => (i mod 3 =? 0)%nat) 0 predictions.

(** [const actualIndex = index * 3]. *)
Definition actualIndex (index : nat) : nat := index * 3.

(** The abscissa of a trace point:
    [(index / (predictions.length - 1)) * 100]. *)
Definition trace_x (length index : nat) : float :=
  (JS.of_Z (Z.of_nat index) / (JS.of_Z (Z.of_nat length) - 1) * 100)%float.

(** The abscissas of [createTracePoints()], left to right. *)
Definition trace_xs {A : Type} (predictions : list A) : list float :=
  map (trace_x (length predictions)) (seq 0 (length predictions)).

Fixpoint increasing (l : list float) : bool :=
  match l with
  | x :: (y :: _) as r => (x <? y)%float && increasing r
  | _ => true
  end.

(** With [n] predictions the abscissas go from 0 to 100, each larger
    than the one before. *)
Definition spans (n : nat) : bool :=
  let xs := map (trace_x n) (seq 0 n) in
  PrimFloat.Leibniz.eqb (hd nan xs) 0
  && PrimFloat.Leibniz.eqb (last xs nan) 100
  && increasing xs.

End IopChart.

(** *** The page [Home] (src/unnamed/part_000) and the submission of
        the form [PatientForm] (src/unnamed/part_003) *)

Module Home.

Record State : Type := {
  predictions : option Api.IopForecastResponse;
  loading : bool;
  error : string
}.

(** The three [useState] at their initial values. *)
Definition initial : State :=
  {| predictions := None; loading := false; error := "" |}.

Definition handlePredictionsUpdate (newPredictions : Api.IopForecastResponse)
    (s : State) : State :=
  {| predictions := Some newPredictions; loading := loading s; error := "" |}.

Definition handleError (errorMessage : string) (s : State) : State :=
  {| predictions := None; loading := loading s; error := errorMessage |}.

Definition handleLoadingChange (isLoading : bool) (s : State) : State :=
  {| predictions := predictions s; loading := isLoading; error := error s |}.

(** A call of one of the three callbacks handed to the form. *)
Inductive callback : Type :=
| onPredictionsUpdate (predictions : Api.IopForecastResponse)
| onError (error : string)
| onLoadingChange (loading : bool).

Definition handle (s : State) (c : callback) : State :=
  match c with
  | onPredictionsUpdate p => handlePredictionsUpdate p s
  | onError e => handleError e s
  | onLoadingChange b => handleLoadingChange b s
  end.

(** The callbacks of [handleSubmit], in order, for what its [try] block
    comes to: the forecast, or what was thrown.  The toasts are taken to
    return. *)
Definition handleSubmit (outcome : Routes.thrown + Api.IopForecastResponse)
    : list callback :=
  [ onLoadingChange true; onError "" ]
  ++ match outcome with
     | inr predictions => [ onPredictionsUpdate predictions ]
     | inl error =>
         [ onError (Routes.message_or error "Failed to generate predictions") ]
     end
  ++ [ onLoadingChange false ].

(** [{error && (...)}]: the banner shows for a string that is not empty. *)
Definition shows_error (s : State) : bool :=
  match error s with
  | EmptyString => false
  | _ => true
  end.

(** [<IopChart predictions={predictions?.predictions} />] draws the
    chart unless [!predictions || predictions.length === 0]. *)
Definition draws_chart (s : State) : bool :=
  match predictions s with
  | Some p => negb (length (Api.predictions p) =? 0)%nat
  | None => false
  end.

(** [<OptimalTiming optimalTime={predictions?.optimal_drop_time} ... />]
    shows the time unless [!optimalTime || !analysis]. *)
Definition shows_timing (s : State) : bool :=
  match predictions s with
  | Some p =>
      match Api.optimal_drop_time p with
      | EmptyString => false
      | _ => true
      end
  | None => false
  end.

End Home.

End Client.


(* ================================================================== *)
(** * Part II: lemmas and theorems *)

(** ** Signed zeros *)

Section SignedZeros.
Local Open Scope float_scope.

Lemma same_or_zeros_trans x y z :
  same_or_zeros x y -> same_or_zeros y z -> same_or_zeros x z.
Proof.
  intros [-> | (s & t & Hx & Hy)] [-> | (s' & t' & Hy' & Hz)].
  - now left.
  - right; eauto.
  - right; eauto.
  - right; eauto.
Qed.

Lemma same_or_zeros_SF x y :
  Prim2SF x = Prim2SF y -> same_or_zeros x y.
Proof. intros H; left; now apply Prim2SF_inj. Qed.

(** [0 + y] is [y], up to the sign of a zero. *)
Lemma add_zero_l y : same_or_zeros (0 + y) y.
Proof.
  destruct (Prim2SF y) as [s | s | | s m e] eqn:Hy.
  - right. exists false, s. split; [| exact Hy].
    rewrite FloatAxioms.add_spec, Hy. now destruct s.
  - apply same_or_zeros_SF. now rewrite FloatAxioms.add_spec, Hy.
  - apply same_or_zeros_SF. now rewrite FloatAxioms.add_spec, Hy.
  - apply same_or_zeros_SF. now rewrite FloatAxioms.add_spec, Hy.
Qed.

(** [x + 0] is [x], up to the sign of a zero. *)
Lemma add_zero_r x : same_or_zeros x (x + 0).
Proof.
  destruct (Prim2SF x) as [s | s | | s m e] eqn:Hx.
  - right. exists s, false. split; [exact Hx |].
    rewrite FloatAxioms.add_spec, Hx. now destruct s.
  - apply same_or_zeros_SF. now rewrite FloatAxioms.add_spec, Hx.
  - apply same_or_zeros_SF. now rewrite FloatAxioms.add_spec, Hx.
  - apply same_or_zeros_SF. now rewrite FloatAxioms.add_spec, Hx.
Qed.

(** Adding the same number to two sums that differ in the sign of a zero
    gives sums that differ in the sign of a zero at most. *)
Lemma add_same_or_zeros x x' y :
  same_or_zeros x x' -> same_or_zeros (x + y) (x' + y).
Proof.
  intros [-> | (s & t & Hx & Hx')]; [now left |].
  destruct (Prim2SF y) as [u | u | | u m e] eqn:Hy.
  - right. exists (if Bool.eqb s u then s else false), (if Bool.eqb t u then t else false).
    rewrite !FloatAxioms.add_spec, Hx, Hx', Hy. split; [now destruct s, u | now destruct t, u].
  - apply same_or_zeros_SF. now rewrite !FloatAxioms.add_spec, Hx, Hx', Hy.
  - apply same_or_zeros_SF. now rewrite !FloatAxioms.add_spec, Hx, Hx', Hy.
  - apply same_or_zeros_SF. now rewrite !FloatAxioms.add_spec, Hx, Hx', Hy.
Qed.

(** [Math.max(0, x)] is +0 on either zero. *)
Lemma Math_max_zero x s : Prim2SF x = S754_zero s -> JS.Math_max 0 x = 0.
Proof.
  intros Hx. unfold JS.Math_max, is_nan.
  rewrite !FloatAxioms.ltb_spec, !FloatAxioms.eqb_spec, Hx.
  change (Prim2SF 0) with (S754_zero false).
  change (get_sign 0) with false.
  now destruct s.
Qed.

Lemma Math_max_same_or_zeros x y :
  same_or_zeros x y -> JS.Math_max 0 x = JS.Math_max 0 y.
Proof.
  intros [-> | (s & t & Hx & Hy)]; [reflexivity |].
  now rewrite (Math_max_zero x s), (Math_max_zero y t).
Qed.

Lemma skip_or_add_zero (b : bool) (s s' c : float) :
  same_or_zeros s s' ->
  same_or_zeros (if b then s + c else s) (s' + (if b then c else 0)).
Proof.
  intros H. destruct b.
  - now apply add_same_or_zeros.
  - eapply same_or_zeros_trans; [exact H | apply add_zero_r].
Qed.

Lemma skip_or_add_zero2 (b1 b2 : bool) (s s' c1 c2 : float) :
  same_or_zeros s s' ->
  same_or_zeros (if b1 then s + c1 else if b2 then s + c2 else s)
                (s' + (if b1 then c1 else if b2 then c2 else 0)).
Proof.
  intros H. destruct b1.
  - now apply add_same_or_zeros.
  - now apply skip_or_add_zero.
Qed.

End SignedZeros.

(** ** The code against the table of the specification *)

Section CodeAgainstTable.
Local Open Scope float_scope.

(** Neither call of [toFixed] throws: the function returns. *)
Lemma calculateRealTimeRisk_returns (data : PatientData) :
  calculateRealTimeRisk data = Ok (response_of (riskPercentage data)).
Proof.
  unfold calculateRealTimeRisk, response_of, Spec.riskLevel, Spec.message_of.
  generalize (riskPercentage data); intros p.
  unfold JS.toFixed. cbn [Z.ltb Z.compare orb bind Pos.compare Pos.compare_cont].
  destruct (p <? 20); [reflexivity |].
  destruct (p <? 40); [reflexivity |].
  destruct (p <? 70); reflexivity.
Qed.

(** The chain of [+=] and the sum of the table agree up to the sign of a
    zero. *)
Lemma riskScore_rawScore (data : PatientData) :
  same_or_zeros (riskScore data) (Spec.rawScore data).
Proof.
  unfold riskScore, Spec.rawScore, Spec.dose_points, Spec.family_points,
    Spec.diabetes_points, Spec.blood_pressure_points.
  cbv zeta.
  apply skip_or_add_zero.
  apply skip_or_add_zero2.
  apply skip_or_add_zero2.
  apply skip_or_add_zero2.
  do 3 apply add_same_or_zeros.
  apply add_zero_l.
Qed.

Lemma riskPercentage_clampedScore (data : PatientData) :
  riskPercentage data = Spec.clampedScore data.
Proof.
  unfold riskPercentage, Spec.clampedScore, Spec.clamp.
  f_equal. apply Math_max_same_or_zeros, riskScore_rawScore.
Qed.

Lemma riskScore_same_scored_fields (d d' : PatientData) :
  same_scored_fields d d' -> riskScore d = riskScore d'.
Proof.
  intros (Ha & Hq & Ht & Hp & Hdi & Hs & Hdp & Hf & Hh).
  unfold riskScore. now rewrite Ha, Hq, Ht, Hp, Hdi, Hs, Hdp, Hf, Hh.
Qed.

End CodeAgainstTable.

(** ** The table in exact arithmetic *)

Lemma percentage_tenths_bounds (d : PatientData) :
  (0 <= Exact.percentage_tenths d <= 1000)%Z.
Proof. unfold Exact.percentage_tenths. lia. Qed.

(** In exact arithmetic more stress is never fewer points, whatever the
    integers in the record. *)
Lemma percentage_tenths_stress (d d' : PatientData) :
  same_but_stressLevel d d' -> (stressLevel d <= stressLevel d')%Z ->
  (Exact.percentage_tenths d <= Exact.percentage_tenths d')%Z.
Proof.
  intros (Ha & _ & Hq & Hp & Hdi & _ & Hs & Hdp & Hf & _ & Hh) Hle.
  unfold Exact.percentage_tenths, Exact.raw_tenths, Exact.dose_tenths,
    Exact.family_tenths, Exact.diabetes_tenths, Exact.blood_pressure_tenths,
    Exact.activity_tenths, Exact.stress_tenths, Exact.sleep_tenths, Exact.age_tenths.
  rewrite Ha, Hq, Hp, Hdi, Hs, Hdp, Hf, Hh. lia.
Qed.

(** In exact arithmetic worse sleep is never fewer points. *)
Lemma percentage_tenths_sleep (d d' : PatientData) :
  same_but_sleepQuality d d' -> (sleepQuality d' <= sleepQuality d)%Z ->
  (Exact.percentage_tenths d <= Exact.percentage_tenths d')%Z.
Proof.
  intros (Ha & _ & Ht & Hp & Hdi & _ & Hs & Hdp & Hf & _ & Hh) Hle.
  unfold Exact.percentage_tenths, Exact.raw_tenths, Exact.dose_tenths,
    Exact.family_tenths, Exact.diabetes_tenths, Exact.blood_pressure_tenths,
    Exact.activity_tenths, Exact.stress_tenths, Exact.sleep_tenths, Exact.age_tenths.
  rewrite Ha, Ht, Hp, Hdi, Hs, Hdp, Hf, Hh. lia.
Qed.

(** ** Large numbers: sign and exponent of a rounded result *)

Section Digits.
Local Open Scope Z_scope.

Lemma digits2_pos_size (p : positive) : digits2_pos p = Pos.size p.
Proof. induction p; cbn; congruence. Qed.

Lemma dig_bounds (p : positive) : 2 ^ (dig p - 1) <= Zpos p < 2 ^ dig p.
Proof.
  rewrite digits2_pos_size. split.
  - pose proof (Pos.size_le p) as H.
    apply Pos2Z.pos_le_pos in H. rewrite Pos2Z.inj_pow in H.
    assert (E : 2 ^ Zpos (Pos.size p) = 2 * 2 ^ (Zpos (Pos.size p) - 1)).
    { rewrite <- Z.pow_succ_r by lia. f_equal. lia. }
    rewrite E, (Pos2Z.inj_xO p) in H. lia.
  - pose proof (Pos.size_gt p) as H.
    apply Pos2Z.pos_lt_pos in H. now rewrite Pos2Z.inj_pow in H.
Qed.

Lemma dig_unique (p : positive) (d : Z) :
  2 ^ (d - 1) <= Zpos p < 2 ^ d -> dig p = d.
Proof.
  intros [Hlo Hhi]. pose proof (dig_bounds p) as [Hlo' Hhi'].
  assert (0 < d) by (destruct d; cbn in *; lia).
  assert (d - 1 < dig p) by (apply (Z.pow_lt_mono_r_iff 2); lia).
  assert (dig p - 1 < d) by (apply (Z.pow_lt_mono_r_iff 2); lia).
  lia.
Qed.

Lemma dig_ge (p : positive) (k : Z) : 0 <= k -> 2 ^ k <= Zpos p -> k + 1 <= dig p.
Proof.
  intros Hk H. pose proof (dig_bounds p) as [_ Hhi].
  assert (k < dig p) by (apply (Z.pow_lt_mono_r_iff 2); lia). lia.
Qed.

Lemma iter_xO (p : positive) (k : positive) :
  Zpos (Pos.iter xO p k) = Zpos p * 2 ^ Zpos k.
Proof.
  induction k using Pos.peano_ind.
  - cbn. lia.
  - rewrite Pos.iter_succ, (Pos2Z.inj_xO (Pos.iter xO p k)), IHk,
      Pos2Z.inj_succ, Z.pow_succ_r by lia.
    lia.
Qed.

Lemma dig_mul_pow2 (p q : positive) (k : Z) :
  0 <= k -> Zpos q = Zpos p * 2 ^ k -> dig q = dig p + k.
Proof.
  intros Hk E. apply dig_unique. rewrite E.
  pose proof (dig_bounds p) as [Hlo Hhi].
  replace (dig p + k - 1) with ((dig p - 1) + k) by lia.
  rewrite !Z.pow_add_r by lia.
  pose proof (Z.pow_pos_nonneg 2 k ltac:(lia) Hk).
  split; nia.
Qed.

Lemma shr_1_div2 (mrs : shr_record) :
  0 <= shr_m mrs -> shr_m (shr_1 mrs) = Z.div2 (shr_m mrs).
Proof.
  destruct mrs as [m r s]; cbn [shr_m]. intros H.
  destruct m as [| [p | p |] | p]; try reflexivity. lia.
Qed.

Lemma iter_pos_eq {A : Type} (f : A -> A) (n : positive) (x : A) :
  iter_pos f n x = Pos.iter f x n.
Proof.
  revert x. induction n as [n IH | n IH |]; intros x; cbn.
  - rewrite !IH. rewrite <- Pos.iter_swap. f_equal. now rewrite <- Pos.iter_swap.
  - now rewrite !IH.
  - reflexivity.
Qed.

(** [n] steps to the right divide the mantissa by [2 ^ n]. *)
Lemma shr_iter (n : positive) (mrs : shr_record) :
  0 <= shr_m mrs ->
  shr_m (iter_pos shr_1 n mrs) = shr_m mrs / 2 ^ Zpos n.
Proof.
  intros H. rewrite iter_pos_eq.
  rewrite <- Z.shiftr_div_pow2 by lia. cbn [Z.shiftr Z.shiftl Z.opp].
  induction n using Pos.peano_ind.
  - cbn. now apply shr_1_div2.
  - rewrite !Pos.iter_succ. rewrite shr_1_div2.
    + now rewrite IHn.
    + rewrite IHn. clear IHn.
      apply Pos.iter_invariant; [| exact H].
      intros x Hx. rewrite Z.div2_div. apply Z.div_pos; lia.
Qed.

Lemma shl_align_fst (m : positive) (e e' : Z) :
  e' <= e -> Zpos (fst (shl_align m e e')) = Zpos m * 2 ^ (e - e').
Proof.
  intros H. unfold shl_align.
  destruct (e' - e) as [| d | d] eqn:E; cbn [fst]; try lia.
  - replace (e - e') with 0 by lia. cbn. lia.
  - rewrite iter_xO. f_equal. f_equal. lia.
Qed.

Lemma fexp_normal (d : Z) : -1074 <= d - 53 -> fexp prec emax d = d - 53.
Proof. unfold fexp, emin, prec, emax. lia. Qed.

Lemma round_nearest_even_bounds (q : Z) (l : location) :
  q <= round_nearest_even q l <= q + 1.
Proof.
  unfold round_nearest_even.
  destruct l as [| []]; try lia. destruct (Z.even q); lia.
Qed.

End Digits.

Section Shapes.
Local Open Scope Z_scope.

Lemma shape_weaken sx E E' x : E' <= E -> shape sx E x -> shape sx E' x.
Proof. intros H [| m e D Hlo Hhi]; constructor; try assumption; lia. Qed.

Lemma shape_valid sx E x :
  -1074 <= E -> shape sx E x -> SpecFloat.valid_binary prec emax x = true.
Proof.
  intros HE [| m e D Hlo Hhi]; [reflexivity |].
  cbn [SpecFloat.valid_binary]. unfold bounded, canonical_mantissa.
  rewrite D, fexp_normal by lia.
  apply andb_true_iff. split; [apply Z.eqb_eq; lia | apply Z.leb_le].
  change (emax - prec) with 971. lia.
Qed.

(** The last step of [binary_round_aux], on a mantissa of 53 digits or on
    [2 ^ 53], which a rounding upwards can produce. *)
Lemma shape_of_53 sx (pm : positive) (e : Z) :
  2 ^ 52 <= Zpos pm <= 2 ^ 53 -> -1074 <= e ->
  shape sx e
    (let '(mrs, e') := shr_fexp prec emax (Zpos pm) e loc_Exact in
     match shr_m mrs with
     | Z0 => S754_zero sx
     | Zpos m => if e' <=? emax - prec then S754_finite sx m e' else S754_infinity sx
     | Zneg _ => S754_nan
     end).
Proof.
  intros Hm He. unfold shr_fexp. cbn [Zdigits2].
  destruct (Z.eq_dec (Zpos pm) (2 ^ 53)) as [E | E].
  - assert (D : dig pm = 54) by (apply dig_unique; rewrite E; cbn; lia).
    rewrite D, fexp_normal by lia.
    replace (54 + e - 53 - e) with 1 by lia.
    injection E as ->. cbn [shr shr_record_of_loc iter_pos shr_1 shr_m].
    change (emax - prec) with 971.
    destruct (e + 1 <=? 971) eqn:L; constructor; try reflexivity; lia.
  - assert (D : dig pm = 53) by (apply dig_unique; lia).
    rewrite D, fexp_normal by lia.
    replace (53 + e - 53 - e) with 0 by lia.
    cbn [shr shr_record_of_loc shr_m].
    change (emax - prec) with 971.
    destruct (e <=? 971) eqn:L; constructor; try assumption; lia.
Qed.

(** Rounding [M * 2 ^ e], a mantissa of 53 digits or more, gives a normal
    number with an exponent of [dig M + e - 53] or one more, or overflows. *)
Lemma binary_round_aux_shape sx (M : positive) (e : Z) :
  53 <= dig M -> -1074 <= dig M + e - 53 ->
  shape sx (dig M + e - 53) (binary_round_aux prec emax sx (Zpos M) e loc_Exact).
Proof.
  intros Hd He. unfold binary_round_aux.
  unfold shr_fexp at 1. cbn [Zdigits2].
  rewrite fexp_normal by lia.
  replace (dig M + e - 53 - e) with (dig M - 53) by lia.
  destruct (dig M - 53) as [| p | p] eqn:Hn; [| | lia].
  - cbn [shr shr_record_of_loc shr_m loc_of_shr_record round_nearest_even].
    replace (dig M + e - 53) with e by lia.
    apply shape_of_53; [| lia].
    pose proof (dig_bounds M). replace (dig M) with 53 in * by lia.
    change (53 - 1) with 52 in *. lia.
  - cbn [shr shr_record_of_loc].
    set (mrs := iter_pos shr_1 p {| shr_m := Zpos M; shr_r := false; shr_s := false |}).
    assert (Hq : shr_m mrs = Zpos M / 2 ^ Zpos p) by (apply shr_iter; cbn; lia).
    assert (Hb : 2 ^ 52 <= shr_m mrs < 2 ^ 53).
    { rewrite Hq. pose proof (dig_bounds M) as [Hlo Hhi].
      assert (0 < 2 ^ Zpos p) by (apply Z.pow_pos_nonneg; lia).
      replace (dig M) with (53 + Zpos p) in Hhi by lia.
      replace (dig M - 1) with (52 + Zpos p) in Hlo by lia.
      rewrite Z.pow_add_r in Hlo, Hhi by lia.
      split.
      - apply Z.div_le_lower_bound; lia.
      - apply Z.div_lt_upper_bound; lia. }
    pose proof (round_nearest_even_bounds (shr_m mrs) (loc_of_shr_record mrs)) as Hr.
    destruct (round_nearest_even (shr_m mrs) (loc_of_shr_record mrs)) as [| pm | pm] eqn:Hm;
      [lia | | lia].
    replace (dig M + e - 53) with (e + Zpos p) by lia.
    apply shape_of_53; lia.
Qed.

(** [binary_round] first brings a short mantissa to 53 digits. *)
Lemma binary_round_shape sx (M : positive) (e : Z) :
  -1074 <= dig M + e - 53 ->
  shape sx (dig M + e - 53) (binary_round prec emax sx M e).
Proof.
  intros He. unfold binary_round.
  rewrite fexp_normal by lia.
  unfold shl_align.
  destruct (dig M + e - 53 - e) as [| d | d] eqn:E.
  - apply binary_round_aux_shape; lia.
  - apply binary_round_aux_shape; lia.
  - assert (D : dig (Pos.iter xO M d) = dig M + Zpos d).
    { apply dig_mul_pow2; [lia | apply iter_xO]. }
    replace (dig M + e - 53) with (dig (Pos.iter xO M d) + (dig M + e - 53) - 53) at 1
      by (rewrite D; lia).
    apply binary_round_aux_shape; rewrite D; lia.
Qed.

(** An integer other than 0, read as a Number. *)
Lemma Prim2SF_of_Z (z : Z) :
  z <> 0 ->
  Prim2SF (JS.of_Z z) = binary_normalize prec emax z 0 false /\
  shape (z <? 0) (Z.log2 (Z.abs z) - 52) (binary_normalize prec emax z 0 false).
Proof.
  intros Hz. unfold JS.of_Z.
  assert (S : shape (z <? 0) (Z.log2 (Z.abs z) - 52) (binary_normalize prec emax z 0 false)).
  { destruct z as [| p | p]; [congruence | |]; cbn [binary_normalize Z.ltb Z.compare Z.abs].
    - eapply shape_weaken; [| apply binary_round_shape; lia].
      pose proof (dig_bounds p) as [_ H]. apply Z.log2_lt_pow2 in H; lia.
    - eapply shape_weaken; [| apply binary_round_shape; lia].
      pose proof (dig_bounds p) as [_ H]. apply Z.log2_lt_pow2 in H; lia. }
  split; [| exact S].
  apply Prim2SF_SF2Prim. eapply shape_valid; [| exact S].
  pose proof (Z.log2_nonneg (Z.abs z)). lia.
Qed.

Lemma of_Z_shape_pos (z k : Z) :
  0 <= k -> 2 ^ k <= z -> shape false (k - 52) (Prim2SF (JS.of_Z z)).
Proof.
  intros Hk Hz.
  assert (0 < z) by (pose proof (Z.pow_pos_nonneg 2 k); lia).
  destruct (Prim2SF_of_Z z) as [-> S]; [lia |].
  replace (z <? 0) with false in S by (symmetry; apply Z.ltb_ge; lia).
  eapply shape_weaken; [| exact S].
  rewrite Z.abs_eq by lia.
  assert (k <= Z.log2 z) by (apply Z.log2_le_pow2; lia). lia.
Qed.

Lemma of_Z_shape_neg (z : Z) : z < 0 -> shape true (-52) (Prim2SF (JS.of_Z z)).
Proof.
  intros Hz.
  destruct (Prim2SF_of_Z z) as [-> S]; [lia |].
  replace (z <? 0) with true in S by (symmetry; apply Z.ltb_lt; lia).
  eapply shape_weaken; [| exact S].
  pose proof (Z.log2_nonneg (Z.abs z)). lia.
Qed.

Lemma shape_not_nan (x : float) (E : Z) : shape false E (Prim2SF x) -> is_nan x = false.
Proof.
  intros S. unfold is_nan. rewrite FloatAxioms.eqb_spec.
  destruct S as [| m e D Hlo Hhi]; [reflexivity |].
  unfold SFeqb, SFcompare. now rewrite Z.compare_refl, Pos.compare_cont_refl.
Qed.

(** *** Operations with a positive normal constant [c = mc * 2 ^ ec] *)

Variables (c : float) (mc : positive) (ec : Z).
Hypothesis Hc : Prim2SF c = S754_finite false mc ec.
Hypothesis Dc : dig mc = 53.

Lemma ltb_shape_pos (x : float) (E : Z) :
  ec < E -> shape false E (Prim2SF x) -> (c <? x)%float = true.
Proof.
  intros HE S. rewrite FloatAxioms.ltb_spec, Hc.
  destruct S as [| m e D Hlo Hhi]; [reflexivity |].
  unfold SFltb, SFcompare.
  replace (ec ?= e) with Lt by (symmetry; apply Z.compare_lt_iff; lia).
  reflexivity.
Qed.

Lemma ltb_shape_neg (x : float) (E : Z) :
  shape true E (Prim2SF x) -> (c <? x)%float = false.
Proof.
  intros S. rewrite FloatAxioms.ltb_spec, Hc.
  destruct S as [| m e D Hlo Hhi]; reflexivity.
Qed.

(** [x - c] for [x] at least [4 c]: at most one exponent is lost. *)
Lemma sub_shape (x : float) (E : Z) :
  -1074 <= ec -> ec + 2 <= E -> shape false E (Prim2SF x) ->
  shape false (E - 1) (Prim2SF (x - c)).
Proof.
  intros Hec HE S. rewrite FloatAxioms.sub_spec, Hc.
  destruct S as [| m e D Hlo Hhi]; [constructor |].
  unfold SF64sub, SFsub.
  replace (Z.min e ec) with ec by lia.
  cbn [cond_Zopp].
  rewrite (shl_align_fst m e ec), (shl_align_fst mc ec ec) by lia.
  replace (ec - ec) with 0 by lia. rewrite Z.pow_0_r, Z.mul_1_r.
  pose proof (dig_bounds m) as [Hm _]. pose proof (dig_bounds mc) as [_ Hmc].
  rewrite D in Hm. rewrite Dc in Hmc. change (53 - 1) with 52 in Hm.
  assert (Hp : 2 ^ 2 <= 2 ^ (e - ec)) by (apply Z.pow_le_mono_r; lia).
  assert (Hs : 2 ^ (51 + (e - ec)) <= Zpos m * 2 ^ (e - ec) - Zpos mc).
  { rewrite Z.pow_add_r by lia.
    change (2 ^ 53) with (2 * 2 ^ 52) in Hmc. change (2 ^ 52) with (2 * 2 ^ 51) in *.
    change (2 ^ 2) with 4 in Hp. nia. }
  destruct (Zpos m * 2 ^ (e - ec) - Zpos mc) as [| M | M] eqn:EM;
    try (pose proof (Z.pow_pos_nonneg 2 (51 + (e - ec))); lia).
  cbn [binary_normalize].
  apply dig_ge in Hs; [| lia].
  eapply shape_weaken; [| apply binary_round_shape; lia]. lia.
Qed.

(** [x * c]: the exponents add up, with 52 or 53 for the mantissas. *)
Lemma mul_shape (x : float) (E : Z) :
  -1074 <= E + ec + 52 -> shape false E (Prim2SF x) ->
  shape false (E + ec + 52) (Prim2SF (x * c)).
Proof.
  intros HE S. rewrite FloatAxioms.mul_spec, Hc.
  destruct S as [| m e D Hlo Hhi]; [constructor |].
  unfold SF64mul, SFmul. cbn [xorb].
  pose proof (dig_bounds m) as [Hm _]. pose proof (dig_bounds mc) as [Hmc _].
  rewrite D in Hm. rewrite Dc in Hmc. change (53 - 1) with 52 in *.
  assert (Hs : 2 ^ 104 <= Zpos (m * mc)).
  { rewrite Pos2Z.inj_mul. change (2 ^ 104) with (2 ^ 52 * 2 ^ 52). nia. }
  apply dig_ge in Hs; [| lia].
  eapply shape_weaken; [| apply binary_round_aux_shape; lia]. lia.
Qed.

End Shapes.

Section Saturation.
Local Open Scope Z_scope.

(** Adding a positive finite number loses no exponent. *)
Lemma add_shape (s y : float) (ms : positive) (es E : Z) :
  Prim2SF s = S754_finite false ms es -> -1074 <= E ->
  shape false E (Prim2SF y) -> shape false E (Prim2SF (s + y)).
Proof.
  intros Hs HE S. rewrite FloatAxioms.add_spec, Hs.
  destruct S as [| m e D Hlo Hhi]; [constructor |].
  unfold SF64add, SFadd. cbn [cond_Zopp].
  rewrite (shl_align_fst ms es (Z.min es e)), (shl_align_fst m e (Z.min es e)) by lia.
  pose proof (dig_bounds m) as [Hm _]. rewrite D in Hm. change (53 - 1) with 52 in Hm.
  set (ez := Z.min es e).
  assert (0 < 2 ^ (es - ez)) by (apply Z.pow_pos_nonneg; lia).
  assert (0 < 2 ^ (e - ez)) by (apply Z.pow_pos_nonneg; lia).
  assert (Hsum : 2 ^ (52 + (e - ez)) <= Zpos ms * 2 ^ (es - ez) + Zpos m * 2 ^ (e - ez)).
  { rewrite Z.pow_add_r by lia. nia. }
  destruct (Zpos ms * 2 ^ (es - ez) + Zpos m * 2 ^ (e - ez)) as [| M | M] eqn:EM; try lia.
  cbn [binary_normalize].
  apply dig_ge in Hsum; [| lia].
  eapply shape_weaken; [| apply binary_round_shape; lia]. lia.
Qed.

(** A number of 128 or more is clamped to 100. *)
Lemma clamp_shape (v : float) (E : Z) :
  -45 <= E -> shape false E (Prim2SF v) ->
  JS.Math_min 100 (JS.Math_max 0 v) = 100%float.
Proof.
  intros HE S.
  assert (Hmax : JS.Math_max 0 v = v).
  { unfold JS.Math_max. rewrite (shape_not_nan v E S).
    change (is_nan 0) with false. cbn [orb].
    replace (0 <? v)%float with true; [reflexivity |].
    rewrite FloatAxioms.ltb_spec. change (Prim2SF 0) with (S754_zero false).
    destruct S; reflexivity. }
  rewrite Hmax. unfold JS.Math_min. rewrite (shape_not_nan v E S).
  change (is_nan 100) with false. cbn [orb].
  rewrite (ltb_shape_pos 100%float 7036874417766400 (-46) eq_refl v E);
    [reflexivity | lia | exact S].
Qed.

(** From 512 hours on the last branch is taken and the clamped sum is
    100, whatever positive sum [s] the other fields have produced. *)
Lemma saturated (s : float) (ms : positive) (es : Z) (h : Z) :
  Prim2SF s = S754_finite false ms es -> 512 <= h ->
  (24 <? JS.of_Z h)%float = true /\
  JS.Math_min 100 (JS.Math_max 0 (s + (JS.of_Z h - 24) * 0.8)) = 100%float.
Proof.
  intros Hs Hh.
  assert (S0 : shape false (-43) (Prim2SF (JS.of_Z h)))
    by (apply (of_Z_shape_pos h 9); [lia | exact Hh]).
  split.
  - apply (ltb_shape_pos 24%float 6755399441055744 (-48) eq_refl (JS.of_Z h) (-43));
      [lia | exact S0].
  - apply (clamp_shape _ (-45)); [lia |].
    apply (add_shape s _ ms es); [exact Hs | lia |].
    apply (mul_shape 0.8%float 7205759403792794 (-53) eq_refl eq_refl _ (-44)); [lia |].
    apply (sub_shape 24%float 6755399441055744 (-48) eq_refl eq_refl _ (-43));
      [lia | lia | exact S0].
Qed.

End Saturation.
(** ** Bounds on rounded results *)

Section Dyadic.
Local Open Scope Z_scope.

Lemma dle_scale (m e M E k : Z) :
  k <= e -> k <= E -> (dle m e M E <-> m * 2 ^ (e - k) <= M * 2 ^ (E - k)).
Proof.
  intros He HE. unfold dle.
  destruct (Z.le_ge_cases e E) as [H | H].
  - rewrite (Z.max_l 0 (e - E)), (Z.max_r 0 (E - e)) by lia.
    replace (E - k) with ((E - e) + (e - k)) by lia.
    rewrite Z.pow_add_r, Z.pow_0_r, Z.mul_1_r, Z.mul_assoc by lia.
    assert (0 < 2 ^ (e - k)) by (apply Z.pow_pos_nonneg; lia).
    split; intros L; nia.
  - rewrite (Z.max_r 0 (e - E)), (Z.max_l 0 (E - e)) by lia.
    replace (e - k) with ((e - E) + (E - k)) by lia.
    rewrite Z.pow_add_r, Z.pow_0_r, Z.mul_1_r, Z.mul_assoc by lia.
    assert (0 < 2 ^ (E - k)) by (apply Z.pow_pos_nonneg; lia).
    split; intros L; nia.
Qed.

Lemma dle_trans (a ea b eb c ec : Z) :
  dle a ea b eb -> dle b eb c ec -> dle a ea c ec.
Proof.
  intros H1 H2.
  set (k := Z.min ea (Z.min eb ec)).
  apply (dle_scale a ea b eb k) in H1; [| lia | lia].
  apply (dle_scale b eb c ec k) in H2; [| lia | lia].
  apply (dle_scale a ea c ec k); lia.
Qed.

(** The same number with another exponent. *)
Lemma dle_shift_l (m e j : Z) : 0 <= j -> dle (m * 2 ^ j) (e - j) m e.
Proof.
  intros Hj. apply (dle_scale _ _ _ _ (e - j)); [lia | lia |].
  replace (e - j - (e - j)) with 0 by lia. replace (e - (e - j)) with j by lia.
  rewrite Z.pow_0_r. lia.
Qed.

Lemma dle_shift_r (m e j : Z) : 0 <= j -> dle m e (m * 2 ^ j) (e - j).
Proof.
  intros Hj. apply (dle_scale _ _ _ _ (e - j)); [lia | lia |].
  replace (e - j - (e - j)) with 0 by lia. replace (e - (e - j)) with j by lia.
  rewrite Z.pow_0_r. lia.
Qed.

Lemma dle_same_exp (m M e : Z) : dle m e M e <-> m <= M.
Proof.
  rewrite (dle_scale m e M e e) by lia.
  replace (e - e) with 0 by lia. rewrite Z.pow_0_r. lia.
Qed.

(** A bound on the value bounds digits and exponent. *)
Lemma dle_dig (m : positive) (e M E : Z) :
  0 < M -> dle (Zpos m) e M E -> dig m + e <= Z.log2 M + 1 + E.
Proof.
  intros HM H.
  set (k := Z.min e E).
  apply (dle_scale _ _ _ _ k) in H; [| lia | lia].
  pose proof (dig_bounds m) as [Hlo _].
  pose proof (Z.log2_spec M HM) as [_ Hhi].
  assert (H1 : 2 ^ (dig m - 1 + (e - k)) <= Zpos m * 2 ^ (e - k)).
  { rewrite Z.pow_add_r by (pose proof (Pos2Z.is_pos (digits2_pos m)); lia).
    apply Z.mul_le_mono_nonneg_r; [apply Z.pow_nonneg; lia | exact Hlo]. }
  assert (H2 : M * 2 ^ (E - k) < 2 ^ (Z.log2 M + 1 + (E - k))).
  { pose proof (Z.log2_nonneg M).
    rewrite (Z.pow_add_r 2 (Z.log2 M + 1)) by lia.
    apply Z.mul_lt_mono_pos_r; [apply Z.pow_pos_nonneg; lia |].
    now rewrite <- Z.add_1_r in Hhi. }
  assert (H3 : dig m - 1 + (e - k) < Z.log2 M + 1 + (E - k)).
  { apply (Z.pow_lt_mono_r_iff 2); [lia | | lia].
    pose proof (Z.log2_nonneg M). lia. }
  lia.
Qed.

End Dyadic.

Section Shifts.
Local Open Scope Z_scope.

Lemma shr_1_flags (mrs : shr_record) :
  0 <= shr_m mrs ->
  shr_r (shr_1 mrs) = Z.odd (shr_m mrs) /\
  shr_s (shr_1 mrs) = shr_r mrs || shr_s mrs.
Proof.
  destruct mrs as [m r s]; cbn [shr_m shr_r shr_s]. intros H.
  destruct m as [| [p | p |] | p]; try (split; reflexivity). lia.
Qed.

(** Steps to the right that drop no digit leave the remainder empty. *)
Lemma shr_iter_exact (n : positive) (mrs : shr_record) :
  0 <= shr_m mrs -> shr_r mrs = false -> shr_s mrs = false ->
  shr_m mrs mod 2 ^ Zpos n = 0 ->
  shr_r (iter_pos shr_1 n mrs) = false /\ shr_s (iter_pos shr_1 n mrs) = false.
Proof.
  intros H Hr Hs. induction n as [| n IH] using Pos.peano_ind; intros Hm.
  - cbn [iter_pos]. destruct (shr_1_flags mrs H) as [-> ->].
    rewrite Hr, Hs. split; [| reflexivity].
    change (2 ^ 1) with 2 in Hm. rewrite <- Z.negb_even.
    apply negb_false_iff. rewrite Z.even_spec. exists (shr_m mrs / 2).
    pose proof (Z.div_mod (shr_m mrs) 2). lia.
  - assert (E : shr_m mrs = 2 ^ Zpos n * (2 * (shr_m mrs / 2 ^ Zpos (Pos.succ n)))).
    { rewrite Pos2Z.inj_succ, Z.pow_succ_r in * by lia.
      pose proof (Z.div_mod (shr_m mrs) (2 * 2 ^ Zpos n)).
      assert (0 < 2 ^ Zpos n) by (apply Z.pow_pos_nonneg; lia). lia. }
    assert (P : 0 < 2 ^ Zpos n) by (apply Z.pow_pos_nonneg; lia).
    destruct IH as [IHr IHs].
    { rewrite E, Z.mul_comm. apply Z.mod_mul. lia. }
    assert (Hk : shr_m (iter_pos shr_1 n mrs) = 2 * (shr_m mrs / 2 ^ Zpos (Pos.succ n))).
    { rewrite shr_iter by exact H. rewrite E at 1.
      rewrite Z.mul_comm, Z.div_mul by lia. reflexivity. }
    rewrite iter_pos_eq in *. rewrite Pos.iter_succ.
    destruct (shr_1_flags (Pos.iter shr_1 mrs n)) as [-> ->].
    + rewrite Hk. apply Z.mul_nonneg_nonneg; [lia |].
      apply Z.div_pos; [exact H | apply Z.pow_pos_nonneg; lia].
    + rewrite IHr, IHs, Hk. split; [| reflexivity].
      rewrite Z.odd_mul. reflexivity.
Qed.

(** [shr_fexp]: the mantissa is divided by [2 ^ n], for the [n] steps
    that bring the exponent to [fexp], and no step is made backwards. *)
Lemma shr_fexp_spec (m e : Z) (l : location) :
  0 <= m ->
  let n := Z.max 0 (fexp prec emax (Zdigits2 m + e) - e) in
  snd (shr_fexp prec emax m e l) = e + n /\
  shr_m (fst (shr_fexp prec emax m e l)) = m / 2 ^ n /\
  (n = 0 -> fst (shr_fexp prec emax m e l) = shr_record_of_loc m l) /\
  (l = loc_Exact -> m mod 2 ^ n = 0 ->
   loc_of_shr_record (fst (shr_fexp prec emax m e l)) = loc_Exact).
Proof.
  intros Hm n. unfold shr_fexp. subst n.
  assert (Hl : shr_m (shr_record_of_loc m l) = m) by (destruct l as [| []]; reflexivity).
  destruct (fexp prec emax (Zdigits2 m + e) - e) as [| p | p] eqn:E;
    cbn [shr fst snd Z.max Z.compare].
  - rewrite Hl, Z.pow_0_r, Z.div_1_r, Z.add_0_r.
    repeat split. intros -> _. reflexivity.
  - rewrite shr_iter by (rewrite Hl; exact Hm). rewrite Hl.
    repeat split; [lia |].
    intros -> H0.
    destruct (shr_iter_exact p {| shr_m := m; shr_r := false; shr_s := false |})
      as [Hr Hs]; try reflexivity; try assumption.
    cbn [shr_record_of_loc].
    destruct (iter_pos shr_1 p _) as [m' r s]; cbn [shr_r shr_s] in *.
    now rewrite Hr, Hs.
  - rewrite Hl, Z.pow_0_r, Z.div_1_r, Z.add_0_r.
    repeat split. intros -> _. reflexivity.
Qed.

Lemma round_nearest_even_exact (q : Z) : round_nearest_even q loc_Exact = q.
Proof. reflexivity. Qed.

Lemma fexp_mono (a b : Z) : a <= b -> fexp prec emax a <= fexp prec emax b.
Proof. unfold fexp. lia. Qed.

(** A bound on the value bounds the number of digits. *)
Lemma dle_Zdigits2 (m e : Z) (M : positive) (E : Z) :
  0 <= m -> dle m e (Zpos M) E -> e <= E \/ 0 < m -> Zdigits2 m + e <= dig M + E.
Proof.
  intros Hm H Hor. destruct m as [| p | p]; [| | lia].
  - cbn [Zdigits2]. destruct Hor as [Hor | Hor]; [| lia].
    pose proof (Pos2Z.is_pos (digits2_pos M)). lia.
  - cbn [Zdigits2]. apply dle_dig in H; [| lia].
    pose proof (dig_bounds M) as [Hlo Hhi].
    assert (Z.log2 (Zpos M) < dig M) by (apply Z.log2_lt_pow2; lia). lia.
Qed.

End Shifts.

Section RoundingDown.
Local Open Scope Z_scope.

Lemma bounded_canonical (M : positive) (E : Z) :
  bounded prec emax M E = true -> fexp prec emax (dig M + E) = E /\ E <= 971.
Proof.
  unfold bounded, canonical_mantissa. intros H.
  apply andb_true_iff in H as [H1 H2].
  apply Z.eqb_eq in H1. apply Z.leb_le in H2.
  change (emax - prec) with 971 in H2. split; assumption.
Qed.

Lemma dle_le_l (m m' e M E : Z) : 0 <= m' <= m -> dle m e M E -> dle m' e M E.
Proof.
  unfold dle. intros H L.
  assert (0 < 2 ^ Z.max 0 (e - E)) by (apply Z.pow_pos_nonneg; lia). nia.
Qed.

Lemma binary_round_aux_signed (sx : bool) (mx ex : Z) (lx : location) :
  0 <= mx -> signed sx (binary_round_aux prec emax sx mx ex lx).
Proof.
  intros Hm. unfold binary_round_aux.
  destruct (shr_fexp_spec mx ex lx Hm) as (_ & Hq & _).
  destruct (shr_fexp prec emax mx ex lx) as [mrs' e']. cbn [fst snd] in *.
  pose proof (round_nearest_even_bounds (shr_m mrs') (loc_of_shr_record mrs')) as Hr.
  set (m1 := round_nearest_even _ _) in *.
  assert (H1 : 0 <= m1).
  { rewrite Hq in Hr. assert (0 <= mx / 2 ^ Z.max 0 (fexp prec emax (Zdigits2 mx + ex) - ex)).
    { apply Z.div_pos; [exact Hm | apply Z.pow_pos_nonneg; lia]. }
    lia. }
  destruct (shr_fexp_spec m1 e' loc_Exact H1) as (_ & Hq2 & _).
  destruct (shr_fexp prec emax m1 e' loc_Exact) as [mrs2 e2]. cbn [fst snd] in *.
  assert (0 <= shr_m mrs2).
  { rewrite Hq2. apply Z.div_pos; [exact H1 | apply Z.pow_pos_nonneg; lia]. }
  destruct (shr_m mrs2) as [| p | p]; [reflexivity | | lia].
  destruct (e2 <=? emax - prec); reflexivity.
Qed.

(** Rounding does not cross a number that binary64 has: a result that is
    at most [MB * 2 ^ EB] before it is rounded is so afterwards.  An
    inexact [mx * 2 ^ ex] stands for a number below [(mx + 1) * 2 ^ ex]. *)
Lemma binary_round_aux_le (sx : bool) (mx ex : Z) (lx : location) (MB : positive) (EB : Z) :
  0 <= mx -> ex <= EB -> bounded prec emax MB EB = true ->
  (lx = loc_Exact /\ dle mx ex (Zpos MB) EB) \/ dle (mx + 1) ex (Zpos MB) EB ->
  at_most MB EB (binary_round_aux prec emax sx mx ex lx).
Proof.
  intros Hm He HB Hv.
  destruct (bounded_canonical MB EB HB) as [HcB HeB].
  assert (Hv0 : dle mx ex (Zpos MB) EB).
  { destruct Hv as [[_ Hv] | Hv]; [exact Hv |]. apply (dle_le_l (mx + 1)); [lia | exact Hv]. }
  unfold binary_round_aux.
  destruct (shr_fexp_spec mx ex lx Hm) as (He' & Hq & _ & Hx).
  destruct (shr_fexp prec emax mx ex lx) as [mrs' e']. cbn [fst snd] in *.
  set (n1 := Z.max 0 (fexp prec emax (Zdigits2 mx + ex) - ex)) in *.
  assert (Hn1 : 0 <= n1) by (subst n1; lia).
  assert (P1 : 0 < 2 ^ n1) by (apply Z.pow_pos_nonneg; lia).
  (* the exponent stays at or below that of the bound *)
  assert (HA : e' <= EB).
  { assert (Zdigits2 mx + ex <= dig MB + EB) by (apply dle_Zdigits2; auto).
    pose proof (fexp_mono _ _ H). subst n1. lia. }
  set (T := Zpos MB * 2 ^ (EB - e')).
  assert (HT : mx <= T * 2 ^ n1 /\ (lx <> loc_Exact -> mx + 1 <= T * 2 ^ n1)).
  { unfold T. rewrite <- Z.mul_assoc, <- Z.pow_add_r by lia.
    replace (EB - e' + n1) with (EB - ex) by lia.
    split.
    - apply (dle_scale _ _ _ _ ex) in Hv0; [| lia | lia].
      replace (ex - ex) with 0 in Hv0 by lia. rewrite Z.pow_0_r in Hv0. lia.
    - intros Hne. destruct Hv as [[Hl _] | Hv]; [contradiction |].
      apply (dle_scale _ _ _ _ ex) in Hv; [| lia | lia].
      replace (ex - ex) with 0 in Hv by lia. rewrite Z.pow_0_r in Hv. lia. }
  pose proof (round_nearest_even_bounds (shr_m mrs') (loc_of_shr_record mrs')) as Hr.
  assert (Hq0 : 0 <= shr_m mrs') by (rewrite Hq; apply Z.div_pos; lia).
  assert (HB1 : round_nearest_even (shr_m mrs') (loc_of_shr_record mrs') <= T).
  { destruct HT as [HT1 HT2].
    pose proof (Z.div_mod mx (2 ^ n1) ltac:(lia)) as Hdm.
    pose proof (Z.mod_pos_bound mx (2 ^ n1) P1) as Hmod.
    rewrite <- Hq in Hdm.
    destruct (Z.eq_dec (mx mod 2 ^ n1) 0) as [Hz | Hz].
    - destruct lx as [| c].
      + rewrite (Hx eq_refl Hz), round_nearest_even_exact. nia.
      + assert (mx + 1 <= T * 2 ^ n1) by (apply HT2; discriminate). nia.
    - assert (shr_m mrs' < T) by nia. lia. }
  set (m1 := round_nearest_even _ _) in *.
  assert (H1 : 0 <= m1) by lia.
  destruct (shr_fexp_spec m1 e' loc_Exact H1) as (He2 & Hq2 & _).
  destruct (shr_fexp prec emax m1 e' loc_Exact) as [mrs2 e2]. cbn [fst snd] in *.
  set (n2 := Z.max 0 (fexp prec emax (Zdigits2 m1 + e') - e')) in *.
  assert (Hn2 : 0 <= n2) by (subst n2; lia).
  assert (P2 : 0 < 2 ^ n2) by (apply Z.pow_pos_nonneg; lia).
  assert (Hd1 : dle m1 e' (Zpos MB) EB).
  { apply (dle_scale _ _ _ _ e'); [lia | lia |].
    replace (e' - e') with 0 by lia. rewrite Z.pow_0_r. fold T. lia. }
  assert (HC : e2 <= EB).
  { assert (Zdigits2 m1 + e' <= dig MB + EB) by (apply dle_Zdigits2; auto).
    pose proof (fexp_mono _ _ H). subst n2. lia. }
  assert (Hq2' : 0 <= shr_m mrs2 /\ shr_m mrs2 * 2 ^ n2 <= m1).
  { rewrite Hq2. split; [apply Z.div_pos; lia |].
    rewrite Z.mul_comm. apply Z.mul_div_le. exact P2. }
  destruct (shr_m mrs2) as [| p | p] eqn:Ep; [exact I | | lia].
  replace (e2 <=? emax - prec) with true
    by (symmetry; apply Z.leb_le; change (emax - prec) with 971; lia).
  cbn [at_most].
  apply (dle_scale _ _ _ _ e'); [lia | lia |].
  replace (e2 - e') with n2 by lia. fold T. lia.
Qed.

(** The same for [binary_round], which first lengthens a short mantissa. *)
Lemma binary_round_le (sx : bool) (mx : positive) (ex : Z) (MB : positive) (EB : Z) :
  bounded prec emax MB EB = true -> dle (Zpos mx) ex (Zpos MB) EB ->
  at_most MB EB (binary_round prec emax sx mx ex).
Proof.
  intros HB Hv. destruct (bounded_canonical MB EB HB) as [HcB HeB].
  unfold binary_round.
  assert (Hd : dig mx + ex <= dig MB + EB).
  { apply (dle_Zdigits2 (Zpos mx) ex MB EB); [lia | exact Hv | right; lia]. }
  pose proof (fexp_mono _ _ Hd) as Hf. rewrite HcB in Hf.
  set (f := fexp prec emax (dig mx + ex)) in *.
  assert (Hs : Zpos (fst (shl_align mx ex (Z.min ex f))) = Zpos mx * 2 ^ (ex - Z.min ex f))
    by (apply shl_align_fst; lia).
  assert (Hsnd : shl_align mx ex f = (fst (shl_align mx ex (Z.min ex f)), Z.min ex f)).
  { unfold shl_align. destruct (f - ex) as [| d | d] eqn:E.
    - replace (Z.min ex f) with ex by lia. now rewrite Z.sub_diag.
    - replace (Z.min ex f) with ex by lia. now rewrite Z.sub_diag.
    - replace (Z.min ex f) with f by lia. now rewrite E. }
  rewrite Hsnd.
  apply binary_round_aux_le; [lia | lia | exact HB |].
  left. split; [reflexivity |].
  rewrite Hs.
  eapply dle_trans; [| exact Hv].
  replace (Z.min ex f) with (ex - (ex - Z.min ex f)) at 2 by lia.
  apply dle_shift_l. lia.
Qed.

Lemma binary_round_signed (sx : bool) (mx : positive) (ex : Z) :
  signed sx (binary_round prec emax sx mx ex).
Proof.
  unfold binary_round.
  destruct (shl_align mx ex _) as [mz ez].
  apply binary_round_aux_signed. lia.
Qed.

End RoundingDown.

Section RoundingUp.
Local Open Scope Z_scope.

Lemma dle_le_r (m e M M' E : Z) : 0 <= M <= M' -> dle m e M E -> dle m e M' E.
Proof.
  unfold dle. intros H L.
  assert (0 < 2 ^ Z.max 0 (E - e)) by (apply Z.pow_pos_nonneg; lia). nia.
Qed.

(** The steps to the right that [shr_fexp] makes on [m * 2 ^ e] do not
    go below a normal number that [m * 2 ^ e] is not below. *)
Lemma shift_ge (m : positive) (e : Z) (MB : positive) (EB : Z) :
  bounded prec emax MB EB = true -> -1074 <= dig MB + EB - 53 ->
  dle (Zpos MB) EB (Zpos m) e ->
  let n := Z.max 0 (fexp prec emax (dig m + e) - e) in
  dle (Zpos MB) EB (Zpos m / 2 ^ n) (e + n).
Proof.
  intros HB HN Hv n.
  destruct (bounded_canonical MB EB HB) as [HcB HeB].
  destruct (Z.eq_dec n 0) as [Hn | Hn].
  { rewrite Hn, Z.pow_0_r, Z.div_1_r, Z.add_0_r. exact Hv. }
  assert (Hd : dig MB + EB <= dig m + e).
  { apply (dle_Zdigits2 (Zpos MB) EB m e); [lia | exact Hv | right; lia]. }
  rewrite fexp_normal in HcB by exact HN.
  assert (Hf : fexp prec emax (dig m + e) = dig m + e - 53) by (apply fexp_normal; lia).
  assert (En : n = dig m - 53) by (subst n; lia).
  assert (P : 0 < 2 ^ n) by (apply Z.pow_pos_nonneg; lia).
  pose proof (dig_bounds m) as [Hlo _].
  assert (Hq : 2 ^ 52 <= Zpos m / 2 ^ n).
  { apply Z.div_le_lower_bound; [exact P |].
    rewrite Z.mul_comm, <- Z.pow_add_r by lia.
    replace (52 + n) with (dig m - 1) by lia. exact Hlo. }
  destruct (Z.eq_dec (dig MB + EB) (dig m + e)) as [Heq | Hne].
  - replace (e + n) with EB by lia. apply dle_same_exp.
    apply Z.div_le_lower_bound; [exact P |].
    apply (dle_scale _ _ _ _ e) in Hv; [| lia | lia].
    replace (e - e) with 0 in Hv by lia. rewrite Z.pow_0_r in Hv.
    replace (EB - e) with n in Hv by lia. lia.
  - apply (dle_scale _ _ _ _ EB); [lia | lia |].
    replace (EB - EB) with 0 by lia. rewrite Z.pow_0_r, Z.mul_1_r.
    pose proof (dig_bounds MB) as [_ Hhi].
    assert (H1 : 2 ^ dig MB <= 2 ^ (52 + (e + n - EB))) by (apply Z.pow_le_mono_r; lia).
    rewrite Z.pow_add_r in H1 by lia.
    assert (0 < 2 ^ (e + n - EB)) by (apply Z.pow_pos_nonneg; lia).
    nia.
Qed.

(** Rounding does not cross a normal number from above either. *)
Lemma binary_round_aux_ge (sx : bool) (mx : positive) (ex : Z) (lx : location)
    (MB : positive) (EB : Z) :
  bounded prec emax MB EB = true -> -1074 <= dig MB + EB - 53 ->
  dle (Zpos MB) EB (Zpos mx) ex ->
  at_least MB EB (binary_round_aux prec emax sx (Zpos mx) ex lx).
Proof.
  intros HB HN Hv.
  pose proof (shift_ge mx ex MB EB HB HN Hv) as H1. cbv zeta in H1.
  unfold binary_round_aux.
  destruct (shr_fexp_spec (Zpos mx) ex lx ltac:(lia)) as (He' & Hq & _).
  destruct (shr_fexp prec emax (Zpos mx) ex lx) as [mrs' e']. cbn [fst snd] in *.
  cbn [Zdigits2] in He', Hq. rewrite <- He', <- Hq in H1.
  pose proof (round_nearest_even_bounds (shr_m mrs') (loc_of_shr_record mrs')) as Hr.
  set (m1 := round_nearest_even _ _) in *.
  assert (Hq0 : 0 < shr_m mrs').
  { destruct (Z.le_gt_cases (shr_m mrs') 0) as [Hle | Hgt]; [| exact Hgt].
    exfalso. unfold dle in H1.
    assert (0 < 2 ^ Z.max 0 (EB - e')) by (apply Z.pow_pos_nonneg; lia).
    assert (0 < 2 ^ Z.max 0 (e' - EB)) by (apply Z.pow_pos_nonneg; lia).
    nia. }
  assert (H2 : dle (Zpos MB) EB m1 e') by (apply (dle_le_r _ _ (shr_m mrs')); [lia | exact H1]).
  destruct m1 as [| p1 | p1] eqn:Em1; [lia | | lia].
  pose proof (shift_ge p1 e' MB EB HB HN H2) as H3. cbv zeta in H3.
  destruct (shr_fexp_spec (Zpos p1) e' loc_Exact ltac:(lia)) as (He2 & Hq2 & _).
  destruct (shr_fexp prec emax (Zpos p1) e' loc_Exact) as [mrs2 e2]. cbn [fst snd] in *.
  cbn [Zdigits2] in He2, Hq2. rewrite <- He2, <- Hq2 in H3.
  destruct (shr_m mrs2) as [| p2 | p2] eqn:Ep2.
  - exfalso. unfold dle in H3.
    assert (0 < 2 ^ Z.max 0 (EB - e2)) by (apply Z.pow_pos_nonneg; lia). nia.
  - destruct (e2 <=? emax - prec); [exact H3 | exact I].
  - exfalso. unfold dle in H3.
    assert (0 < 2 ^ Z.max 0 (EB - e2)) by (apply Z.pow_pos_nonneg; lia).
    assert (0 < 2 ^ Z.max 0 (e2 - EB)) by (apply Z.pow_pos_nonneg; lia).
    nia.
Qed.

Lemma shl_align_value (mx : positive) (ex f : Z) :
  let '(mz, ez) := shl_align mx ex f in
  ez = Z.min ex f /\ Zpos mz = Zpos mx * 2 ^ (ex - ez).
Proof.
  unfold shl_align. destruct (f - ex) as [| d | d] eqn:E.
  - split; [lia |]. rewrite Z.sub_diag. cbn. lia.
  - split; [lia |]. rewrite Z.sub_diag. cbn. lia.
  - split; [lia |]. rewrite iter_xO. f_equal. f_equal. lia.
Qed.

Lemma binary_round_ge (sx : bool) (mx : positive) (ex : Z) (MB : positive) (EB : Z) :
  bounded prec emax MB EB = true -> -1074 <= dig MB + EB - 53 ->
  dle (Zpos MB) EB (Zpos mx) ex ->
  at_least MB EB (binary_round prec emax sx mx ex).
Proof.
  intros HB HN Hv. unfold binary_round.
  pose proof (shl_align_value mx ex (fexp prec emax (dig mx + ex))) as Hs.
  destruct (shl_align mx ex _) as [mz ez]. destruct Hs as [Hez Hmz].
  apply binary_round_aux_ge; [exact HB | exact HN |].
  eapply dle_trans; [exact Hv |].
  rewrite Hmz. replace ez with (ex - (ex - ez)) at 2 by lia.
  apply dle_shift_r. lia.
Qed.

End RoundingUp.

Section Operations.
Local Open Scope Z_scope.

Lemma dle_mul (a ea b eb A EA B EB : Z) :
  0 <= a -> 0 <= b -> dle a ea A EA -> dle b eb B EB ->
  dle (a * b) (ea + eb) (A * B) (EA + EB).
Proof.
  intros Ha Hb H1 H2.
  set (k1 := Z.min ea EA). set (k2 := Z.min eb EB).
  apply (dle_scale _ _ _ _ k1) in H1; [| lia | lia].
  apply (dle_scale _ _ _ _ k2) in H2; [| lia | lia].
  apply (dle_scale _ _ _ _ (k1 + k2)); [lia | lia |].
  replace (ea + eb - (k1 + k2)) with ((ea - k1) + (eb - k2)) by lia.
  replace (EA + EB - (k1 + k2)) with ((EA - k1) + (EB - k2)) by lia.
  rewrite !Z.pow_add_r by lia.
  assert (0 <= 2 ^ (ea - k1)) by (apply Z.pow_nonneg; lia).
  assert (0 <= 2 ^ (eb - k2)) by (apply Z.pow_nonneg; lia).
  assert (0 <= a * 2 ^ (ea - k1)) by lia.
  assert (0 <= b * 2 ^ (eb - k2)) by lia.
  replace (a * b * (2 ^ (ea - k1) * 2 ^ (eb - k2)))
    with ((a * 2 ^ (ea - k1)) * (b * 2 ^ (eb - k2))) by ring.
  replace (A * B * (2 ^ (EA - k1) * 2 ^ (EB - k2)))
    with ((A * 2 ^ (EA - k1)) * (B * 2 ^ (EB - k2))) by ring.
  apply Z.mul_le_mono_nonneg; lia.
Qed.

(** The mantissa and exponent of a Number are canonical. *)
Lemma finite_bounded (x : float) (s : bool) (m : positive) (e : Z) :
  Prim2SF x = S754_finite s m e -> bounded prec emax m e = true.
Proof. intros H. pose proof (Prim2SF_valid x) as V. now rewrite H in V. Qed.

Lemma bounded_exponent_le (m : positive) (e : Z) (M : positive) (E : Z) :
  bounded prec emax m e = true -> bounded prec emax M E = true ->
  dle (Zpos m) e (Zpos M) E -> e <= E.
Proof.
  intros Hb HB Hv.
  destruct (bounded_canonical m e Hb) as [Hc _].
  destruct (bounded_canonical M E HB) as [HC _].
  assert (Hd : dig m + e <= dig M + E).
  { apply (dle_Zdigits2 (Zpos m) e M E); [lia | exact Hv | right; lia]. }
  apply fexp_mono in Hd. lia.
Qed.

(** *** Products *)

Lemma mul_at_most (x y : float) (MX MY MB : positive) (EX EY EB : Z) :
  bounded prec emax MX EX = true -> bounded prec emax MY EY = true ->
  bounded prec emax MB EB = true ->
  EX + EY <= EB -> dle (Zpos MX * Zpos MY) (EX + EY) (Zpos MB) EB ->
  at_most MX EX (Prim2SF x) -> at_most MY EY (Prim2SF y) ->
  at_most MB EB (Prim2SF (x * y)).
Proof.
  intros HX HY HB HE HP Hx Hy.
  rewrite FloatAxioms.mul_spec. unfold SF64mul.
  destruct (Prim2SF x) as [sx | sx | | sx mx ex] eqn:Ex; try contradiction;
    destruct (Prim2SF y) as [sy | sy | | sy my ey] eqn:Ey; try contradiction;
    cbn [SFmul at_most]; try exact I.
  cbn [at_most] in Hx, Hy.
  pose proof (bounded_exponent_le mx ex MX EX (finite_bounded x _ _ _ Ex) HX Hx).
  pose proof (bounded_exponent_le my ey MY EY (finite_bounded y _ _ _ Ey) HY Hy).
  apply binary_round_aux_le; [lia | lia | exact HB |].
  left. split; [reflexivity |].
  eapply dle_trans; [| exact HP].
  rewrite Pos2Z.inj_mul. apply dle_mul; try lia; assumption.
Qed.

Lemma mul_at_least (x y : float) (MX MY MB : positive) (EX EY EB : Z) :
  bounded prec emax MB EB = true -> -1074 <= dig MB + EB - 53 ->
  dle (Zpos MB) EB (Zpos MX * Zpos MY) (EX + EY) ->
  at_least MX EX (Prim2SF x) -> at_least MY EY (Prim2SF y) ->
  at_least MB EB (Prim2SF (x * y)).
Proof.
  intros HB HN HP Hx Hy.
  rewrite FloatAxioms.mul_spec. unfold SF64mul.
  destruct (Prim2SF x) as [sx | sx | | sx mx ex] eqn:Ex; try contradiction;
    destruct (Prim2SF y) as [sy | sy | | sy my ey] eqn:Ey; try contradiction;
    cbn [SFmul at_least]; try exact I.
  cbn [at_least] in Hx, Hy.
  apply binary_round_aux_ge; [exact HB | exact HN |].
  eapply dle_trans; [exact HP |].
  rewrite Pos2Z.inj_mul. apply dle_mul; try lia; assumption.
Qed.

Lemma mul_signed (x y : float) (MX MY : positive) (EX EY : Z) :
  at_most MX EX (Prim2SF x) -> at_most MY EY (Prim2SF y) ->
  signed false (Prim2SF x) -> signed false (Prim2SF y) ->
  signed false (Prim2SF (x * y)).
Proof.
  intros Hx Hy Sx Sy.
  rewrite FloatAxioms.mul_spec. unfold SF64mul.
  destruct (Prim2SF x) as [sx | sx | | sx mx ex]; try contradiction;
    destruct (Prim2SF y) as [sy | sy | | sy my ey]; try contradiction;
    cbn [signed] in Sx, Sy; subst sx sy; cbn [SFmul xorb signed]; try reflexivity.
  apply binary_round_aux_signed. lia.
Qed.

(** *** Sums and differences *)

Lemma dsum_le_scale (MX EX MY EY MB EB k : Z) :
  k <= EX -> k <= EY -> k <= EB -> dsum_le MX EX MY EY MB EB ->
  MX * 2 ^ (EX - k) + MY * 2 ^ (EY - k) <= MB * 2 ^ (EB - k).
Proof.
  intros H1 H2 H3. unfold dsum_le.
  set (k0 := Z.min EX (Z.min EY EB)). intros H.
  replace (EX - k) with ((EX - k0) + (k0 - k)) by lia.
  replace (EY - k) with ((EY - k0) + (k0 - k)) by lia.
  replace (EB - k) with ((EB - k0) + (k0 - k)) by lia.
  rewrite !Z.pow_add_r by lia.
  assert (0 < 2 ^ (k0 - k)) by (apply Z.pow_pos_nonneg; lia).
  nia.
Qed.

Lemma binary_normalize_at_most (S ez : Z) (szero : bool) (MB : positive) (EB : Z) :
  bounded prec emax MB EB = true -> dle (Z.abs S) ez (Zpos MB) EB ->
  at_most MB EB (binary_normalize prec emax S ez szero).
Proof.
  intros HB Hv. destruct S as [| p | p]; cbn [binary_normalize]; [exact I | |];
    apply binary_round_le; assumption.
Qed.

(** The magnitude of a sum or difference of aligned mantissas. *)
Lemma aligned_at_most (S : Z) (mx my : positive) (ex ey : Z)
    (MX MY MB : positive) (EX EY EB : Z) :
  dle (Zpos mx) ex (Zpos MX) EX -> dle (Zpos my) ey (Zpos MY) EY ->
  dsum_le (Zpos MX) EX (Zpos MY) EY (Zpos MB) EB ->
  Z.abs S <= Zpos (fst (shl_align mx ex (Z.min ex ey)))
             + Zpos (fst (shl_align my ey (Z.min ex ey))) ->
  dle (Z.abs S) (Z.min ex ey) (Zpos MB) EB.
Proof.
  intros Hx Hy Hs HS.
  rewrite (shl_align_fst mx ex), (shl_align_fst my ey) in HS by lia.
  set (ez := Z.min ex ey) in *.
  set (k := Z.min ez (Z.min EX (Z.min EY EB))).
  apply (dle_scale _ _ _ _ k) in Hx; [| lia | lia].
  apply (dle_scale _ _ _ _ k) in Hy; [| lia | lia].
  apply (dsum_le_scale _ _ _ _ _ _ k) in Hs; [| lia | lia | lia].
  apply (dle_scale _ _ _ _ k); [lia | lia |].
  replace (ex - k) with ((ex - ez) + (ez - k)) in Hx by lia.
  replace (ey - k) with ((ey - ez) + (ez - k)) in Hy by lia.
  rewrite Z.pow_add_r in Hx, Hy by lia.
  assert (0 < 2 ^ (ez - k)) by (apply Z.pow_pos_nonneg; lia).
  nia.
Qed.

Lemma cond_Zopp_add_abs (sx sy : bool) (a b : Z) :
  0 <= a -> 0 <= b -> Z.abs (cond_Zopp sx a + cond_Zopp sy b) <= a + b.
Proof. destruct sx, sy; cbn [cond_Zopp]; lia. Qed.

Lemma cond_Zopp_sub_abs (sx sy : bool) (a b : Z) :
  0 <= a -> 0 <= b -> Z.abs (cond_Zopp sx a - cond_Zopp sy b) <= a + b.
Proof. destruct sx, sy; cbn [cond_Zopp]; lia. Qed.

Lemma add_at_most (x y : float) (MX MY MB : positive) (EX EY EB : Z) :
  bounded prec emax MB EB = true ->
  dle (Zpos MX) EX (Zpos MB) EB -> dle (Zpos MY) EY (Zpos MB) EB ->
  dsum_le (Zpos MX) EX (Zpos MY) EY (Zpos MB) EB ->
  at_most MX EX (Prim2SF x) -> at_most MY EY (Prim2SF y) ->
  at_most MB EB (Prim2SF (x + y)).
Proof.
  intros HB HXB HYB Hs Hx Hy.
  rewrite FloatAxioms.add_spec. unfold SF64add.
  destruct (Prim2SF x) as [sx | sx | | sx mx ex] eqn:Ex; try contradiction;
    destruct (Prim2SF y) as [sy | sy | | sy my ey] eqn:Ey; try contradiction;
    cbn [at_most] in Hx, Hy; cbn [SFadd].
  - destruct sx, sy; exact I.
  - cbn [at_most]. eapply dle_trans; eassumption.
  - cbn [at_most]. eapply dle_trans; eassumption.
  - apply binary_normalize_at_most; [exact HB |].
    eapply aligned_at_most; try eassumption.
    apply cond_Zopp_add_abs; lia.
Qed.

Lemma sub_at_most (x y : float) (MX MY MB : positive) (EX EY EB : Z) :
  bounded prec emax MB EB = true ->
  dle (Zpos MX) EX (Zpos MB) EB -> dle (Zpos MY) EY (Zpos MB) EB ->
  dsum_le (Zpos MX) EX (Zpos MY) EY (Zpos MB) EB ->
  at_most MX EX (Prim2SF x) -> at_most MY EY (Prim2SF y) ->
  at_most MB EB (Prim2SF (x - y)).
Proof.
  intros HB HXB HYB Hs Hx Hy.
  rewrite FloatAxioms.sub_spec. unfold SF64sub.
  destruct (Prim2SF x) as [sx | sx | | sx mx ex] eqn:Ex; try contradiction;
    destruct (Prim2SF y) as [sy | sy | | sy my ey] eqn:Ey; try contradiction;
    cbn [at_most] in Hx, Hy; cbn [SFsub].
  - destruct sx, sy; exact I.
  - cbn [at_most]. eapply dle_trans; eassumption.
  - cbn [at_most]. eapply dle_trans; eassumption.
  - apply binary_normalize_at_most; [exact HB |].
    eapply aligned_at_most; try eassumption.
    apply cond_Zopp_sub_abs; lia.
Qed.

(** Adding a number that is not negative to a positive one. *)
Lemma add_at_least (a x : float) (MA : positive) (EA : Z) :
  bounded prec emax MA EA = true -> -1074 <= dig MA + EA - 53 ->
  at_least MA EA (Prim2SF a) -> signed false (Prim2SF a) ->
  signed false (Prim2SF x) ->
  at_least MA EA (Prim2SF (a + x)) /\ signed false (Prim2SF (a + x)).
Proof.
  intros HB HN Ha Sa Sx.
  rewrite FloatAxioms.add_spec. unfold SF64add.
  destruct (Prim2SF a) as [sa | sa | | sa ma ea] eqn:E1; try contradiction;
    destruct (Prim2SF x) as [sx | sx | | sx mx ex] eqn:E2; try contradiction;
    cbn [signed] in Sa, Sx; subst sa sx; cbn [SFadd at_least signed cond_Zopp];
    try (split; [exact I | reflexivity]). 
  - split; [exact Ha | reflexivity].
  - cbn [at_least] in Ha.
    rewrite (shl_align_fst ma ea), (shl_align_fst mx ex) by lia.
    set (ez := Z.min ea ex).
    assert (0 < 2 ^ (ea - ez)) by (apply Z.pow_pos_nonneg; lia).
    assert (0 < 2 ^ (ex - ez)) by (apply Z.pow_pos_nonneg; lia).
    destruct (Zpos ma * 2 ^ (ea - ez) + Zpos mx * 2 ^ (ex - ez)) as [| S | S] eqn:ES;
      [lia | | lia].
    cbn [binary_normalize]. split; [| apply binary_round_signed].
    apply binary_round_ge; [exact HB | exact HN |].
    eapply dle_trans; [exact Ha |].
    eapply dle_trans; [apply (dle_shift_r _ _ (ea - ez)); lia |].
    replace (ea - (ea - ez)) with ez by lia.
    apply dle_same_exp. lia.
Qed.

End Operations.

Section SmallNumbers.
Local Open Scope Z_scope.

Lemma bounded_pow2 (K : Z) :
  -1022 <= K <= 1023 -> bounded prec emax 4503599627370496 (K - 52) = true.
Proof.
  intros H. unfold bounded, canonical_mantissa.
  change (dig 4503599627370496) with 53.
  rewrite fexp_normal by lia.
  apply andb_true_iff. split; [apply Z.eqb_eq; lia | apply Z.leb_le].
  change (emax - prec) with 971. lia.
Qed.

Lemma dle_pow2 (K K' : Z) :
  K <= K' -> dle 4503599627370496 (K - 52) 4503599627370496 (K' - 52).
Proof.
  intros H. apply (dle_scale _ _ _ _ (K - 52)); [lia | lia |].
  replace (K - 52 - (K - 52)) with 0 by lia. rewrite Z.pow_0_r.
  assert (0 < 2 ^ (K' - 52 - (K - 52))) by (apply Z.pow_pos_nonneg; lia). lia.
Qed.

Lemma small_mono (K K' : Z) (x : float) : K <= K' -> small K x -> small K' x.
Proof.
  unfold small. intros H Hx.
  destruct (Prim2SF x); cbn [at_most] in *; try assumption.
  eapply dle_trans; [exact Hx | now apply dle_pow2].
Qed.

Lemma small_not_nan (K : Z) (x : float) : small K x -> is_nan x = false.
Proof.
  unfold small, is_nan. rewrite FloatAxioms.eqb_spec.
  destruct (Prim2SF x) as [s | s | | s m e]; cbn [at_most]; try contradiction;
    intros _; [reflexivity |].
  unfold SFeqb, SFcompare. destruct s; now rewrite Z.compare_refl, Pos.compare_cont_refl.
Qed.

Lemma add_small (K : Z) (x y : float) :
  -1022 <= K -> K + 1 <= 1023 -> small K x -> small K y -> small (K + 1) (x + y).
Proof.
  intros H1 H2 Hx Hy. unfold small in *.
  eapply add_at_most; try eassumption.
  - apply bounded_pow2. lia.
  - apply dle_pow2. lia.
  - apply dle_pow2. lia.
  - unfold dsum_le.
    replace (Z.min (K - 52) (Z.min (K - 52) (K + 1 - 52))) with (K - 52) by lia.
    replace (K - 52 - (K - 52)) with 0 by lia.
    replace (K + 1 - 52 - (K - 52)) with 1 by lia.
    cbn. lia.
Qed.

Lemma sub_small (K : Z) (x y : float) :
  -1022 <= K -> K + 1 <= 1023 -> small K x -> small K y -> small (K + 1) (x - y).
Proof.
  intros H1 H2 Hx Hy. unfold small in *.
  eapply sub_at_most; try eassumption.
  - apply bounded_pow2. lia.
  - apply dle_pow2. lia.
  - apply dle_pow2. lia.
  - unfold dsum_le.
    replace (Z.min (K - 52) (Z.min (K - 52) (K + 1 - 52))) with (K - 52) by lia.
    replace (K - 52 - (K - 52)) with 0 by lia.
    replace (K + 1 - 52 - (K - 52)) with 1 by lia.
    cbn. lia.
Qed.

Lemma mul_small (K K' : Z) (x y : float) :
  -1022 <= K <= 1023 -> -1022 <= K' <= 1023 -> -1022 <= K + K' <= 1023 ->
  small K x -> small K' y -> small (K + K') (x * y).
Proof.
  intros H1 H2 H3 Hx Hy. unfold small in *.
  eapply mul_at_most; try eassumption.
  - now apply bounded_pow2.
  - now apply bounded_pow2.
  - now apply bounded_pow2.
  - lia.
  - apply (dle_scale _ _ _ _ (K - 52 + (K' - 52))); [lia | lia |].
    replace (K - 52 + (K' - 52) - (K - 52 + (K' - 52))) with 0 by lia.
    replace (K + K' - 52 - (K - 52 + (K' - 52))) with 52 by lia.
    cbn. lia.
Qed.

(** An integer field far from the overflow is a finite Number. *)
Lemma of_Z_small (z : Z) : far_from_overflow z -> small 1000 (JS.of_Z z).
Proof.
  unfold far_from_overflow, small. intros H.
  destruct (Z.eq_dec z 0) as [-> | Hz]; [exact I |].
  destruct (Prim2SF_of_Z z Hz) as [-> _].
  apply binary_normalize_at_most; [now apply bounded_pow2 |].
  apply (dle_scale _ _ _ _ 0); [lia | lia |].
  change 4503599627370496 with (2 ^ 52). rewrite <- Z.pow_add_r by lia.
  replace (52 + (1000 - 52 - 0)) with 1000 by lia.
  rewrite Z.sub_0_r, Z.pow_0_r. lia.
Qed.

End SmallNumbers.

(** The constants of the scorer are below 64. *)
Ltac small_constant :=
  eapply (small_mono 6);
  [lia | unfold small; vm_compute; first [exact I | intros Hc; discriminate Hc]].

Section Score.
Import JS.
Local Open Scope float_scope.

(** A weighted field: [(a - b) * c] for the field and two constants. *)
Lemma weighted_small (a b c : float) :
  small 1000 a -> small 6 b -> small 6 c -> small 1007 ((a - b) * c).
Proof.
  intros Ha Hb Hc.
  apply (mul_small 1001 6); [lia | lia | lia | | exact Hc].
  apply (sub_small 1000); [lia | lia | exact Ha |].
  apply (small_mono 6); [lia | exact Hb].
Qed.

Lemma Math_max_0 (v : float) (K : Z) :
  small K v ->
  Math_max 0 v = 0 \/ (Math_max 0 v = v /\ signed false (Prim2SF v)).
Proof.
  intros Hv. unfold Math_max.
  rewrite (small_not_nan K v Hv). change (is_nan 0) with false. cbn [orb].
  destruct (0 <? v) eqn:L.
  - right. split; [reflexivity |].
    rewrite FloatAxioms.ltb_spec in L. change (Prim2SF 0) with (S754_zero false) in L.
    unfold small in Hv.
    destruct (Prim2SF v) as [s | s | | s m e]; cbn [at_most] in Hv; try contradiction.
    + discriminate L.
    + cbn [signed]. destruct s; [discriminate L | reflexivity].
  - left. destruct (v <? 0); reflexivity.
Qed.

Lemma skip_or_add_small (c : bool) (s t : float) (K : Z) :
  (-1022 <= K)%Z -> (K + 1 <= 1023)%Z -> small K s -> small K t ->
  small (K + 1) (if c then s + t else s).
Proof.
  intros H1 H2 Hs Ht. destruct c.
  - now apply add_small.
  - apply (small_mono K); [lia | exact Hs].
Qed.

Lemma skip_or_add_small2 (c1 c2 : bool) (s t1 t2 : float) (K : Z) :
  (-1022 <= K)%Z -> (K + 1 <= 1023)%Z -> small K s -> small K t1 -> small K t2 ->
  small (K + 1) (if c1 then s + t1 else if c2 then s + t2 else s).
Proof.
  intros H1 H2 Hs Ht1 Ht2. destruct c1.
  - now apply add_small.
  - now apply skip_or_add_small.
Qed.

(** On such a record the chain of [+=] stays finite. *)
Lemma riskScore_small (data : PatientData) :
  fields_far_from_overflow data -> small 1015 (riskScore data).
Proof.
  intros (Hage & Hsleep & Hstress & Hact & Hsys & Hdia & Hdrop).
  apply of_Z_small in Hage, Hsleep, Hstress, Hact, Hdrop.
  unfold riskScore. cbv zeta.
  apply (skip_or_add_small _ _ _ 1014); [lia | lia | |].
  2: { apply (small_mono 1007); [lia |]. apply weighted_small; [exact Hdrop | |]; small_constant. }
  apply (skip_or_add_small2 _ _ _ _ _ 1013); [lia | lia | | small_constant | small_constant].
  apply (skip_or_add_small2 _ _ _ _ _ 1012); [lia | lia | | small_constant | small_constant].
  apply (skip_or_add_small2 _ _ _ _ _ 1011); [lia | lia | | small_constant | small_constant].
  apply (add_small 1010); [lia | lia | |].
  2: { apply (small_mono 1007); [lia |].
       apply (mul_small 1001 6); [lia | lia | lia | | small_constant].
       apply (sub_small 1000); [lia | lia | small_constant | exact Hact]. }
  apply (add_small 1009); [lia | lia | |].
  2: { apply (small_mono 1006); [lia |].
       apply (mul_small 1000 6); [lia | lia | lia | exact Hstress | small_constant]. }
  apply (add_small 1008); [lia | lia | |].
  2: { apply (small_mono 1007); [lia |].
       apply (mul_small 1001 6); [lia | lia | lia | | small_constant].
       apply (sub_small 1000); [lia | lia | small_constant | exact Hsleep]. }
  apply (add_small 1007); [lia | lia | small_constant |].
  assert (Ht : small 1007 ((of_Z (age data) - 40) * 0.5))
    by (apply weighted_small; [exact Hage | |]; small_constant).
  destruct (Math_max_0 _ _ Ht) as [-> | [-> _]]; [small_constant | exact Ht].
Qed.

End Score.

Section Quotient.
Local Open Scope Z_scope.

Lemma new_location_exact (n : Z) : new_location n 0 = loc_Exact.
Proof. unfold new_location. destruct (Z.even n); reflexivity. Qed.

(** [x / c] for [0 <= x <= c]: at most 1. *)
Lemma div_at_most_one (x c : float) (mc : positive) (ec : Z) :
  Prim2SF c = S754_finite false mc ec ->
  at_most mc ec (Prim2SF x) -> signed false (Prim2SF x) ->
  at_most 4503599627370496 (-52) (Prim2SF (x / c)) /\ signed false (Prim2SF (x / c)).
Proof.
  intros Hc Hx Sx.
  rewrite FloatAxioms.div_spec, Hc. unfold SF64div.
  destruct (Prim2SF x) as [sx | sx | | sx mx ex] eqn:Ex; try contradiction;
    cbn [signed] in Sx; subst sx; cbn [SFdiv xorb at_most signed];
    [split; [exact I | reflexivity] |].
  cbn [at_most] in Hx.
  unfold SFdiv_core_binary. cbn [Zdigits2].
  set (e' := Z.min (fexp prec emax (dig mx + ex - (dig mc + ec))) (ex - ec)).
  assert (He' : e' <= -53).
  { assert (dig mx + ex <= dig mc + ec)
      by (apply (dle_Zdigits2 (Zpos mx) ex mc ec); [lia | exact Hx | right; lia]).
    assert (fexp prec emax (dig mx + ex - (dig mc + ec)) <= fexp prec emax 0)
      by (apply fexp_mono; lia).
    change (fexp prec emax 0) with (-53) in *. lia. }
  set (s := ex - ec - e').
  assert (Hs : 0 <= s) by (subst s e'; lia).
  set (m' := match s with Z0 => Zpos mx | Zpos _ => Z.shiftl (Zpos mx) s | Zneg _ => 0 end).
  assert (Hm' : m' = Zpos mx * 2 ^ s).
  { subst m'. destruct s as [| p | p] eqn:Es; [cbn; lia | | lia].
    apply Z.shiftl_mul_pow2. lia. }
  (* the numerator is at most [mc * 2 ^ (- e')] *)
  assert (Hle : m' <= Zpos mc * 2 ^ (- e')).
  { rewrite Hm'. set (k := Z.min ex ec).
    apply (dle_scale _ _ _ _ k) in Hx; [| lia | lia].
    replace s with ((ex - k) + (k - ec - e')) by (subst s; lia).
    replace (- e') with ((ec - k) + (k - ec - e')) by lia.
    rewrite !Z.pow_add_r by (subst k e'; lia).
    assert (0 < 2 ^ (k - ec - e')) by (apply Z.pow_pos_nonneg; subst k e'; lia).
    nia. }
  pose proof (Z_div_mod m' (Zpos mc) ltac:(lia)) as Hdiv.
  destruct (Z.div_eucl m' (Zpos mc)) as [q r]. destruct Hdiv as [Hq Hr].
  assert (P : 0 < 2 ^ (- e')) by (apply Z.pow_pos_nonneg; lia).
  assert (Hq0 : 0 <= q) by nia.
  assert (Hq1 : q <= 2 ^ (- e')) by nia.
  split; [| apply binary_round_aux_signed; exact Hq0].
  apply binary_round_aux_le; [exact Hq0 | lia | reflexivity |].
  destruct (Z.eq_dec q (2 ^ (- e'))) as [Heq | Hne].
  - left. assert (r = 0) by nia. subst r. split; [apply new_location_exact |].
    apply (dle_scale _ _ _ _ e'); [lia | lia |].
    replace (e' - e') with 0 by lia. rewrite Z.pow_0_r.
    change 4503599627370496 with (2 ^ 52). rewrite <- Z.pow_add_r by lia.
    replace (52 + (-52 - e')) with (- e') by lia. lia.
  - right.
    apply (dle_scale _ _ _ _ e'); [lia | lia |].
    replace (e' - e') with 0 by lia. rewrite Z.pow_0_r.
    change 4503599627370496 with (2 ^ 52). rewrite <- Z.pow_add_r by lia.
    replace (52 + (-52 - e')) with (- e') by lia. lia.
Qed.

(** A Number that a normal [c] is not below is at most [c]. *)
Lemma not_ltb_at_most (c x : float) (mc : positive) (ec : Z) :
  Prim2SF c = S754_finite false mc ec -> dig mc = 53 ->
  (c <? x)%float = false -> signed false (Prim2SF x) ->
  at_most mc ec (Prim2SF x).
Proof.
  intros Hc Dc L Sx.
  rewrite FloatAxioms.ltb_spec, Hc in L.
  destruct (Prim2SF x) as [sx | sx | | sx m e] eqn:Ex; try contradiction;
    cbn [signed] in Sx; subst sx; cbn [at_most]; [exact I | discriminate L |].
  unfold SFltb, SFcompare in L.
  destruct (bounded_canonical m e (finite_bounded x _ _ _ Ex)) as [Hcan _].
  unfold fexp, emin, prec, emax in Hcan.
  pose proof (dig_bounds m) as [_ Hm]. pose proof (dig_bounds mc) as [Hmc _].
  rewrite Dc in Hmc. change (53 - 1) with 52 in Hmc.
  destruct (ec ?= e) eqn:Ece.
  - apply Z.compare_eq in Ece. subst e. apply dle_same_exp.
    destruct (Pos.compare_cont Eq mc m) eqn:Em; try discriminate L.
    + apply Pos.compare_eq in Em. subst. lia.
    + change (Pos.compare_cont Eq mc m) with (mc ?= m)%positive in Em.
      apply Pos.compare_gt_iff in Em. lia.
  - discriminate L.
  - apply Z.compare_gt_iff in Ece.
    apply (dle_scale _ _ _ _ e); [lia | lia |].
    replace (e - e) with 0 by lia. rewrite Z.pow_0_r.
    assert (Hd : dig m <= 53) by lia.
    assert (Zpos m < 2 ^ 53).
    { eapply Z.lt_le_trans; [exact Hm |]. apply Z.pow_le_mono_r; lia. }
    assert (2 ^ 1 <= 2 ^ (ec - e)) by (apply Z.pow_le_mono_r; lia).
    change (2 ^ 53) with (2 ^ 52 * 2 ^ 1) in *. nia.
Qed.

End Quotient.

Section Clamp.
Import JS.
Local Open Scope float_scope.

(** The clamped sum is not negative and at most 100, unless the sum is
    NaN. *)
Lemma clamp_at_most (v : float) (K : Z) :
  small K v ->
  at_most 7036874417766400 (-46) (Prim2SF (Math_min 100 (Math_max 0 v))) /\
  signed false (Prim2SF (Math_min 100 (Math_max 0 v))).
Proof.
  intros Hv.
  assert (H0 : exists K', small K' (Math_max 0 v) /\ signed false (Prim2SF (Math_max 0 v))).
  { destruct (Math_max_0 v K Hv) as [-> | [-> S]].
    - exists 0%Z. split; [exact I | reflexivity].
    - exists K. split; assumption. }
  destruct H0 as (K' & Hs & Sg). set (w := Math_max 0 v) in *.
  unfold Math_min. rewrite (small_not_nan K' w Hs).
  change (is_nan 100) with false. cbn [orb].
  destruct (100 <? w) eqn:L; [split; [vm_compute; intros Hc; discriminate Hc | reflexivity] |].
  assert (at_most 7036874417766400 (-46) (Prim2SF w))
    by (apply (not_ltb_at_most 100 w); [reflexivity | reflexivity | exact L | exact Sg]).
  destruct (w <? 100); [split; assumption |].
  change (get_sign 100) with false. cbn iota. split; assumption.
Qed.

End Clamp.

(** Bounds between numbers that are written out. *)
Ltac closed_bound :=
  vm_compute; first [exact I | reflexivity | intros Hc; discriminate Hc].

Section Pressure.
Import JS.
Local Open Scope float_scope.

(** The product behind the average IOP, for a percentage [p] in
    [0, 100]: [p / 100 <= 1], times 0.6 is at most the Number 0.6, one more
    is between 1 and 205/128, and 14 times that between 14 and
    2870/128 = 22.421875. *)
Lemma pressure_product_bounds (p : float) :
  at_most 7036874417766400 (-46) (Prim2SF p) -> signed false (Prim2SF p) ->
  at_most 6311196743434240 (-48) (Prim2SF (14 * (1 + (p / 100) * 0.6))) /\
  at_least 7881299347898368 (-49) (Prim2SF (14 * (1 + (p / 100) * 0.6))) /\
  signed false (Prim2SF (14 * (1 + (p / 100) * 0.6))).
Proof.
  intros Hp Sp.
  destruct (div_at_most_one p 100 7036874417766400 (-46) eq_refl Hp Sp) as [Hr Sr].
  set (r := p / 100) in *.
  assert (Hm : at_most 5404319552844595 (-53) (Prim2SF (r * 0.6))).
  { apply (mul_at_most r 0.6 4503599627370496 5404319552844595 _ (-52) (-53));
      try exact Hr; closed_bound. }
  assert (Sm : signed false (Prim2SF (r * 0.6))).
  { apply (mul_signed r 0.6 4503599627370496 5404319552844595 (-52) (-53));
      try exact Hr; try exact Sr; closed_bound. }
  set (m := r * 0.6) in *.
  assert (Hs : at_most 7212796278210560 (-52) (Prim2SF (1 + m))).
  { apply (add_at_most 1 m 4503599627370496 5404319552844595 _ (-52) (-53));
      try exact Hm; closed_bound. }
  destruct (add_at_least 1 m 4503599627370496 (-52) eq_refl ltac:(closed_bound)
              ltac:(closed_bound) eq_refl Sm) as [Ls Ss].
  set (s := 1 + m) in *.
  split; [| split].
  - apply (mul_at_most 14 s 7881299347898368 7212796278210560 _ (-49) (-52));
      try exact Hs; closed_bound.
  - apply (mul_at_least 14 s 7881299347898368 4503599627370496 _ (-49) (-52));
      try exact Ls; closed_bound.
  - apply (mul_signed 14 s 7881299347898368 7212796278210560 (-49) (-52));
      try exact Hs; try exact Ss; closed_bound.
Qed.

End Pressure.

Section OneDecimal.
Import JS.
Local Open Scope Z_scope.

Lemma dle_scalar (c a ea b eb : Z) : 0 <= c -> dle a ea b eb -> dle (c * a) ea (c * b) eb.
Proof.
  unfold dle. intros Hc H.
  rewrite <- !Z.mul_assoc. apply Z.mul_le_mono_nonneg_l; assumption.
Qed.

Lemma nearest_scaled_nonneg (m : positive) (e : Z) : 0 <= nearest_scaled m e 1.
Proof.
  unfold nearest_scaled. destruct e as [| k | k].
  - cbn. lia.
  - assert (0 < 2 ^ Zpos k) by (apply Z.pow_pos_nonneg; lia). nia.
  - assert (0 < 2 ^ Zpos k) by (apply Z.pow_pos_nonneg; lia).
    apply Z.div_pos; [nia | apply Z.pow_pos_nonneg; lia].
Qed.

(** [10 x <= N + 1/4] is rounded to [N] at most. *)
Lemma nearest_scaled_le (m : positive) (e N : Z) :
  dle (40 * Zpos m) e (4 * N + 1) 0 -> nearest_scaled m e 1 <= N.
Proof.
  intros H. unfold nearest_scaled. change (10 ^ 1) with 10.
  destruct e as [| k | k].
  - apply (dle_scale _ _ _ _ 0) in H; [| lia | lia].
    rewrite Z.sub_diag, Z.pow_0_r in *. lia.
  - apply (dle_scale _ _ _ _ 0) in H; [| lia | lia].
    rewrite !Z.sub_0_r, Z.pow_0_r in H.
    assert (0 < 2 ^ Zpos k) by (apply Z.pow_pos_nonneg; lia). nia.
  - apply (dle_scale _ _ _ _ (Zneg k)) in H; [| lia | lia].
    replace (Zneg k - Zneg k) with 0 in H by lia. rewrite Z.pow_0_r in H.
    replace (0 - Zneg k) with (Zpos k) in H by lia.
    assert (P : 0 < 2 ^ Zpos k) by (apply Z.pow_pos_nonneg; lia).
    assert (Z.succ (N + 1 - 1) = N + 1) by lia.
    apply Z.lt_succ_r. apply Z.div_lt_upper_bound; [apply Z.pow_pos_nonneg; lia |].
    rewrite Z.pow_add_r by lia. change (2 ^ 1) with 2. nia.
Qed.

(** [10 x >= N - 1/2] is rounded to [N] at least. *)
Lemma nearest_scaled_ge (m : positive) (e N : Z) :
  dle (2 * N - 1) 0 (20 * Zpos m) e -> N <= nearest_scaled m e 1.
Proof.
  intros H. unfold nearest_scaled. change (10 ^ 1) with 10.
  destruct e as [| k | k].
  - apply (dle_scale _ _ _ _ 0) in H; [| lia | lia].
    rewrite Z.sub_diag, Z.pow_0_r in *. lia.
  - apply (dle_scale _ _ _ _ 0) in H; [| lia | lia].
    rewrite !Z.sub_0_r, Z.pow_0_r in H.
    assert (0 < 2 ^ Zpos k) by (apply Z.pow_pos_nonneg; lia). nia.
  - apply (dle_scale _ _ _ _ (Zneg k)) in H; [| lia | lia].
    replace (Zneg k - Zneg k) with 0 in H by lia. rewrite Z.pow_0_r in H.
    replace (0 - Zneg k) with (Zpos k) in H by lia.
    assert (P : 0 < 2 ^ Zpos k) by (apply Z.pow_pos_nonneg; lia).
    apply Z.div_le_lower_bound; [apply Z.pow_pos_nonneg; lia |].
    rewrite Z.pow_add_r by lia. change (2 ^ 1) with 2. nia.
Qed.

(** [toFixed(1)] of a Number in [0, B], [B] below 1e21: the decimal of
    some [n] tenths, [n] no more than [10 B] rounded. *)
Lemma fixed_point_at_most (y : float) (MB : positive) (EB N : Z) :
  bounded prec emax MB EB = true -> EB < 17 ->
  dle (40 * Zpos MB) EB (4 * N + 1) 0 ->
  at_most MB EB (Prim2SF y) -> signed false (Prim2SF y) ->
  exists n, fixed_point y 1 = Fixed false n 1 /\ 0 <= n <= N /\
    forall (ML : positive) (EL L : Z),
      at_least ML EL (Prim2SF y) -> dle (2 * L - 1) 0 (20 * Zpos ML) EL -> L <= n.
Proof.
  intros HB HE HN Hy Sy. unfold fixed_point.
  assert (L21 : match Prim2SF y with
                | S754_finite _ _ _ => (1e21 <=? abs y)%float = false
                | _ => True
                end).
  { destruct (Prim2SF y) as [s | s | | s m e] eqn:Ey; try exact I.
    rewrite FloatAxioms.leb_spec, FloatAxioms.abs_spec, Ey. cbn [SFabs].
    change (Prim2SF 1e21) with (S754_finite false 7629394531250000 17).
    cbn [at_most] in Hy.
    pose proof (bounded_exponent_le m e MB EB (finite_bounded y _ _ _ Ey) HB Hy).
    unfold SFleb, SFcompare.
    replace (17 ?= e) with Gt by (symmetry; apply Z.compare_gt_iff; lia).
    reflexivity. }
  destruct (Prim2SF y) as [s | s | | s m e] eqn:Ey; try contradiction;
    cbn [signed] in Sy; subst s.
  - exists 0. split; [reflexivity |]. split.
    + assert (0 <= 4 * N + 1); [| lia].
      unfold dle in HN. cbn [Z.max] in HN.
      assert (0 < 2 ^ Z.max 0 (EB - 0)) by (apply Z.pow_pos_nonneg; lia).
      assert (0 < 2 ^ Z.max 0 (0 - EB)) by (apply Z.pow_pos_nonneg; lia).
      nia.
    + intros ML EL L [].
  - rewrite L21. exists (nearest_scaled m e 1). split; [reflexivity |].
    cbn [at_most] in Hy. split; [split |].
    + apply nearest_scaled_nonneg.
    + apply nearest_scaled_le.
      eapply dle_trans; [| exact HN]. apply dle_scalar; [lia | exact Hy].
    + intros ML EL L Hl HL. cbn [at_least] in Hl.
      apply nearest_scaled_ge.
      eapply dle_trans; [exact HL |]. apply dle_scalar; [lia | exact Hl].
Qed.

End OneDecimal.

Section Numbers.
Import JS.
Local Open Scope Z_scope.

(** On a record whose integers are far from the overflow both numbers
    of the answer are decimals with one fractional digit: the percentage
    one of 0.0, 0.1, ..., 100.0 and the average IOP one of 14.0, 14.1,
    ..., 22.4. *)
Lemma returned_numbers (data : PatientData) :
  fields_far_from_overflow data ->
  exists n k,
    0 <= n <= 1000 /\ 140 <= k <= 224 /\
    Spec.round1 (riskPercentage data) = Exact.decimal1 n /\
    Spec.averagePredictedIop (riskPercentage data) = Exact.decimal1 k.
Proof.
  intros H.
  destruct (clamp_at_most (riskScore data) 1015 (riskScore_small data H)) as [Hp Sp].
  fold (riskPercentage data) in Hp, Sp. set (p := riskPercentage data) in *.
  destruct (fixed_point_at_most p 7036874417766400 (-46) 1000 eq_refl ltac:(lia)
              ltac:(closed_bound) Hp Sp) as (n & En & Hn & _).
  destruct (pressure_product_bounds p Hp Sp) as (Hy & Ly & Sy).
  destruct (fixed_point_at_most _ 6311196743434240 (-48) 224 eq_refl ltac:(lia)
              ltac:(closed_bound) Hy Sy) as (k & Ek & Hk & Lk).
  specialize (Lk _ _ 140 Ly ltac:(closed_bound)).
  exists n, k. split; [exact Hn |]. split; [lia |].
  unfold Spec.averagePredictedIop, Spec.round1, Exact.decimal1.
  now rewrite En, Ek.
Qed.

End Numbers.


(** ** Every valid record ends in the table *)

Section ReachProofs.
Import Reach JS.
Local Open Scope float_scope.

Lemma state_eqb_eq (s t : state) : state_eqb s t = true <-> s = t.
Proof.
  destruct s as [x a], t as [y b]. unfold state_eqb; cbn [fst snd].
  rewrite andb_true_iff, FloatAxioms.Leibniz.eqb_spec, Z.eqb_eq.
  split; [intros [-> ->]; reflexivity | intros [= -> ->]; now split].
Qed.

Lemma insert_mem_same (m : table) (s : state) : mem (insert m s) s.
Proof.
  unfold mem, insert.
  destruct (existsb (state_eqb s) (bucket m (key s))) eqn:E.
  - apply existsb_exists in E as (t & Ht & Heq).
    apply state_eqb_eq in Heq. now subst t.
  - unfold bucket at 1. rewrite PositiveMap.gss. now left.
Qed.

Lemma insert_mem_mono (m : table) (s t : state) :
  mem m t -> mem (insert m s) t.
Proof.
  unfold mem, insert. intros H.
  destruct (existsb (state_eqb s) (bucket m (key s))); [exact H |].
  destruct (Pos.eq_dec (key t) (key s)) as [E | E].
  - unfold bucket at 1. rewrite E, PositiveMap.gss.
    right. now rewrite <- E.
  - unfold bucket at 1. rewrite PositiveMap.gso by exact E. exact H.
Qed.

Lemma fold_insert_mem (l : list state) (m : table) (s : state) :
  mem m s \/ In s l -> mem (fold_left insert l m) s.
Proof.
  revert m. induction l as [| t l IH]; intros m [H | H]; cbn [fold_left].
  - exact H.
  - destruct H.
  - apply IH. left. now apply insert_mem_mono.
  - apply IH. destruct H as [-> | H]; [left; apply insert_mem_same | now right].
Qed.

Lemma mem_states (m : table) (s : state) : mem m s -> In s (states m).
Proof.
  unfold mem, bucket, states. intros H.
  destruct (PositiveMap.find (key s) m) as [l |] eqn:E; [| destruct H].
  apply in_flat_map. exists (key s, l). split; [| exact H].
  now apply PositiveMap.elements_correct.
Qed.

(** [dedup] loses no element. *)
Lemma dedup_In (l : list state) (s : state) : In s l -> In s (dedup l).
Proof.
  intros H. apply mem_states, fold_insert_mem. now right.
Qed.

Lemma stage_In (choices : list choice) (l : list state) (c : choice) (s : state) :
  In c choices -> In s l -> In (step c s) (stage choices l).
Proof.
  intros Hc Hs. apply dedup_In, in_flat_map.
  exists c. split; [exact Hc | now apply in_map].
Qed.

Lemma range_In (lo : Z) (n : nat) (z : Z) :
  (lo <= z < lo + Z.of_nat n)%Z -> In z (range lo n).
Proof.
  intros H. unfold range. apply in_map_iff.
  exists (Z.to_nat (z - lo)). split; [lia |].
  apply in_seq. lia.
Qed.

Lemma range_forallb (lo : Z) (n : nat) (f : Z -> bool) (z : Z) :
  forallb f (range lo n) = true -> (lo <= z < lo + Z.of_nat n)%Z -> f z = true.
Proof.
  intros H Hz. rewrite forallb_forall in H. now apply H, range_In.
Qed.

Lemma three_choices (b1 b2 : bool) (c1 c2 c3 : choice) :
  In (if b1 then c1 else if b2 then c2 else c3) [c1; c2; c3].
Proof. destruct b1, b2; cbn; tauto. Qed.

Lemma score_state_fst (d : PatientData) : fst (score_state d) = riskScore d.
Proof.
  unfold score_state, state_before_dose, riskScore, dose_choice, family_choice, diabetes_choice,
    blood_pressure_choice, activity_choice, stress_choice, sleep_choice, age_choice.
  cbv zeta.
  destruct (24 <? of_Z (lastDropHours d));
    destruct (familyHistory d =? "multiple")%string;
    destruct ((familyHistory d =? "parent")%string || (familyHistory d =? "sibling")%string);
    destruct ((diabetesStatus d =? "type1")%string || (diabetesStatus d =? "type2")%string);
    destruct (diabetesStatus d =? "prediabetes")%string;
    destruct ((140 <? of_Z (systolicBP d)) || (90 <? of_Z (diastolicBP d)));
    destruct ((130 <? of_Z (systolicBP d)) || (80 <? of_Z (diastolicBP d)));
    reflexivity.
Qed.

Lemma pressure_thresholds_small :
  forallb pressure_thresholds_agree (range 0 256) = true.
Proof. vm_compute. reflexivity. Qed.

(** Whatever the integer, the code compares it with 140, 130, 90 and 80 as
    the integer it is. *)
Lemma pressure_thresholds (z : Z) :
  (140 <? of_Z z) = (140 <? z)%Z /\ (130 <? of_Z z) = (130 <? z)%Z /\
  (90 <? of_Z z) = (90 <? z)%Z /\ (80 <? of_Z z) = (80 <? z)%Z.
Proof.
  destruct (Z_lt_le_dec z 0) as [Hneg | Hnonneg];
    [| destruct (Z_lt_le_dec z 256) as [Hsmall | Hlarge]].
  - pose proof (of_Z_shape_neg z Hneg) as S.
    rewrite (ltb_shape_neg 140 4925812092436480 (-45) eq_refl _ _ S),
      (ltb_shape_neg 130 4573968371548160 (-45) eq_refl _ _ S),
      (ltb_shape_neg 90 6333186975989760 (-46) eq_refl _ _ S),
      (ltb_shape_neg 80 5629499534213120 (-46) eq_refl _ _ S).
    repeat split; symmetry; apply Z.ltb_ge; lia.
  - assert (H : pressure_thresholds_agree z = true)
      by (apply (range_forallb 0 256); [exact pressure_thresholds_small | lia]).
    unfold pressure_thresholds_agree in H.
    rewrite !andb_true_iff in H. destruct H as [[[H1 H2] H3] H4].
    apply eqb_prop in H1, H2, H3, H4. tauto.
  - assert (S : shape false (-44) (Prim2SF (of_Z z)))
      by (apply (of_Z_shape_pos z 8); [lia | exact Hlarge]).
    rewrite (ltb_shape_pos 140 4925812092436480 (-45) eq_refl _ (-44)),
      (ltb_shape_pos 130 4573968371548160 (-45) eq_refl _ (-44)),
      (ltb_shape_pos 90 6333186975989760 (-46) eq_refl _ (-44)),
      (ltb_shape_pos 80 5629499534213120 (-46) eq_refl _ (-44)) by (lia || exact S).
    repeat split; symmetry; apply Z.ltb_lt; lia.
Qed.

Lemma score_state_snd (d : PatientData) :
  snd (score_state d) = Exact.raw_tenths d.
Proof.
  unfold score_state, state_before_dose, Exact.raw_tenths, Exact.dose_tenths, Exact.family_tenths,
    Exact.diabetes_tenths, Exact.blood_pressure_tenths, Exact.activity_tenths,
    Exact.stress_tenths, Exact.sleep_tenths, Exact.age_tenths.
  unfold blood_pressure_choice.
  destruct (pressure_thresholds (systolicBP d)) as (-> & -> & _).
  destruct (pressure_thresholds (diastolicBP d)) as (_ & _ & -> & ->).
  unfold dose_choice, family_choice, diabetes_choice, activity_choice,
    stress_choice, sleep_choice, age_choice.
  destruct (24 <? lastDropHours d)%Z;
    destruct (familyHistory d =? "multiple")%string;
    destruct ((familyHistory d =? "parent")%string || (familyHistory d =? "sibling")%string);
    destruct ((diabetesStatus d =? "type1")%string || (diabetesStatus d =? "type2")%string);
    destruct (diabetesStatus d =? "prediabetes")%string;
    destruct ((140 <? systolicBP d)%Z || (90 <? diastolicBP d)%Z);
    destruct ((130 <? systolicBP d)%Z || (80 <? diastolicBP d)%Z);
    cbn [step fst snd]; lia.
Qed.

Lemma state_before_dose_In (d : PatientData) :
  valid_attributes d -> In (state_before_dose d) scores_before_dose.
Proof.
  intros (Ha & Hq & Ht & Hp & _).
  unfold state_before_dose, scores_before_dose.
  apply stage_In; [apply three_choices |].
  apply stage_In; [apply three_choices |].
  apply stage_In; [apply three_choices |].
  apply stage_In; [apply in_map, range_In; lia |].
  apply stage_In; [apply in_map, range_In; lia |].
  apply stage_In; [apply in_map, range_In; lia |].
  apply stage_In; [apply in_map, range_In; lia |].
  now left.
Qed.

Lemma score_state_In (d : PatientData) :
  valid_attributes d -> (lastDropHours d < 512)%Z -> In (score_state d) scores.
Proof.
  intros H Hh. pose proof H as (_ & _ & _ & _ & Hh0).
  unfold score_state, scores. fold (state_before_dose d).
  apply stage_In; [apply in_map, range_In; lia |].
  now apply state_before_dose_In.
Qed.

Lemma percentages_eq : percentages = dedup (map clamp_state scores).
Proof. vm_compute. reflexivity. Qed.

Lemma positive_finite_before_dose :
  forallb positive_finite scores_before_dose = true.
Proof. vm_compute. reflexivity. Qed.

Lemma saturated_In : In (100%float, 1000%Z) percentages.
Proof.
  assert (H : existsb (state_eqb (100%float, 1000%Z)) percentages = true)
    by (vm_compute; reflexivity).
  apply existsb_exists in H as (s & Hs & E).
  apply state_eqb_eq in E. now rewrite E.
Qed.

(** From 512 hours on the clamped score is 100, in the code and on paper. *)
Lemma riskPercentage_saturated (d : PatientData) :
  valid_attributes d -> (512 <= lastDropHours d)%Z ->
  riskPercentage d = 100 /\ Exact.percentage_tenths d = 1000%Z.
Proof.
  intros H Hh. split.
  - pose proof (state_before_dose_In d H) as Hin.
    pose proof positive_finite_before_dose as Hpos.
    rewrite forallb_forall in Hpos. specialize (Hpos _ Hin).
    unfold positive_finite in Hpos.
    destruct (Prim2SF (fst (state_before_dose d))) as [| | | [|] ms es] eqn:E;
      try discriminate Hpos.
    destruct (saturated _ ms es (lastDropHours d) E Hh) as [Hb Hs].
    unfold riskPercentage. rewrite <- score_state_fst.
    unfold score_state. fold (state_before_dose d).
    unfold step, dose_choice; cbn [fst snd]. rewrite Hb. exact Hs.
  - destruct H as (Ha & Hq & Ht & Hp & _).
    unfold Exact.percentage_tenths, Exact.raw_tenths, Exact.dose_tenths,
      Exact.family_tenths, Exact.diabetes_tenths, Exact.blood_pressure_tenths,
      Exact.activity_tenths, Exact.stress_tenths, Exact.sleep_tenths, Exact.age_tenths.
    replace (24 <? lastDropHours d)%Z with true by (symmetry; apply Z.ltb_lt; lia).
    destruct (familyHistory d =? "multiple")%string;
      destruct ((familyHistory d =? "parent")%string || (familyHistory d =? "sibling")%string);
      destruct ((diabetesStatus d =? "type1")%string || (diabetesStatus d =? "type2")%string);
      destruct (diabetesStatus d =? "prediabetes")%string;
      destruct ((140 <? systolicBP d)%Z || (90 <? diastolicBP d)%Z);
      destruct ((130 <? systolicBP d)%Z || (80 <? diastolicBP d)%Z);
      lia.
Qed.

(** The clamped score of a valid record, paired with its exact value, is
    in the table. *)
Lemma percentage_In (d : PatientData) :
  valid_attributes d ->
  In (riskPercentage d, Exact.percentage_tenths d) percentages.
Proof.
  intros H. destruct (Z_lt_le_dec (lastDropHours d) 512) as [Hh | Hh].
  - rewrite percentages_eq. apply dedup_In.
    replace (riskPercentage d, Exact.percentage_tenths d)
      with (clamp_state (score_state d)).
    + apply in_map, score_state_In; assumption.
    + unfold clamp_state. rewrite score_state_fst, score_state_snd. reflexivity.
  - destruct (riskPercentage_saturated d H Hh) as [-> ->]. exact saturated_In.
Qed.

(** What a check finds on every entry of the table holds of every valid
    record. *)
Lemma percentages_forallb (f : state -> bool) (d : PatientData) :
  forallb f percentages = true ->
  valid_attributes d ->
  f (riskPercentage d, Exact.percentage_tenths d) = true.
Proof.
  intros Hf H. rewrite forallb_forall in Hf. now apply Hf, percentage_In.
Qed.

(** *** The checks *)

Lemma percentage_exact_all : forallb percentage_exact percentages = true.
Proof. vm_compute. reflexivity. Qed.

Lemma pressure_of_rounded_all : forallb pressure_of_rounded percentages = true.
Proof. vm_compute. reflexivity. Qed.

Lemma pressure_bounded_all : forallb pressure_bounded percentages = true.
Proof. vm_compute. reflexivity. Qed.

Lemma level_of_rounded_all : forallb level_of_rounded percentages = true.
Proof. vm_compute. reflexivity. Qed.

Lemma decimals_ascending : ascending decimals = true.
Proof. vm_compute. reflexivity. Qed.

Lemma decimal1_is_quotient_all :
  forallb decimal1_is_quotient (range 0 1001) = true.
Proof. vm_compute. reflexivity. Qed.

Lemma rounded_percentage_exact (d : PatientData) :
  valid_attributes d ->
  Spec.round1 (riskPercentage d) = Exact.decimal1 (Exact.percentage_tenths d).
Proof.
  intros H.
  apply FloatAxioms.Leibniz.eqb_spec.
  exact (percentages_forallb percentage_exact d percentage_exact_all H).
Qed.

(** On 0.0, 0.1, ..., 100.0 the decimal read by [parseFloat] is the
    quotient by 10 in binary64. *)
Lemma decimal1_quotient (n : Z) :
  (0 <= n <= 1000)%Z -> Exact.decimal1 n = of_Z n / 10.
Proof.
  intros H. apply FloatAxioms.Leibniz.eqb_spec.
  apply (range_forallb 0 1001 decimal1_is_quotient);
    [exact decimal1_is_quotient_all | lia].
Qed.

Lemma ascending_nth (l : list float) (d : float) :
  ascending l = true ->
  forall i j, (i <= j)%nat -> (j < length l)%nat ->
  (nth i l d <=? nth j l d) = true /\ (nth j l d <? nth i l d) = false.
Proof.
  induction l as [| x r IH]; intros Hl i j Hij Hj; cbn [length] in Hj; [lia |].
  cbn [ascending] in Hl. rewrite !andb_true_iff in Hl.
  destruct Hl as [[[Hx Hx'] Hr] Hrest].
  destruct i as [| i], j as [| j]; cbn [nth]; try lia.
  - split; [exact Hx | now apply negb_true_iff].
  - rewrite forallb_forall in Hr.
    specialize (Hr (nth j r d)). rewrite andb_true_iff, negb_true_iff in Hr.
    apply Hr, nth_In. lia.
  - apply IH; [exact Hrest | lia | lia].
Qed.

Lemma nth_decimals (n : Z) :
  (0 <= n <= 1000)%Z -> nth (Z.to_nat n) decimals 0 = Exact.decimal1 n.
Proof.
  intros H. unfold decimals, range.
  rewrite (nth_indep _ 0 (Exact.decimal1 0)) by (rewrite !length_map, length_seq; lia).
  rewrite map_nth.
  rewrite (nth_indep _ 0%Z (0 + Z.of_nat 0)%Z) by (rewrite length_map, length_seq; lia).
  rewrite (map_nth (fun i => (0 + Z.of_nat i)%Z)).
  rewrite seq_nth by lia. f_equal. lia.
Qed.

(** Between 0.0 and 100.0 a larger decimal is a larger Number. *)
Lemma decimal1_monotone (n m : Z) :
  (0 <= n <= m)%Z -> (m <= 1000)%Z ->
  (Exact.decimal1 n <=? Exact.decimal1 m) = true /\
  (Exact.decimal1 m <? Exact.decimal1 n) = false.
Proof.
  intros Hn Hm.
  rewrite <- (nth_decimals n), <- (nth_decimals m) by lia.
  apply ascending_nth; [exact decimals_ascending | lia |].
  unfold decimals, range. rewrite !length_map, length_seq. lia.
Qed.

Lemma in_form_range_valid (d : PatientData) :
  in_form_range d -> valid_attributes d.
Proof. unfold in_form_range, valid_attributes. tauto. Qed.

End ReachProofs.

(** ** The forecast: entries, statistics and the optimal time *)

Section ForecastProofs.
Import Forecast.
Local Open Scope Q_scope.

Variable hourly_curve : PatientData -> nat -> Q.












Lemma hours_of_predictions (attrs : PatientData) :
  map hour (hourly_predictions hourly_curve attrs) = seq 0 24.
Proof.
  unfold hourly_predictions. rewrite map_map. cbn [predict hour]. apply map_id.
Qed.



Lemma computeForecast_returns (attrs : PatientData) :
  exists a, calculateRealTimeRisk attrs = Ok a /\
    computeForecast hourly_curve attrs
    = Ok (assemble a (hourly_predictions hourly_curve attrs)
            (analyse (hourly_predictions hourly_curve attrs))
            (optimalDropTime (hourly_predictions hourly_curve attrs))).
Proof.
  unfold computeForecast.
  rewrite calculateRealTimeRisk_returns. eexists; split; reflexivity.
Qed.

End ForecastProofs.

(* ================================================================== *)
(** ** The statements *)

(** C1.  For every record the returned risk percentage is the sum of the
    eight contributions of the table (age, sleep, stress, activity, blood
    pressure, diabetes, family history, dose timing), clamped to [0,100]
    and rounded to one decimal. *)
Theorem C1_risk_percentage_is_clamped_sum (data : PatientData) :
  exists r, calculateRealTimeRisk data = Ok r /\
            risk_percentage r = Spec.riskPercentage data.
Proof.
  eexists; split; [apply calculateRealTimeRisk_returns |].
  cbn [risk_percentage response_of]. unfold Spec.riskPercentage.
  now rewrite riskPercentage_clampedScore.
Qed.

(** On a valid record the percentage returned is also what the table
    gives in exact arithmetic: the rounding errors of the sum never reach
    the decimal that is returned. *)
Lemma risk_percentage_exact (d : PatientData) :
  valid_attributes d ->
  exists r, calculateRealTimeRisk d = Ok r /\
            risk_percentage r = Exact.decimal1 (Exact.percentage_tenths d).
Proof.
  intros H. eexists; split; [apply calculateRealTimeRisk_returns |].
  cbn [risk_percentage response_of]. now apply rounded_percentage_exact.
Qed.

(** C2, at the boundary.  Two records of the form are both answered with
    a risk percentage of 20.0; the first is called low, the second
    moderate.  In the first the sum is 19.999999999999996: it is compared
    with 20 before it is rounded, and returned after. *)
Theorem C2_twenty_percent_low_and_moderate :
  in_form_range twenty_by_rounding /\ in_form_range twenty_exactly /\
  riskPercentage twenty_by_rounding = 19.999999999999996%float /\
  calculateRealTimeRisk twenty_by_rounding
  = Ok {| risk_percentage := 20.0; risk_level := "low";
          average_predicted_iop := 15.7; message := msg_low |} /\
  calculateRealTimeRisk twenty_exactly
  = Ok {| risk_percentage := 20.0; risk_level := "moderate";
          average_predicted_iop := 15.7; message := msg_moderate |}.
Proof.
  split; [unfold in_form_range, twenty_by_rounding; cbn; lia |].
  split; [unfold in_form_range, twenty_exactly; cbn; lia |].
  repeat split; vm_compute; reflexivity.
Qed.

(** On valid records this sum is the only one whose level is not the level
    of the percentage returned. *)
Lemma level_of_returned_percentage (d : PatientData) :
  valid_attributes d ->
  riskPercentage d <> 19.999999999999996%float ->
  exists r, calculateRealTimeRisk d = Ok r /\
            risk_level r = Spec.riskLevel (risk_percentage r).
Proof.
  intros H Hne. eexists; split; [apply calculateRealTimeRisk_returns |].
  cbn [risk_level risk_percentage response_of].
  pose proof (percentages_forallb Reach.level_of_rounded d level_of_rounded_all H) as Hl.
  unfold Reach.level_of_rounded in Hl; cbn [fst] in Hl.
  apply orb_true_iff in Hl as [Hl | Hl].
  - now apply String.eqb_eq.
  - apply FloatAxioms.Leibniz.eqb_spec in Hl. contradiction.
Qed.

(** For every record the returned average IOP is the binary64 value of
    14.0 * (1 + (p / 100) * 0.6), put through [toFixed(1)] and read back,
    where [p] is the clamped sum as it is before it is rounded. *)
Lemma average_iop_of_clamped_score (data : PatientData) :
  exists r, calculateRealTimeRisk data = Ok r /\
            average_predicted_iop r
            = Spec.round1 (14.0 * (1 + (Spec.clampedScore data / 100) * 0.6))%float.
Proof.
  eexists; split; [apply calculateRealTimeRisk_returns |].
  cbn [average_predicted_iop response_of].
  now rewrite riskPercentage_clampedScore.
Qed.

(** C3.  The code misses the formula on two records that it can be
    sent.

    [eighty_seven_and_a_half] is within the ranges of the patient form.
    Every term of its sum is exact and 87.5 percent is returned.  The
    formula gives 14 * (1 + 0.875 * 0.6) = 21.35, which rounded to one
    decimal is 21.4, by [toFixed]'s own rule for two nearest decimals.  In
    binary64 the product is 21.349999999999998, and the code returns 21.3.

    [below_the_activity_scale] passes the validation of the route.  Its
    sum is 37.49999999999999; 37.5 percent is returned, and with it 17.1,
    computed from the sum before it was rounded.  The formula at the
    returned 37.5 gives 17.2, on paper and in binary64. *)
Theorem C3_formula_is_missed :
  in_form_range eighty_seven_and_a_half /\
  calculateRealTimeRisk eighty_seven_and_a_half
  = Ok {| risk_percentage := 87.5; risk_level := "critical";
          average_predicted_iop := 21.3; message := msg_critical |} /\
  (Exact.pressure_on_paper 875 == 427 # 20)%Q /\
  Exact.nearest_tenths (Exact.pressure_on_paper 875) = 214%Z /\
  Exact.decimal1 214 = 21.4%float /\
  (14.0 * (1 + (87.5 / 100) * 0.6))%float = 21.349999999999998%float /\
  calculateRealTimeRisk below_the_activity_scale
  = Ok {| risk_percentage := 37.5; risk_level := "moderate";
          average_predicted_iop := 17.1; message := msg_moderate |} /\
  riskPercentage below_the_activity_scale = 37.49999999999999%float /\
  Spec.averagePredictedIop 37.5 = 17.2%float /\
  Exact.nearest_tenths (Exact.pressure_on_paper 375) = 172%Z /\
  Exact.decimal1 172 = 17.2%float /\
  (21.3 <? 21.4)%float = true /\ (17.1 <? 17.2)%float = true.
Proof.
  split.
  { unfold in_form_range, eighty_seven_and_a_half; cbn; lia. }
  repeat split; vm_compute; reflexivity.
Qed.

(** On a valid record the formula can as well be read at the percentage
    that is returned, rounded as it is. *)
Lemma average_iop_of_returned_percentage (d : PatientData) :
  valid_attributes d ->
  exists r, calculateRealTimeRisk d = Ok r /\
            average_predicted_iop r = Spec.averagePredictedIop (risk_percentage r).
Proof.
  intros H. eexists; split; [apply calculateRealTimeRisk_returns |].
  cbn [average_predicted_iop risk_percentage response_of].
  apply FloatAxioms.Leibniz.eqb_spec.
  exact (percentages_forallb Reach.pressure_of_rounded d pressure_of_rounded_all H).
Qed.

(** The formula is evaluated in binary64.  At 12.5 percent it is 15.05 on
    paper; the product computed is 15.049999999999999, and 15.0 is
    returned. *)
Example average_iop_at_a_tie :
  (14.0 * (1 + (12.5 / 100) * 0.6))%float = 15.049999999999999%float /\
  calculateRealTimeRisk twelve_and_a_half
  = Ok {| risk_percentage := 12.5; risk_level := "low";
          average_predicted_iop := 15.0; message := msg_low |}.
Proof. split; vm_compute; reflexivity. Qed.

(** C4.  The scenario of the specification: 23.0 percent, moderate,
    15.9 mmHg. *)
Theorem C4_scenario :
  calculateRealTimeRisk scenario
  = Ok {| risk_percentage := 23.0; risk_level := "moderate";
          average_predicted_iop := 15.9; message := msg_moderate |}.
Proof. vm_compute. reflexivity. Qed.

(** All factors at their worst: the sum is clamped to 100, critical. *)
Example all_factors_maxed :
  calculateRealTimeRisk
    {| age := 100; gender := "other"; sleepQuality := 1; stressLevel := 10;
       physicalActivity := 1; diabetesStatus := "type2"; bloodSugar := Some 180%Z;
       systolicBP := 150; diastolicBP := 95; familyHistory := "multiple";
       currentMedications := "timolol"; lastDropHours := 48 |}
  = Ok {| risk_percentage := 100; risk_level := "critical";
          average_predicted_iop := 22.4; message := msg_critical |}.
Proof. vm_compute. reflexivity. Qed.

(** C5.  Of two valid records that differ in stressLevel alone, the one
    with the larger stressLevel has no smaller risk percentage; of two that
    differ in sleepQuality alone, the one with the smaller sleepQuality has
    no smaller risk percentage. *)
Theorem C5_monotone_in_stress_and_sleep (d d' : PatientData) :
  valid_attributes d -> valid_attributes d' ->
  (same_but_stressLevel d d' /\ (stressLevel d <= stressLevel d')%Z) \/
  (same_but_sleepQuality d d' /\ (sleepQuality d' <= sleepQuality d)%Z) ->
  exists r r',
    calculateRealTimeRisk d = Ok r /\ calculateRealTimeRisk d' = Ok r' /\
    (risk_percentage r <=? risk_percentage r')%float = true /\
    (risk_percentage r' <? risk_percentage r)%float = false.
Proof.
  intros H H' Hcase.
  do 2 eexists. split; [apply calculateRealTimeRisk_returns |].
  split; [apply calculateRealTimeRisk_returns |].
  cbn [risk_percentage response_of].
  rewrite !rounded_percentage_exact by assumption.
  pose proof (percentage_tenths_bounds d). pose proof (percentage_tenths_bounds d').
  apply decimal1_monotone; [| lia].
  split; [lia |].
  destruct Hcase as [[Hs Hle] | [Hs Hle]].
  - now apply percentage_tenths_stress.
  - now apply percentage_tenths_sleep.
Qed.

Lemma C5_witness :
  valid_attributes scenario /\ valid_attributes (with_stressLevel 9 scenario) /\
  same_but_stressLevel scenario (with_stressLevel 9 scenario) /\
  (stressLevel scenario <= stressLevel (with_stressLevel 9 scenario))%Z /\
  exists r r',
    calculateRealTimeRisk scenario = Ok r /\
    calculateRealTimeRisk (with_stressLevel 9 scenario) = Ok r' /\
    (risk_percentage r <=? risk_percentage r')%float = true /\
    (risk_percentage r' <? risk_percentage r)%float = false.
Proof.
  assert (H1 : valid_attributes scenario)
    by (unfold valid_attributes, scenario; cbn; lia).
  assert (H2 : valid_attributes (with_stressLevel 9 scenario))
    by (unfold valid_attributes, with_stressLevel, scenario; cbn; lia).
  assert (H3 : same_but_stressLevel scenario (with_stressLevel 9 scenario))
    by (unfold same_but_stressLevel, with_stressLevel, scenario; cbn; repeat split).
  assert (H4 : (stressLevel scenario <= stressLevel (with_stressLevel 9 scenario))%Z)
    by (cbn; lia).
  repeat (split; [assumption |]).
  apply (C5_monotone_in_stress_and_sleep scenario (with_stressLevel 9 scenario) H1 H2).
  left. split; assumption.
Defined.

Lemma integer_column_far_from_overflow (z : Z) :
  (- 2 ^ 31 <= z < 2 ^ 31)%Z -> far_from_overflow z.
Proof.
  unfold far_from_overflow. intros H.
  assert (2 ^ 31 <= 2 ^ 1000)%Z by (apply Z.pow_le_mono_r; lia). lia.
Qed.

(** C6.  [calculateRealTimeRisk] returns on every record: no exception
    is raised, the level is one of the four and the message is the one of
    the level.  When the integers of the record are far from the
    overflow of binary64, in range or not, the two numbers are well
    defined: the percentage is one of the decimals 0.0, 0.1, ..., 100.0
    and the average IOP one of 14.0, 14.1, ..., 22.4. *)
Theorem C6_total (data : PatientData) :
  exists r, calculateRealTimeRisk data = Ok r /\
            In (risk_level r) levels /\
            message r = Spec.message_of (risk_level r) /\
            (fields_far_from_overflow data ->
             (exists n, (0 <= n <= 1000)%Z /\ risk_percentage r = Exact.decimal1 n) /\
             (exists k, (140 <= k <= 224)%Z /\
                        average_predicted_iop r = Exact.decimal1 k) /\
             (0 <=? risk_percentage r)%float = true /\
             (risk_percentage r <=? 100)%float = true).
Proof.
  eexists; split; [apply calculateRealTimeRisk_returns |].
  cbn [risk_level message risk_percentage average_predicted_iop response_of].
  split; [| split; [reflexivity |]].
  - unfold Spec.riskLevel, levels.
    destruct (riskPercentage data <? 20)%float; [cbn; tauto |].
    destruct (riskPercentage data <? 40)%float; [cbn; tauto |].
    destruct (riskPercentage data <? 70)%float; cbn; tauto.
  - intros H. destruct (returned_numbers data H) as (n & k & Hn & Hk & En & Ek).
    split; [exists n; split; assumption |].
    split; [exists k; split; assumption |].
    rewrite En.
    change 0%float with (Exact.decimal1 0).
    change 100%float with (Exact.decimal1 1000).
    split; apply decimal1_monotone; lia.
Qed.

(** The ends of the 32-bit columns, negative age included. *)
Lemma C6_witness :
  fields_far_from_overflow ends_of_the_columns /\
  exists r, calculateRealTimeRisk ends_of_the_columns = Ok r /\
            In (risk_level r) levels /\
            message r = Spec.message_of (risk_level r) /\
            (fields_far_from_overflow ends_of_the_columns ->
             (exists n, (0 <= n <= 1000)%Z /\ risk_percentage r = Exact.decimal1 n) /\
             (exists k, (140 <= k <= 224)%Z /\
                        average_predicted_iop r = Exact.decimal1 k) /\
             (0 <=? risk_percentage r)%float = true /\
             (risk_percentage r <=? 100)%float = true).
Proof.
  split; [| exact (C6_total ends_of_the_columns)].
  unfold fields_far_from_overflow, ends_of_the_columns; cbn [age sleepQuality stressLevel
    physicalActivity systolicBP diastolicBP lastDropHours].
  repeat split; apply integer_column_far_from_overflow; lia.
Defined.

(** C7.  Whatever the record and whatever the hourly curve, the forecast
    returns, with exactly 24 predictions whose hours are 0, 1, ..., 23 in
    this order: none is missing and none comes twice. *)
Theorem C7_twenty_four_hours (hourly_curve : PatientData -> nat -> Q)
    (attrs : PatientData) :
  exists r, Forecast.computeForecast hourly_curve attrs = Ok r /\
            length (Forecast.predictions r) = 24%nat /\
            map Forecast.hour (Forecast.predictions r) = seq 0 24 /\
            NoDup (map Forecast.hour (Forecast.predictions r)).
Proof.
  destruct (computeForecast_returns hourly_curve attrs) as (a & _ & ->).
  eexists; split; [reflexivity |].
  cbn [Forecast.predictions Forecast.assemble].
  rewrite hours_of_predictions.
  split; [| split; [reflexivity | apply seq_NoDup]].
  unfold Forecast.hourly_predictions. now rewrite length_map, length_seq.
Qed.


(** C9.  Two records that differ at most in gender, bloodSugar and
    currentMedications get the same answer: percentage, level, average IOP
    and message. *)
Theorem C9_ignored_fields (d d' : PatientData) :
  same_scored_fields d d' ->
  calculateRealTimeRisk d = calculateRealTimeRisk d'.
Proof.
  intros H. rewrite !calculateRealTimeRisk_returns.
  unfold riskPercentage. now rewrite (riskScore_same_scored_fields d d' H).
Qed.

Lemma C9_witness :
  same_scored_fields scenario scenario_other_patient /\
  calculateRealTimeRisk scenario = calculateRealTimeRisk scenario_other_patient.
Proof.
  assert (H : same_scored_fields scenario scenario_other_patient)
    by (unfold same_scored_fields, scenario, scenario_other_patient; cbn; repeat split).
  split; [exact H |].
  exact (C9_ignored_fields scenario scenario_other_patient H).
Defined.

(** Integers that no column holds, near the largest binary64 number:
    the integers of [overflowing] are finite Numbers; its sleep points
    overflow to +Infinity and its stress points to -Infinity, the sum is
    NaN, and so are both numbers of the answer.  The route that calls the
    scorer validates the record first and does not pass such integers
    on. *)
Remark overflow_beyond_the_columns :
  finite_fields overflowing /\
  calculateRealTimeRisk overflowing
  = Ok {| risk_percentage := nan; risk_level := "critical";
          average_predicted_iop := nan; message := msg_critical |}.
Proof.
  split; [| vm_compute; reflexivity].
  unfold finite_fields, overflowing; cbn [age sleepQuality stressLevel
    physicalActivity systolicBP diastolicBP lastDropHours bloodSugar].
  repeat split; vm_compute; reflexivity.
Qed.

(** C10.  On every record whose integers are far from the overflow of
    binary64, whether within the documented ranges or not, the average
    predicted IOP lies in [14.0, 22.4]: the clamped percentage is in
    [0, 100], and no rounding on the way from there takes the result
    across 14 or 22.45. *)
Theorem C10_average_iop_bounds (d : PatientData) :
  fields_far_from_overflow d ->
  exists r, calculateRealTimeRisk d = Ok r /\
            (14.0 <=? average_predicted_iop r)%float = true /\
            (average_predicted_iop r <=? 22.4)%float = true.
Proof.
  intros H. eexists; split; [apply calculateRealTimeRisk_returns |].
  cbn [average_predicted_iop response_of].
  destruct (returned_numbers d H) as (n & k & Hn & Hk & En & Ek).
  rewrite Ek.
  change 14.0%float with (Exact.decimal1 140).
  change 22.4%float with (Exact.decimal1 224).
  split; apply decimal1_monotone; lia.
Qed.

Lemma C10_witness :
  fields_far_from_overflow ends_of_the_columns /\
  exists r, calculateRealTimeRisk ends_of_the_columns = Ok r /\
            (14.0 <=? average_predicted_iop r)%float = true /\
            (average_predicted_iop r <=? 22.4)%float = true.
Proof.
  assert (H : fields_far_from_overflow ends_of_the_columns).
  { unfold fields_far_from_overflow, ends_of_the_columns; cbn [age sleepQuality stressLevel
      physicalActivity systolicBP diastolicBP lastDropHours].
    repeat split; apply integer_column_far_from_overflow; lia. }
  split; [exact H |].
  exact (C10_average_iop_bounds ends_of_the_columns H).
Defined.

(** The bound also holds on every record within the documented ranges,
    whatever integers its pressures and its hours since the last dose
    are. *)
Lemma average_iop_bounds_on_valid_records (d : PatientData) :
  valid_attributes d ->
  exists r, calculateRealTimeRisk d = Ok r /\
            (14.0 <=? average_predicted_iop r)%float = true /\
            (average_predicted_iop r <=? 22.4)%float = true.
Proof.
  intros H. eexists; split; [apply calculateRealTimeRisk_returns |].
  cbn [average_predicted_iop response_of].
  apply andb_true_iff.
  exact (percentages_forallb Reach.pressure_bounded d pressure_bounded_all H).
Qed.

(** ** More about the risk scorer *)

Section Scorer.
Import Reach JS.
Local Open Scope float_scope.

Lemma numeral_eqb_eq (a b : numeral) : numeral_eqb a b = true -> a = b.
Proof.
  destruct a, b; cbn; try discriminate; try reflexivity.
  - intros H. apply Bool.eqb_prop in H. now subst.
  - rewrite !andb_true_iff. intros [[Hs Hn] Hf].
    apply Bool.eqb_prop in Hs. apply Z.eqb_eq in Hn, Hf. now subst.
  - intros H. apply FloatAxioms.Leibniz.eqb_spec in H. now subst.
Qed.

Lemma percentage_tenths_no_better_off (d d' : PatientData) :
  no_better_off d d' ->
  (Exact.percentage_tenths d <= Exact.percentage_tenths d')%Z.
Proof.
  intros (Ha & Hq & Ht & Hp & Hs & Hdp & Hh & Hdi & Hf).
  unfold Exact.percentage_tenths, Exact.raw_tenths, Exact.dose_tenths,
    Exact.family_tenths, Exact.diabetes_tenths, Exact.blood_pressure_tenths,
    Exact.activity_tenths, Exact.stress_tenths, Exact.sleep_tenths, Exact.age_tenths.
  rewrite Hdi, Hf.
  assert (Hbp : ((if (140 <? systolicBP d) || (90 <? diastolicBP d) then 80
                  else if (130 <? systolicBP d) || (80 <? diastolicBP d) then 40 else 0)
                 <= (if (140 <? systolicBP d') || (90 <? diastolicBP d') then 80
                     else if (130 <? systolicBP d') || (80 <? diastolicBP d') then 40
                     else 0))%Z).
  { destruct (Z.ltb_spec 140 (systolicBP d)), (Z.ltb_spec 90 (diastolicBP d)),
      (Z.ltb_spec 130 (systolicBP d)), (Z.ltb_spec 80 (diastolicBP d)),
      (Z.ltb_spec 140 (systolicBP d')), (Z.ltb_spec 90 (diastolicBP d')),
      (Z.ltb_spec 130 (systolicBP d')), (Z.ltb_spec 80 (diastolicBP d'));
      cbn [orb]; lia. }
  assert (Hdose : ((if 24 <? lastDropHours d then (lastDropHours d - 24) * 8 else 0)
                   <= (if 24 <? lastDropHours d' then (lastDropHours d' - 24) * 8 else 0))%Z).
  { destruct (Z.ltb_spec 24 (lastDropHours d)), (Z.ltb_spec 24 (lastDropHours d')); lia. }
  lia.
Qed.

Lemma pressures_ascending : ascending pressures = true.
Proof. vm_compute. reflexivity. Qed.

Lemma nth_pressures (n : Z) :
  (0 <= n <= 1000)%Z ->
  nth (Z.to_nat n) pressures 0 = Spec.averagePredictedIop (Exact.decimal1 n).
Proof.
  intros H. unfold pressures, range.
  rewrite (nth_indep _ 0 (Spec.averagePredictedIop (Exact.decimal1 0)))
    by (rewrite !length_map, length_seq; lia).
  rewrite (map_nth (fun n => Spec.averagePredictedIop (Exact.decimal1 n))).
  rewrite (nth_indep _ 0%Z (0 + Z.of_nat 0)%Z) by (rewrite length_map, length_seq; lia).
  rewrite (map_nth (fun i => (0 + Z.of_nat i)%Z)).
  rewrite seq_nth by lia. do 2 f_equal. lia.
Qed.

Lemma shown_percentage_exact_all : forallb shown_percentage_exact percentages = true.
Proof. vm_compute. reflexivity. Qed.

Lemma shown_pressure_same_all : forallb shown_pressure_same percentages = true.
Proof. vm_compute. reflexivity. Qed.

(** A valid record that is no better off than another in any number, with
    the same diabetes status and family history, is answered no lower
    percentage and no lower average pressure: no rounding along the way
    turns the order of two answers around. *)
Theorem no_better_off_is_answered_no_less (d d' : PatientData) :
  valid_attributes d -> valid_attributes d' -> no_better_off d d' ->
  exists r r',
    calculateRealTimeRisk d = Ok r /\ calculateRealTimeRisk d' = Ok r' /\
    (risk_percentage r <=? risk_percentage r') = true /\
    (risk_percentage r' <? risk_percentage r) = false /\
    (average_predicted_iop r <=? average_predicted_iop r') = true /\
    (average_predicted_iop r' <? average_predicted_iop r) = false.
Proof.
  intros H H' Hle.
  do 2 eexists. split; [apply calculateRealTimeRisk_returns |].
  split; [apply calculateRealTimeRisk_returns |].
  cbn [risk_percentage average_predicted_iop response_of].
  pose proof (percentages_forallb pressure_of_rounded d pressure_of_rounded_all H) as E.
  pose proof (percentages_forallb pressure_of_rounded d' pressure_of_rounded_all H') as E'.
  unfold pressure_of_rounded in E, E'. cbn [fst] in E, E'.
  apply FloatAxioms.Leibniz.eqb_spec in E, E'. rewrite E, E'.
  rewrite !rounded_percentage_exact by assumption.
  pose proof (percentage_tenths_bounds d). pose proof (percentage_tenths_bounds d').
  pose proof (percentage_tenths_no_better_off d d' Hle).
  rewrite <- and_assoc. split.
  - apply decimal1_monotone; lia.
  - rewrite <- (nth_pressures (Exact.percentage_tenths d)),
      <- (nth_pressures (Exact.percentage_tenths d')) by lia.
    apply ascending_nth; [exact pressures_ascending | lia |].
    unfold pressures, range. rewrite !length_map, length_seq. lia.
Qed.

End Scorer.

Section ScorerAnswers.
Import Reach JS.
Local Open Scope float_scope.

Lemma capped_all : forallb capped percentages = true.
Proof. vm_compute. reflexivity. Qed.

Lemma percentage_in_range_all : forallb percentage_in_range percentages = true.
Proof. vm_compute. reflexivity. Qed.

Lemma valid_scenario : valid_attributes scenario.
Proof. unfold valid_attributes, scenario; cbn; lia. Qed.

(** From 149 hours since the last dose on, a valid record is answered
    100 percent, critical, 22.4 mmHg, whatever its other fields: the
    125 hours over 24 are worth 100 points by themselves. *)
Theorem overdue_dose_is_critical (d : PatientData) :
  valid_attributes d -> (149 <= lastDropHours d)%Z ->
  calculateRealTimeRisk d
  = Ok {| risk_percentage := 100; risk_level := "critical";
          average_predicted_iop := 22.4; message := msg_critical |}.
Proof.
  intros H Hh. rewrite calculateRealTimeRisk_returns.
  pose proof (percentages_forallb capped d capped_all H) as Hc.
  unfold capped in Hc. cbn [fst snd] in Hc.
  assert (Ht : Exact.percentage_tenths d = 1000%Z).
  { destruct H as (Ha & Hq & Ht & Hp & _).
    unfold Exact.percentage_tenths, Exact.raw_tenths, Exact.dose_tenths,
      Exact.family_tenths, Exact.diabetes_tenths, Exact.blood_pressure_tenths,
      Exact.activity_tenths, Exact.stress_tenths, Exact.sleep_tenths, Exact.age_tenths.
    destruct (Z.ltb_spec 24 (lastDropHours d)); [| lia].
    destruct ((140 <? systolicBP d)%Z || (90 <? diastolicBP d)%Z),
      ((130 <? systolicBP d)%Z || (80 <? diastolicBP d)%Z),
      ((diabetesStatus d =? "type1")%string || (diabetesStatus d =? "type2")%string),
      (diabetesStatus d =? "prediabetes")%string,
      (familyHistory d =? "multiple")%string,
      ((familyHistory d =? "parent")%string || (familyHistory d =? "sibling")%string);
      lia. }
  rewrite Ht in Hc. cbn [Z.eqb Pos.eqb negb orb] in Hc.
  rewrite !andb_true_iff in Hc. destruct Hc as [[Hp Hl] Hi].
  apply FloatAxioms.Leibniz.eqb_spec in Hp, Hi. apply String.eqb_eq in Hl.
  unfold response_of. now rewrite Hp, Hl, Hi.
Qed.

Lemma overdue_dose_is_critical_witness :
  valid_attributes (with_lastDropHours 149 scenario) /\
  (149 <= lastDropHours (with_lastDropHours 149 scenario))%Z /\
  calculateRealTimeRisk (with_lastDropHours 149 scenario)
  = Ok {| risk_percentage := 100; risk_level := "critical";
          average_predicted_iop := 22.4; message := msg_critical |}.
Proof.
  assert (H1 : valid_attributes (with_lastDropHours 149 scenario))
    by (unfold valid_attributes, with_lastDropHours, scenario; cbn; lia).
  assert (H2 : (149 <= lastDropHours (with_lastDropHours 149 scenario))%Z)
    by (cbn; lia).
  split; [exact H1 |]. split; [exact H2 |].
  exact (overdue_dose_is_critical (with_lastDropHours 149 scenario) H1 H2).
Defined.

(** On a valid record the percentage answered lies between 1.5 and 100:
    the least stress alone is worth 1.5 points. *)
Theorem valid_percentage_range (d : PatientData) :
  valid_attributes d ->
  exists r, calculateRealTimeRisk d = Ok r /\
            (1.5 <=? risk_percentage r) = true /\
            (risk_percentage r <=? 100) = true.
Proof.
  intros H. eexists. split; [apply calculateRealTimeRisk_returns |].
  cbn [risk_percentage response_of].
  pose proof (percentages_forallb percentage_in_range d percentage_in_range_all H) as Hr.
  unfold percentage_in_range in Hr. cbn [fst] in Hr.
  now apply andb_true_iff in Hr.
Qed.

Lemma valid_percentage_range_witness :
  valid_attributes scenario /\
  exists r, calculateRealTimeRisk scenario = Ok r /\
            (1.5 <=? risk_percentage r) = true /\
            (risk_percentage r <=? 100) = true.
Proof.
  split; [exact valid_scenario |].
  exact (valid_percentage_range scenario valid_scenario).
Defined.

Lemma toFixed_1 (x : float) : toFixed x 1 = Ok (fixed_point x 1).
Proof. reflexivity. Qed.

Lemma shown_percentage_exact_eq (s : state) :
  shown_percentage_exact s = true ->
  fixed_point (Spec.round1 (fst s)) 1 = Fixed false (snd s) 1.
Proof. intros H. apply numeral_eqb_eq. exact H. Qed.

Lemma shown_pressure_same_eq (s : state) :
  shown_pressure_same s = true ->
  fixed_point (Spec.averagePredictedIop (fst s)) 1
  = fixed_point (14 * (1 + (fst s / 100) * 0.6)) 1.
Proof. intros H. apply numeral_eqb_eq. exact H. Qed.

Lemma shown_percentage (d : PatientData) :
  valid_attributes d ->
  fixed_point (Spec.round1 (riskPercentage d)) 1
  = Fixed false (Exact.percentage_tenths d) 1.
Proof.
  intros H.
  exact (shown_percentage_exact_eq (riskPercentage d, Exact.percentage_tenths d)
           (percentages_forallb shown_percentage_exact d shown_percentage_exact_all H)).
Qed.

Lemma shown_pressure (d : PatientData) :
  valid_attributes d ->
  fixed_point (Spec.averagePredictedIop (riskPercentage d)) 1
  = fixed_point (14 * (1 + (riskPercentage d / 100) * 0.6)) 1.
Proof.
  intros H.
  exact (shown_pressure_same_eq (riskPercentage d, Exact.percentage_tenths d)
           (percentages_forallb shown_pressure_same d shown_pressure_same_all H)).
Qed.

(** The risk card writes both numbers with [toFixed(1)].  On a valid
    record what it writes for the percentage is the decimal of the exact
    sum of the table, and what it writes for the pressure is what the
    server wrote before reading it back as a Number: nothing is lost on
    the way through [parseFloat] and JSON. *)
Theorem risk_card_shows_the_decimals (d : PatientData) :
  valid_attributes d ->
  exists r,
    calculateRealTimeRisk d = Ok r /\
    Client.RiskAssessment.shown (risk_percentage r)
    = Ok (Fixed false (Exact.percentage_tenths d) 1) /\
    Client.RiskAssessment.shown (average_predicted_iop r)
    = toFixed (14 * (1 + (riskPercentage d / 100) * 0.6)) 1.
Proof.
  intros H. eexists. split; [apply calculateRealTimeRisk_returns |].
  cbn [risk_percentage average_predicted_iop response_of].
  unfold Client.RiskAssessment.shown. rewrite !toFixed_1.
  rewrite (shown_percentage d H), (shown_pressure d H). split; reflexivity.
Qed.

Lemma risk_card_shows_the_decimals_witness :
  valid_attributes scenario /\
  exists r,
    calculateRealTimeRisk scenario = Ok r /\
    Client.RiskAssessment.shown (risk_percentage r)
    = Ok (Fixed false (Exact.percentage_tenths scenario) 1) /\
    Client.RiskAssessment.shown (average_predicted_iop r)
    = toFixed (14 * (1 + (riskPercentage scenario / 100) * 0.6)) 1.
Proof.
  split; [exact valid_scenario |].
  exact (risk_card_shows_the_decimals scenario valid_scenario).
Defined.

Lemma no_better_off_is_answered_no_less_witness :
  valid_attributes scenario /\ valid_attributes (with_lastDropHours 30 scenario) /\
  no_better_off scenario (with_lastDropHours 30 scenario) /\
  exists r r',
    calculateRealTimeRisk scenario = Ok r /\
    calculateRealTimeRisk (with_lastDropHours 30 scenario) = Ok r' /\
    (risk_percentage r <=? risk_percentage r') = true /\
    (risk_percentage r' <? risk_percentage r) = false /\
    (average_predicted_iop r <=? average_predicted_iop r') = true /\
    (average_predicted_iop r' <? average_predicted_iop r) = false.
Proof.
  assert (H2 : valid_attributes (with_lastDropHours 30 scenario))
    by (unfold valid_attributes, with_lastDropHours, scenario; cbn; lia).
  assert (H3 : no_better_off scenario (with_lastDropHours 30 scenario)).
  { unfold no_better_off, with_lastDropHours, scenario; cbn.
    repeat split; lia. }
  split; [exact valid_scenario |]. split; [exact H2 |]. split; [exact H3 |].
  exact (no_better_off_is_answered_no_less scenario (with_lastDropHours 30 scenario)
           valid_scenario H2 H3).
Defined.

End ScorerAnswers.

Section ScorerWitnesses.
Local Open Scope float_scope.

Lemma risk_percentage_exact_witness :
  valid_attributes scenario /\
  exists r, calculateRealTimeRisk scenario = Ok r /\
            risk_percentage r = Exact.decimal1 (Exact.percentage_tenths scenario).
Proof.
  split; [exact valid_scenario |].
  exact (risk_percentage_exact scenario valid_scenario).
Defined.

Lemma level_of_returned_percentage_witness :
  valid_attributes scenario /\
  riskPercentage scenario <> 19.999999999999996 /\
  exists r, calculateRealTimeRisk scenario = Ok r /\
            risk_level r = Spec.riskLevel (risk_percentage r).
Proof.
  assert (H : riskPercentage scenario <> 19.999999999999996).
  { intros E. apply FloatAxioms.Leibniz.eqb_spec in E.
    vm_compute in E. discriminate E. }
  split; [exact valid_scenario |]. split; [exact H |].
  exact (level_of_returned_percentage scenario valid_scenario H).
Defined.

Lemma average_iop_of_returned_percentage_witness :
  valid_attributes scenario /\
  exists r, calculateRealTimeRisk scenario = Ok r /\
            average_predicted_iop r = Spec.averagePredictedIop (risk_percentage r).
Proof.
  split; [exact valid_scenario |].
  exact (average_iop_of_returned_percentage scenario valid_scenario).
Defined.

End ScorerWitnesses.
(** ** The storage *)

Section MapLemmas.
Import Storage.
Context {V : Type}.

Lemma Map_get_set (m : Map V) (k k' : string) (v : V) :
  Map_get (Map_set m k v) k' = if (k =? k')%string then Some v else Map_get m k'.
Proof.
  induction m as [| [k0 v0] r IH]; cbn.
  - reflexivity.
  - destruct (k0 =? k)%string eqn:E0; cbn.
    + apply String.eqb_eq in E0; subst k0.
      destruct (k =? k')%string; reflexivity.
    + rewrite IH. destruct (k0 =? k')%string eqn:E1; [| reflexivity].
      apply String.eqb_eq in E1; subst k0.
      rewrite String.eqb_sym in E0. now rewrite E0.
Qed.

Lemma Map_get_None (m : Map V) (k : string) :
  Map_get m k = None <-> ~ In k (Map_keys m).
Proof.
  induction m as [| [k0 v0] r IH]; cbn.
  - tauto.
  - destruct (k0 =? k)%string eqn:E0.
    + apply String.eqb_eq in E0. split; [discriminate | tauto].
    + apply String.eqb_neq in E0. rewrite IH. tauto.
Qed.

(** A new key goes to the end. *)
Lemma Map_set_fresh (m : Map V) (k : string) (v : V) :
  Map_get m k = None -> Map_set m k v = m ++ [(k, v)].
Proof.
  induction m as [| [k0 v0] r IH]; cbn; [reflexivity |].
  destruct (k0 =? k)%string; [discriminate |].
  intros H. now rewrite IH.
Qed.

Lemma Map_keys_set (m : Map V) (k : string) (v : V) :
  Map_keys (Map_set m k v)
  = if existsb (String.eqb k) (Map_keys m) then Map_keys m else Map_keys m ++ [k].
Proof.
  unfold Map_keys.
  induction m as [| [k0 v0] r IH]; cbn; [reflexivity |].
  rewrite (String.eqb_sym k k0).
  destruct (k0 =? k)%string eqn:E0; cbn.
  - apply String.eqb_eq in E0. now subst.
  - rewrite IH. now destruct (existsb (String.eqb k) (map fst r)).
Qed.

Lemma Map_keys_set_NoDup (m : Map V) (k : string) (v : V) :
  NoDup (Map_keys m) -> NoDup (Map_keys (Map_set m k v)).
Proof.
  intros H. rewrite Map_keys_set.
  destruct (existsb (String.eqb k) (Map_keys m)) eqn:E; [assumption |].
  apply NoDup_app; [assumption | repeat constructor; intros [] | ].
  intros x Hx [E' | []]. subst x.
  assert (existsb (String.eqb k) (Map_keys m) = true); [| congruence].
  apply existsb_exists. exists k. split; [assumption | apply String.eqb_refl].
Qed.

Lemma Map_set_In (m : Map V) (k k' : string) (v v' : V) :
  In (k', v') (Map_set m k v) -> (k', v') = (k, v) \/ In (k', v') m.
Proof.
  induction m as [| [k0 v0] r IH]; cbn.
  - intros [E | []]. now left.
  - destruct (k0 =? k)%string; cbn.
    + intros [E | H]; [now left | now right; right].
    + intros [E | H]; [now right; left |].
      destruct (IH H); [now left | now right; right].
Qed.

Lemma Map_get_In (m : Map V) (k : string) (v : V) :
  NoDup (Map_keys m) -> In (k, v) m -> Map_get m k = Some v.
Proof.
  induction m as [| [k0 v0] r IH]; cbn; [tauto |].
  intros Hnd [E | Hin].
  - inversion E; subst. now rewrite String.eqb_refl.
  - inversion Hnd as [| ? ? Hnot Hnd']; subst.
    destruct (k0 =? k)%string eqn:E0; [| now apply IH].
    apply String.eqb_eq in E0; subst k0. exfalso. apply Hnot.
    unfold Map_keys. now apply (in_map fst) in Hin.
Qed.

Lemma Map_get_Some_In (m : Map V) (k : string) (v : V) :
  Map_get m k = Some v -> In (k, v) m.
Proof.
  induction m as [| [k0 v0] r IH]; cbn; [discriminate |].
  destruct (k0 =? k)%string eqn:E0.
  - apply String.eqb_eq in E0. intros [= <-]. left. now subst.
  - intros H. right. now apply IH.
Qed.

End MapLemmas.

Section StorageProofs.
Import Storage.
Variable randomUUID : nat -> string.
Variable Date_now : nat -> Date.

Lemma find_app {A : Type} (f : A -> bool) (l l' : list A) :
  find f (l ++ l') = match find f l with Some a => Some a | None => find f l' end.
Proof.
  induction l as [| a l IH]; cbn; [reflexivity |].
  now destruct (f a).
Qed.

Lemma Map_values_app {V : Type} (m m' : Map V) :
  Map_values (m ++ m') = Map_values m ++ Map_values m'.
Proof. apply map_app. Qed.

Lemma filed_set {Columns Stamp : Type} (m : Map (Row Columns Stamp))
    (row : Row Columns Stamp) :
  filed m -> filed (Map_set m (id row) row).
Proof.
  intros [Hnd Hid]. split; [now apply Map_keys_set_NoDup |].
  intros k r Hin. apply Map_set_In in Hin as [E | Hin].
  - now inversion E.
  - now apply Hid.
Qed.

(** The loop of [createIopPredictions]: the rows it pushes, one for each
    prediction, and the state it leaves. *)
Lemma createIopPredictions_loop_spec (predictions : list InsertIopPrediction) :
  forall (created : list IopPrediction) (w : World),
  exists rows,
    fst (createIopPredictions_loop randomUUID Date_now predictions created w)
    = created ++ rows /\
    map columns rows = predictions /\
    map id rows = map randomUUID (seq (uuids w) (length predictions)) /\
    map createdAt rows = map Date_now (seq (dates w) (length predictions)) /\
    let w' := snd (createIopPredictions_loop randomUUID Date_now predictions created w) in
    uuids w' = (uuids w + length predictions)%nat /\
    dates w' = (dates w + length predictions)%nat /\
    users (storage w') = users (storage w) /\
    patientData (storage w') = patientData (storage w) /\
    iopPredictions (storage w')
    = fold_left (fun m row => Map_set m (id row) row) rows (iopPredictions (storage w)).
Proof.
  induction predictions as [| p ps IH]; intros created w.
  - exists []. cbn. rewrite app_nil_r, !Nat.add_0_r. repeat split.
  - cbn [createIopPredictions_loop].
    set (row := {| id := randomUUID (uuids w); columns := p;
                   createdAt := Date_now (dates w) |}).
    set (w1 := {| storage := _; uuids := _; dates := _ |}).
    destruct (IH (created ++ [row]) w1) as (rows & Hfst & Hc & Hi & Hd & Hu & Hdt & Hus & Hp & Hm).
    exists (row :: rows). rewrite Hfst, <- app_assoc. cbn [app length seq map].
    rewrite Hc, Hi, Hd. repeat split.
    + cbv zeta in Hu |- *. rewrite Hu. cbn. lia.
    + rewrite Hdt. cbn. lia.
    + now rewrite Hus.
    + now rewrite Hp.
    + now rewrite Hm.
Qed.

(** Rows with new, distinct keys go to the end, in order. *)
Lemma fold_set_fresh {Columns Stamp : Type} (rows : list (Row Columns Stamp)) :
  forall m : Map (Row Columns Stamp),
  NoDup (Map_keys m ++ map id rows) ->
  fold_left (fun m row => Map_set m (id row) row) rows m
  = m ++ map (fun row => (id row, row)) rows.
Proof.
  induction rows as [| row rows IH]; intros m Hnd; cbn.
  - now rewrite app_nil_r.
  - cbn in Hnd.
    assert (Hfresh : Map_get m (id row) = None).
    { apply Map_get_None. intros Hin.
      apply NoDup_remove_2 in Hnd. apply Hnd, in_or_app. now left. }
    rewrite Map_set_fresh by assumption.
    rewrite IH.
    + now rewrite <- app_assoc.
    + unfold Map_keys in *. rewrite map_app, <- app_assoc. exact Hnd.
Qed.

Lemma fold_set_keeps {Columns Stamp : Type} (rows : list (Row Columns Stamp)) :
  forall (m : Map (Row Columns Stamp)) (k : string),
  Map_get m k <> None ->
  Map_get (fold_left (fun m row => Map_set m (id row) row) rows m) k <> None.
Proof.
  induction rows as [| r rows IH]; intros m k H; [exact H |].
  cbn [fold_left]. apply IH. rewrite Map_get_set.
  now destruct (id r =? k)%string.
Qed.

Lemma fold_set_has {Columns Stamp : Type} (rows : list (Row Columns Stamp)) :
  forall (m : Map (Row Columns Stamp)) (row : Row Columns Stamp),
  In row rows ->
  Map_get (fold_left (fun m row => Map_set m (id row) row) rows m) (id row) <> None.
Proof.
  induction rows as [| r rows IH]; intros m row Hin; [destruct Hin |].
  cbn [fold_left]. destruct Hin as [-> | Hin]; [| now apply IH].
  apply fold_set_keeps. rewrite Map_get_set, String.eqb_refl. discriminate.
Qed.

(** What stands under a key after the rows are set one by one: the last
    row of this [id], or what stood there before. *)
Lemma fold_set_get {Columns Stamp : Type} (rows : list (Row Columns Stamp)) :
  forall (m : Map (Row Columns Stamp)) (k : string),
  Map_get (fold_left (fun m row => Map_set m (id row) row) rows m) k
  = match find (fun r => (id r =? k)%string) (rev rows) with
    | Some r => Some r
    | None => Map_get m k
    end.
Proof.
  induction rows as [| r rows IH]; intros m k; [reflexivity |].
  cbn [fold_left rev]. rewrite IH, find_app, Map_get_set. cbn [find].
  destruct (find (fun r0 => (id r0 =? k)%string) (rev rows)); [reflexivity |].
  now destruct (id r =? k)%string.
Qed.

Lemma NoDup_map_eq {A B : Type} (f : A -> B) (l : list A) (a b : A) :
  NoDup (map f l) -> In a l -> In b l -> f a = f b -> a = b.
Proof.
  induction l as [| x l IH]; intros Hnd Ha Hb E; [destruct Ha |].
  cbn in Hnd. apply NoDup_cons_iff in Hnd as [Hx Hnd].
  destruct Ha as [-> | Ha], Hb as [-> | Hb]; [reflexivity | | |].
  - exfalso. apply Hx. rewrite E. now apply in_map.
  - exfalso. apply Hx. rewrite <- E. now apply in_map.
  - now apply IH.
Qed.

Lemma fold_set_filed {Columns Stamp : Type} (rows : list (Row Columns Stamp)) :
  forall m : Map (Row Columns Stamp),
  filed m -> filed (fold_left (fun m row => Map_set m (id row) row) rows m).
Proof.
  induction rows as [| r rows IH]; intros m Hm; [exact Hm |].
  cbn [fold_left]. apply IH. now apply filed_set.
Qed.

End StorageProofs.

Section StorageTheorems.
Import Storage.
Variable randomUUID : nat -> string.
Variable Date_now : nat -> Date.

(** What [createUser] returns is what [getUser] finds under its [id], and
    every other identifier is answered as before; the same for
    [createPatientData] and [getPatientData].  Neither touches the other
    tables. *)
Theorem created_row_is_found (w : World) (insertUser : InsertUser)
    (data : InsertPatientData) (id' : string) :
  let user := fst (createUser randomUUID w insertUser) in
  let wu := snd (createUser randomUUID w insertUser) in
  let patient := fst (createPatientData randomUUID Date_now w data) in
  let wp := snd (createPatientData randomUUID Date_now w data) in
  columns user = insertUser /\
  getUser (storage wu) id'
  = (if (id user =? id')%string then Some user else getUser (storage w) id') /\
  patientData (storage wu) = patientData (storage w) /\
  iopPredictions (storage wu) = iopPredictions (storage w) /\
  columns patient = data /\
  getPatientData (storage wp) id'
  = (if (id patient =? id')%string then Some patient
     else getPatientData (storage w) id') /\
  users (storage wp) = users (storage w) /\
  iopPredictions (storage wp) = iopPredictions (storage w).
Proof.
  cbv zeta. unfold getUser, getPatientData, createUser, createPatientData.
  cbn [fst snd storage users patientData iopPredictions columns id].
  rewrite !Map_get_set. repeat split.
Qed.

(** [createUser] does not look at the names in use.  With an identifier
    that is new, a second user of a name is stored, and
    [getUserByUsername] goes on answering with the first. *)
Theorem first_user_of_a_name_is_found (w : World) (insertUser : InsertUser) :
  getUser (storage w) (randomUUID (uuids w)) = None ->
  let user := fst (createUser randomUUID w insertUser) in
  let w' := snd (createUser randomUUID w insertUser) in
  getUser (storage w') (id user) = Some user /\
  getUserByUsername (storage w') (username insertUser)
  = match getUserByUsername (storage w) (username insertUser) with
    | Some earlier => Some earlier
    | None => Some user
    end.
Proof.
  intros Hfresh. cbv zeta.
  unfold getUser, getUserByUsername, createUser in *.
  cbn [fst snd storage users id].
  rewrite Map_get_set, String.eqb_refl. split; [reflexivity |].
  rewrite Map_set_fresh by assumption.
  rewrite Map_values_app, find_app. cbn. now rewrite String.eqb_refl.
Qed.

(** [createIopPredictions] returns one row for each prediction, in the
    order given, with the columns given, the identifiers and dates drawn
    one after the other; users and patients are left alone.  Under the
    [id] of a returned row the storage then holds a returned row of this
    [id]: the row itself when the identifiers drawn are distinct.  An
    identifier drawn twice is a key set twice, and the later row has
    replaced the earlier one. *)
Theorem createIopPredictions_rows (w : World) (predictions : list InsertIopPrediction) :
  let created := fst (createIopPredictions randomUUID Date_now w predictions) in
  let w' := snd (createIopPredictions randomUUID Date_now w predictions) in
  map columns created = predictions /\
  map id created = map randomUUID (seq (uuids w) (length predictions)) /\
  map createdAt created = map Date_now (seq (dates w) (length predictions)) /\
  (forall row, In row created ->
     exists stored,
       Map_get (iopPredictions (storage w')) (id row) = Some stored /\
       find (fun r => (id r =? id row)%string) (rev created) = Some stored /\
       In stored created /\ id stored = id row /\
       (NoDup (map id created) -> stored = row)) /\
  users (storage w') = users (storage w) /\
  patientData (storage w') = patientData (storage w).
Proof.
  cbv zeta. unfold createIopPredictions.
  destruct (createIopPredictions_loop_spec randomUUID Date_now predictions [] w)
    as (rows & Hfst & Hc & Hi & Hd & Hu & Hdt & Hus & Hp & Hm).
  cbn [app] in Hfst. rewrite Hfst. repeat split; try assumption.
  intros row Hin. rewrite Hm. unfold IopPrediction in *. rewrite fold_set_get.
  destruct (find (fun r => (id r =? id row)%string) (rev rows)) as [stored |] eqn:F.
  - apply find_some in F as [Hs He]. apply in_rev in Hs. apply String.eqb_eq in He.
    exists stored. repeat split; try assumption.
    intros Hnd. now apply (NoDup_map_eq id rows).
  - exfalso. apply in_rev in Hin. apply (find_none _ _ F) in Hin.
    rewrite String.eqb_refl in Hin. discriminate Hin.
Qed.

(** With identifiers that are new and distinct, the predictions of a
    patient after [createIopPredictions] are those of before, then the
    rows created for this patient, in the order given. *)
Theorem predictions_of_a_patient (w : World) (predictions : list InsertIopPrediction)
    (patientDataId' : string) :
  NoDup (Map_keys (iopPredictions (storage w))
         ++ map randomUUID (seq (uuids w) (length predictions))) ->
  let created := fst (createIopPredictions randomUUID Date_now w predictions) in
  let w' := snd (createIopPredictions randomUUID Date_now w predictions) in
  getIopPredictionsByPatientId (storage w') patientDataId'
  = getIopPredictionsByPatientId (storage w) patientDataId'
    ++ filter (fun row => (patientDataId (columns row) =? patientDataId')%string) created.
Proof.
  intros Hnd. cbv zeta. unfold createIopPredictions, getIopPredictionsByPatientId.
  destruct (createIopPredictions_loop_spec randomUUID Date_now predictions [] w)
    as (rows & Hfst & Hc & Hi & Hd & Hu & Hdt & Hus & Hp & Hm).
  cbn [app] in Hfst. rewrite Hfst, Hm.
  rewrite fold_set_fresh by now rewrite Hi.
  rewrite Map_values_app, filter_app. f_equal. f_equal.
  unfold Map_values. rewrite map_map. cbn [snd]. apply map_id.
Qed.

Lemma perform_filed (w : World) (c : call) :
  filed (users (storage w)) /\ filed (patientData (storage w))
  /\ filed (iopPredictions (storage w)) ->
  filed (users (storage (perform randomUUID Date_now w c)))
  /\ filed (patientData (storage (perform randomUUID Date_now w c)))
  /\ filed (iopPredictions (storage (perform randomUUID Date_now w c))).
Proof.
  intros (Hu & Hp & Hi). destruct c as [insertUser | data | predictions].
  - cbn. repeat split; try apply Hp; try apply Hi.
    + apply (filed_set _ {| id := _; columns := _; createdAt := _ |} Hu).
    + apply (filed_set _ {| id := _; columns := _; createdAt := _ |} Hu).
  - cbn. repeat split; try apply Hu; try apply Hi.
    + apply (filed_set _ {| id := _; columns := _; createdAt := _ |} Hp).
    + apply (filed_set _ {| id := _; columns := _; createdAt := _ |} Hp).
  - cbn [perform]. unfold createIopPredictions.
    destruct (createIopPredictions_loop_spec randomUUID Date_now predictions [] w)
      as (rows & _ & _ & _ & _ & _ & _ & Hus & Hpd & Hm).
    rewrite Hus, Hpd, Hm.
    split; [exact Hu |]. split; [exact Hp |]. now apply fold_set_filed.
Qed.

Lemma run_filed (calls : list call) :
  let s := storage (run randomUUID Date_now calls) in
  filed (users s) /\ filed (patientData s) /\ filed (iopPredictions s).
Proof.
  cbv zeta. unfold run.
  assert (H0 : filed (users (storage new_World)) /\ filed (patientData (storage new_World))
               /\ filed (iopPredictions (storage new_World))).
  { cbn. repeat split; try constructor; intros ? ? []. }
  revert H0. generalize new_World.
  induction calls as [| c calls IH]; intros w H; [exact H |].
  cbn [fold_left]. apply IH. now apply perform_filed.
Qed.

(** Whatever was created, in whatever order, and whatever identifiers
    were drawn: a row found under a key has this key for [id]; the user
    found by name has this name and is the one found under its [id]; a
    prediction listed for a patient is of this patient and is the one
    found under its [id]. *)
Theorem rows_are_filed_under_their_id (calls : list call) :
  let s := storage (run randomUUID Date_now calls) in
  (forall k user, getUser s k = Some user -> id user = k) /\
  (forall name user, getUserByUsername s name = Some user ->
     username (columns user) = name /\ getUser s (id user) = Some user) /\
  (forall k patient, getPatientData s k = Some patient -> id patient = k) /\
  (forall patientDataId' row,
     In row (getIopPredictionsByPatientId s patientDataId') ->
     patientDataId (columns row) = patientDataId' /\
     Map_get (iopPredictions s) (id row) = Some row).
Proof.
  destruct (run_filed calls) as ([Hun Hui] & [Hpn Hpi] & [Hin Hii]).
  cbv zeta. unfold getUser, getUserByUsername, getPatientData,
    getIopPredictionsByPatientId.
  set (s := storage (run randomUUID Date_now calls)) in *.
  assert (Hval : forall (C S : Type) (m : Map (Row C S)) row,
             NoDup (Map_keys m) -> (forall k r, In (k, r) m -> id r = k) ->
             In row (Map_values m) -> Map_get m (id row) = Some row).
  { intros C S m row Hnd Hid Hrow. unfold Map_values in Hrow.
    apply in_map_iff in Hrow as ([k r] & E & Hin'). cbn in E; subst r.
    rewrite (Hid _ _ Hin'). now apply Map_get_In. }
  repeat split.
  - intros k user H. apply Map_get_Some_In in H. now apply Hui.
  - apply find_some in H as [_ H]. now apply String.eqb_eq.
  - apply find_some in H as [H _]. now apply Hval.
  - intros k patient H. apply Map_get_Some_In in H. now apply Hpi.
  - apply filter_In in H as [_ H]. now apply String.eqb_eq.
  - apply filter_In in H as [H _]. now apply Hval.
Qed.

End StorageTheorems.

(** Two users of the name "ann" on a new storage, with the identifiers
    "a" and "b": the name finds the first. *)
Lemma first_user_of_a_name_is_found_witness :
  let uuid := fun n => String (Ascii.ascii_of_nat (97 + n)) EmptyString in
  let ann := {| Storage.username := "ann"; Storage.password := "1" |} in
  let ann' := {| Storage.username := "ann"; Storage.password := "2" |} in
  let w := snd (Storage.createUser uuid Storage.new_World ann) in
  Storage.getUser (Storage.storage w) (uuid (Storage.uuids w)) = None /\
  Storage.getUserByUsername
    (Storage.storage (snd (Storage.createUser uuid w ann'))) "ann"
  = Some {| Storage.id := "a"; Storage.columns := ann; Storage.createdAt := tt |}.
Proof.
  cbv zeta. split; [reflexivity |].
  exact (proj2 (first_user_of_a_name_is_found
                  (fun n => String (Ascii.ascii_of_nat (97 + n)) EmptyString)
                  (snd (Storage.createUser
                          (fun n => String (Ascii.ascii_of_nat (97 + n)) EmptyString)
                          Storage.new_World
                          {| Storage.username := "ann"; Storage.password := "1" |}))
                  {| Storage.username := "ann"; Storage.password := "2" |}
                  eq_refl)).
Defined.

(** An identifier drawn twice: both rows are returned, and the storage
    keeps the later one. *)
Example repeated_identifier_keeps_the_later_row :
  let uuid := fun _ : nat => "a"%string in
  let row := fun h =>
    {| Storage.patientDataId := "p"; Storage.hour := JSON.Number h;
       Storage.predictedIop := JSON.Number 14.5;
       Storage.riskLevel := JSON.Text "low" |} in
  let result :=
    Storage.createIopPredictions uuid (fun n => Z.of_nat n) Storage.new_World
      [row 0%float; row 1%float] in
  map Storage.columns (fst result) = [row 0%float; row 1%float] /\
  map Storage.id (fst result) = ["a"; "a"]%string /\
  map Storage.columns
    (Storage.Map_values (Storage.iopPredictions (Storage.storage (snd result))))
  = [row 1%float].
Proof. cbv zeta. repeat split. Qed.

(** Two predictions for patient "p" and one for patient "q" on a new
    storage: the two are listed for "p", in the order given. *)
Lemma predictions_of_a_patient_witness :
  let uuid := fun n => String (Ascii.ascii_of_nat (97 + n)) EmptyString in
  let date := fun n => Z.of_nat n in
  let row := fun p h v =>
    {| Storage.patientDataId := p; Storage.hour := h; Storage.predictedIop := v;
       Storage.riskLevel := JSON.Text "low" |} in
  let predictions := [row "p"%string (JSON.Number 0) (JSON.Number 14.5);
     row "q"%string (JSON.Number 0) (JSON.Number 13.5);
     row "p"%string (JSON.Number 1) (JSON.Number 14.25)] in
  NoDup (Storage.Map_keys (Storage.iopPredictions (Storage.storage Storage.new_World))
         ++ map uuid (seq (Storage.uuids Storage.new_World) (length predictions))) /\
  map Storage.columns
    (Storage.getIopPredictionsByPatientId
       (Storage.storage
          (snd (Storage.createIopPredictions uuid date Storage.new_World predictions)))
       "p")
  = [row "p"%string (JSON.Number 0) (JSON.Number 14.5);
     row "p"%string (JSON.Number 1) (JSON.Number 14.25)].
Proof.
  cbv zeta.
  set (uuid := fun n => String (Ascii.ascii_of_nat (97 + n)) EmptyString).
  set (predictions :=
         [ {| Storage.patientDataId := "p"; Storage.hour := JSON.Number 0;
              Storage.predictedIop := JSON.Number 14.5;
              Storage.riskLevel := JSON.Text "low" |};
           {| Storage.patientDataId := "q"; Storage.hour := JSON.Number 0;
              Storage.predictedIop := JSON.Number 13.5;
              Storage.riskLevel := JSON.Text "low" |};
           {| Storage.patientDataId := "p"; Storage.hour := JSON.Number 1;
              Storage.predictedIop := JSON.Number 14.25;
              Storage.riskLevel := JSON.Text "low" |} ]).
  assert (Hnd : NoDup (Storage.Map_keys
                         (Storage.iopPredictions (Storage.storage Storage.new_World))
                       ++ map uuid (seq (Storage.uuids Storage.new_World)
                                        (length predictions)))).
  { cbn. repeat constructor; cbn; intuition discriminate. }
  split; [exact Hnd |].
  rewrite (predictions_of_a_patient uuid (fun n => Z.of_nat n) Storage.new_World
             predictions "p" Hnd).
  reflexivity.
Defined.

(** ** The API *)

Section RoutesTheorems.
Import Storage Routes.
Variable Request : Type.
Variable parse : Request -> thrown + PatientData.
Variable randomUUID : nat -> string.
Variable Date_now : nat -> Date.
Variable python3 : PatientData -> Closed.
Variable JSON_parse : string -> string + JSON.value.
Variable TypeError_message : JSON.value -> string.

(** POST /api/calculate-risk answers 400 when, and only when, the
    validation throws, with the message of what it threw.  A record that
    passes is answered 200 with the result of [calculateRealTimeRisk],
    whose level is one of the four: the scorer itself never makes the
    route fail. *)
Theorem calculate_risk_answers (request : Request) :
  match parse request with
  | inl error =>
      calculate_risk Request parse request
      = {| status := 400; json := ErrorJson (message_or error "Invalid data provided") |}
  | inr validatedData =>
      exists riskData,
        calculateRealTimeRisk validatedData = Ok riskData /\
        In (risk_level riskData) levels /\
        calculate_risk Request parse request
        = {| status := 200; json := Json riskData |}
  end.
Proof.
  unfold calculate_risk. destruct (parse request) as [error | validatedData].
  - reflexivity.
  - rewrite calculateRealTimeRisk_returns. eexists. split; [reflexivity |].
    split; [| reflexivity].
    cbn [risk_level response_of]. unfold Spec.riskLevel, levels.
    destruct (riskPercentage validatedData <? 20)%float; [cbn; tauto |].
    destruct (riskPercentage validatedData <? 40)%float; [cbn; tauto |].
    destruct (riskPercentage validatedData <? 70)%float; cbn; tauto.
Qed.

(** [map] goes through when no call of the callback throws. *)
Lemma Array_map_Some {A : Type} (callback : JSON.value -> option A)
    (f : JSON.value -> A) (elements : list JSON.value) :
  Forall (fun element => callback element = Some (f element)) elements ->
  Array_map callback elements = Some (map f elements).
Proof.
  induction 1 as [| element rest He _ IH]; [reflexivity |].
  cbn [Array_map map]. now rewrite He, IH.
Qed.

Lemma Array_map_None {A : Type} (callback : JSON.value -> option A)
    (elements : list JSON.value) :
  Exists (fun element => callback element = None) elements ->
  Array_map callback elements = None.
Proof.
  induction 1 as [element rest He | element rest _ IH]; cbn [Array_map].
  - now rewrite He.
  - destruct (callback element); [now rewrite IH | reflexivity].
Qed.

(** The mapping of line 126 goes through on the values that have a
    member [predictions] which is an array without null, and on no
    other. *)
Lemma predictionData_spec (savedPatientData : StoredPatientData) (predictions : JSON.value) :
  match JSON.member predictions "predictions" with
  | JSON.Array elements =>
      if forallb (fun pred => negb (JSON.nullish pred)) elements
      then predictionData savedPatientData predictions
           = Some (map (fun pred =>
                          {| patientDataId := id savedPatientData;
                             hour := JSON.member pred "hour";
                             predictedIop := JSON.member pred "predicted_iop";
                             riskLevel := JSON.member pred "risk_level" |})
                       elements)
      else predictionData savedPatientData predictions = None
  | _ => predictionData savedPatientData predictions = None
  end.
Proof.
  unfold predictionData.
  destruct predictions as [| | b | x | t | l | members]; try reflexivity.
  cbn [JSON.nullish].
  destruct (JSON.member (JSON.Object members) "predictions")
    as [| | b | x | t | elements | ms]; try reflexivity.
  destruct (forallb _ elements) eqn:F.
  - apply Array_map_Some. rewrite forallb_forall in F. apply Forall_forall.
    intros pred Hin. apply F in Hin. apply negb_true_iff in Hin. now rewrite Hin.
  - apply Array_map_None. apply Exists_exists.
    assert (H : exists pred, In pred elements /\ negb (JSON.nullish pred) = false).
    { clear -F. induction elements as [| a l IH]; [discriminate |].
      cbn in F. apply andb_false_iff in F as [F | F].
      - exists a. split; [now left | exact F].
      - destruct (IH F) as (pred & Hin & Hp). exists pred. split; [now right | exact Hp]. }
    destruct H as (pred & Hin & Hp). exists pred. split; [exact Hin |].
    apply negb_false_iff in Hp. now rewrite Hp.
Qed.


(** POST /api/predict-iop, when it succeeds with identifiers that are
    new: the predictions listed for the patient just stored are those
    that were listed before, then one row for each element of the
    forecast, in order, with the [hour], [predicted_iop] and [risk_level]
    the element has, [undefined] where it has none. *)
Theorem predict_iop_stores_the_forecast (request : Request) (w : World)
    (validatedData : PatientData) (predictions : JSON.value)
    (elements : list JSON.value) :
  parse request = inr validatedData ->
  callPythonModel python3 JSON_parse validatedData = inr predictions ->
  JSON.member predictions "predictions" = JSON.Array elements ->
  forallb (fun pred => negb (JSON.nullish pred)) elements = true ->
  NoDup (Map_keys (iopPredictions (storage w))
         ++ map randomUUID (seq (S (uuids w)) (length elements))) ->
  let answer :=
    predict_iop Request parse randomUUID Date_now python3 JSON_parse TypeError_message
      request w in
  let savedPatientData := fst (createPatientData randomUUID Date_now w validatedData) in
  fst answer = {| status := 200; json := Json predictions |} /\
  map columns (getIopPredictionsByPatientId (storage (snd answer)) (id savedPatientData))
  = map columns (getIopPredictionsByPatientId (storage w) (id savedPatientData))
    ++ map (fun pred =>
              {| patientDataId := id savedPatientData;
                 hour := JSON.member pred "hour";
                 predictedIop := JSON.member pred "predicted_iop";
                 riskLevel := JSON.member pred "risk_level" |})
           elements.
Proof.
  intros Hparse Hmodel Hmember Hnull Hnd. cbv zeta. unfold predict_iop.
  rewrite Hparse, Hmodel.
  remember (createPatientData randomUUID Date_now w validatedData) as c eqn:E.
  unfold createPatientData in E. destruct c as [saved w1].
  injection E as Es Ew. cbn [fst snd].
  assert (Hu1 : uuids w1 = S (uuids w)) by now subst w1.
  assert (Hip1 : iopPredictions (storage w1) = iopPredictions (storage w)) by now subst w1.
  clear Es Ew.
  pose proof (predictionData_spec saved predictions) as Hspec.
  rewrite Hmember, Hnull in Hspec. rewrite Hspec.
  set (rows0 := map _ elements).
  unfold createIopPredictions.
  destruct (createIopPredictions_loop_spec randomUUID Date_now rows0 [] w1)
    as (rows & _ & Hc & Hi & _ & _ & _ & _ & _ & Hm).
  destruct (createIopPredictions_loop randomUUID Date_now rows0 [] w1) as [created w2].
  cbn [fst snd] in *. split; [reflexivity |].
  unfold getIopPredictionsByPatientId. rewrite Hm.
  assert (Hlen : length rows0 = length elements) by (unfold rows0; apply length_map).
  rewrite fold_set_fresh by (rewrite Hi, Hlen, Hu1, Hip1; exact Hnd).
  rewrite Hip1, Map_values_app, filter_app, map_app. f_equal.
  unfold Map_values. rewrite map_map. cbn [snd]. rewrite map_id.
  replace (filter _ rows) with rows; [exact Hc |].
  symmetry. apply forallb_filter_id. apply forallb_forall.
  intros row Hin. apply (in_map columns) in Hin.
  rewrite Hc in Hin. unfold rows0 in Hin.
  apply in_map_iff in Hin as (pred & <- & _). apply String.eqb_refl.
Qed.

End RoutesTheorems.

(** The scenario of the specification sent to a new server whose model
    answers with a forecast of two hours. *)
Lemma predict_iop_stores_the_forecast_witness :
  let uuid := fun n => String (Ascii.ascii_of_nat (97 + n)) EmptyString in
  let date := fun n => Z.of_nat n in
  let hours :=
    [ JSON.Object [("hour", JSON.Number 0); ("predicted_iop", JSON.Number 15.5);
                   ("risk_level", JSON.Text "moderate")];
      JSON.Object [("hour", JSON.Number 1); ("predicted_iop", JSON.Number 14.5);
                   ("risk_level", JSON.Text "low")] ]%string in
  let forecast :=
    JSON.Object [("predictions", JSON.Array hours);
                 ("optimal_drop_time", JSON.Text "01:00")]%string in
  let python3 := fun _ : PatientData =>
    {| Routes.code := Some 0%Z; Routes.stdout := "{}"; Routes.stderr := "" |} in
  let JSON_parse := fun _ : string => @inr string _ forecast in
  let answer :=
    Routes.predict_iop PatientData inr uuid date python3 JSON_parse
      (fun _ => "TypeError"%string) scenario Storage.new_World in
  fst answer = {| Routes.status := 200; Routes.json := Routes.Json forecast |} /\
  map Storage.columns
    (Storage.getIopPredictionsByPatientId (Storage.storage (snd answer)) "a")
  = [ {| Storage.patientDataId := "a"; Storage.hour := JSON.Number 0;
         Storage.predictedIop := JSON.Number 15.5;
         Storage.riskLevel := JSON.Text "moderate" |};
      {| Storage.patientDataId := "a"; Storage.hour := JSON.Number 1;
         Storage.predictedIop := JSON.Number 14.5;
         Storage.riskLevel := JSON.Text "low" |} ].
Proof.
  cbv zeta.
  set (uuid := fun n => String (Ascii.ascii_of_nat (97 + n)) EmptyString).
  set (hours := [JSON.Object _; JSON.Object _]).
  set (forecast := JSON.Object _).
  assert (Hnd : NoDup (Storage.Map_keys
                         (Storage.iopPredictions (Storage.storage Storage.new_World))
                       ++ map uuid (seq (S (Storage.uuids Storage.new_World))
                                        (length hours)))).
  { cbn. repeat constructor; cbn; intuition discriminate. }
  exact (predict_iop_stores_the_forecast PatientData inr uuid (fun n => Z.of_nat n)
           (fun _ => {| Routes.code := Some 0%Z; Routes.stdout := "{}";
                        Routes.stderr := "" |})
           (fun _ => inr forecast) (fun _ => "TypeError"%string)
           scenario Storage.new_World scenario forecast hours
           eq_refl eq_refl eq_refl eq_refl Hnd).
Defined.

(** An output of the model that is JSON and no forecast: the record is
    stored, no prediction is, and the answer is 500. *)
Example predict_iop_on_an_empty_object :
  let uuid := fun n => String (Ascii.ascii_of_nat (97 + n)) EmptyString in
  let python3 := fun _ : PatientData =>
    {| Routes.code := Some 0%Z; Routes.stdout := "{}"; Routes.stderr := "" |} in
  let answer :=
    Routes.predict_iop PatientData inr uuid (fun n => Z.of_nat n) python3
      (fun _ => inr (JSON.Object [])) (fun _ => "TypeError"%string)
      scenario Storage.new_World in
  fst answer = {| Routes.status := 500; Routes.json := Routes.ErrorJson "TypeError" |} /\
  Storage.getPatientData (Storage.storage (snd answer)) "a"
  = Some {| Storage.id := "a"; Storage.columns := scenario; Storage.createdAt := 0%Z |} /\
  Storage.iopPredictions (Storage.storage (snd answer)) = [].
Proof. cbv zeta. repeat split. Qed.


(** ** The client *)

Section Strings.
Import Forecast.

Lemma includes_app (c : Ascii.ascii) (a b : string) :
  includes c (a ++ b) = includes c a || includes c b.
Proof.
  induction a as [| x a IH]; cbn; [reflexivity |].
  rewrite IH. now rewrite orb_assoc.
Qed.

Lemma split_cons (sep : Ascii.ascii) (s : string) :
  exists w ws, split sep s = w :: ws.
Proof.
  induction s as [| c r (w & ws & IH)]; cbn.
  - now exists EmptyString, [].
  - destruct (Ascii.eqb c sep); [now exists EmptyString, (split sep r) |].
    rewrite IH. now exists (String c w), ws.
Qed.

(** Up to the first separator. *)
Lemma split_app (sep : Ascii.ascii) (a b : string) :
  includes sep a = false ->
  split sep (a ++ String sep b) = a :: split sep b.
Proof.
  induction a as [| x a IH]; cbn.
  - intros _. now rewrite Ascii.eqb_refl.
  - intros H. apply orb_false_iff in H as [Hx Ha].
    rewrite Hx, (IH Ha). reflexivity.
Qed.

Lemma split_whole (sep : Ascii.ascii) (a : string) :
  includes sep a = false -> split sep a = [a].
Proof.
  induction a as [| x a IH]; cbn; [reflexivity |].
  intros H. apply orb_false_iff in H as [Hx Ha].
  now rewrite Hx, (IH Ha).
Qed.

Lemma includes_here (c : Ascii.ascii) (a b : string) :
  includes c (a ++ String c b) = true.
Proof.
  rewrite includes_app. cbn. rewrite Ascii.eqb_refl. apply orb_true_r.
Qed.

End Strings.

Section Times.
Import Forecast Client.

(** The first piece goes at least as far as a character that is not the
    separator. *)
Lemma split_head_prefix (sep c : Ascii.ascii) (h rest : string) :
  includes sep h = false -> Ascii.eqb c sep = false ->
  exists x, nth 0 (split sep (h ++ String c rest)) EmptyString
            = (h ++ String c x)%string.
Proof.
  intros Hh Hc. induction h as [| y h IH]; cbn.
  - rewrite Hc. destruct (split_cons sep rest) as (w & ws & E).
    rewrite E. now exists w.
  - cbn in Hh. apply orb_false_iff in Hh as [Hy Hh]. rewrite Hy.
    destruct (IH Hh) as (x & E).
    destruct (split_cons sep (h ++ String c rest)) as (w & ws & E').
    rewrite E' in E |- *. cbn in E |- *. exists x. now rewrite E.
Qed.

Lemma includes_digits (c : Ascii.ascii) (a : nat) (s : string) :
  (a < 10)%nat -> (Ascii.nat_of_ascii c < 48)%nat \/ (57 < Ascii.nat_of_ascii c)%nat ->
  includes c (String (digit_char a) s) = includes c s.
Proof.
  intros Ha Hc. cbn [includes].
  replace (Ascii.eqb (digit_char a) c) with false; [reflexivity |].
  symmetry. apply Ascii.eqb_neq. intros <-. unfold digit_char in Hc.
  rewrite Ascii.nat_ascii_embedding in Hc; lia.
Qed.

Lemma reads_digits_all :
  forallb (fun a => forallb (reads_digits a) (seq 0 10)) (seq 0 10) = true.
Proof. vm_compute. reflexivity. Qed.

Lemma parseInt_digits (a b : nat) :
  (a < 10)%nat -> (b < 10)%nat ->
  parseInt (String (digit_char a) (String (digit_char b) EmptyString))
  = Some (Z.of_nat (10 * a + b)) /\
  parseInt (String (digit_char b) EmptyString) = Some (Z.of_nat b).
Proof.
  intros Ha Hb. pose proof reads_digits_all as H.
  rewrite forallb_forall in H. specialize (H a). rewrite forallb_forall in H.
  specialize (H ltac:(apply in_seq; lia) b ltac:(apply in_seq; lia)).
  unfold reads_digits in H.
  destruct (parseInt (String (digit_char a) _)) as [n |]; [| discriminate].
  destruct (parseInt (String (digit_char b) EmptyString)) as [m |]; [| discriminate].
  apply andb_true_iff in H as [Hn Hm].
  apply Z.eqb_eq in Hn, Hm. now subst.
Qed.

(** The hour the card reads off a time that follows a date. *)
Lemma hour_after_date (date h rest : string) :
  includes " "%char date = false ->
  includes " "%char h = false -> includes ":"%char h = false ->
  OptimalTiming.hour (date ++ " " ++ h ++ ":" ++ rest) = h.
Proof.
  intros Hd Hb Hc. unfold OptimalTiming.hour, OptimalTiming.timeString.
  change (date ++ " " ++ h ++ ":" ++ rest)%string
    with (date ++ String " " (h ++ String ":" rest))%string.
  rewrite includes_here, split_app by assumption. cbn [nth].
  destruct (split_head_prefix " " ":" h rest Hb eq_refl) as (x & E).
  rewrite E. now rewrite split_app.
Qed.

Lemma hour_without_date (h rest : string) :
  includes " "%char h = false -> includes ":"%char h = false ->
  includes " "%char rest = false ->
  OptimalTiming.hour (h ++ ":" ++ rest) = h.
Proof.
  intros Hb Hc Hr. unfold OptimalTiming.hour, OptimalTiming.timeString.
  change (h ++ ":" ++ rest)%string with (h ++ String ":" rest)%string.
  rewrite includes_app. cbn [includes]. rewrite Hb, Hr. cbn.
  now rewrite split_app.
Qed.

(** The card of the optimal time shows the hour of the time it is given,
    with two digits and no minutes, and compares this hour with the clock:
    whether a date stands before the time or not, and whether the hour
    has two digits or one. *)
Theorem optimal_time_shows_the_hour (date rest : string) (a b : nat)
    (currentHour : Z) :
  (a < 10)%nat -> (b < 10)%nat ->
  includes " "%char date = false ->
  let hh := String (digit_char a) (String (digit_char b) EmptyString) in
  let h := String (digit_char b) EmptyString in
  OptimalTiming.formattedTime (date ++ " " ++ hh ++ ":" ++ rest) = (hh ++ ":00")%string /\
  OptimalTiming.optimalHour (date ++ " " ++ hh ++ ":" ++ rest)
  = Some (Z.of_nat (10 * a + b)) /\
  OptimalTiming.isFutureToday (date ++ " " ++ hh ++ ":" ++ rest) currentHour
  = (currentHour <? Z.of_nat (10 * a + b))%Z /\
  OptimalTiming.formattedTime (date ++ " " ++ h ++ ":" ++ rest) = ("0" ++ h ++ ":00")%string /\
  OptimalTiming.optimalHour (date ++ " " ++ h ++ ":" ++ rest) = Some (Z.of_nat b) /\
  (includes " "%char rest = false ->
   OptimalTiming.formattedTime (hh ++ ":" ++ rest) = (hh ++ ":00")%string /\
   OptimalTiming.optimalHour (hh ++ ":" ++ rest) = Some (Z.of_nat (10 * a + b))).
Proof.
  intros Ha Hb Hd. cbv zeta.
  set (hh := String (digit_char a) (String (digit_char b) EmptyString)).
  set (h := String (digit_char b) EmptyString).
  assert (Hhh : includes " "%char hh = false /\ includes ":"%char hh = false).
  { unfold hh. rewrite !includes_digits by (cbn; lia). split; reflexivity. }
  assert (Hh : includes " "%char h = false /\ includes ":"%char h = false).
  { unfold h. rewrite !includes_digits by (cbn; lia). split; reflexivity. }
  destruct Hhh as [Hhh1 Hhh2], Hh as [Hh1 Hh2].
  destruct (parseInt_digits a b Ha Hb) as [P2 P1].
  change (parseInt hh = Some (Z.of_nat (10 * a + b))) in P2.
  change (parseInt h = Some (Z.of_nat b)) in P1.
  unfold OptimalTiming.isFutureToday, OptimalTiming.formattedTime,
    OptimalTiming.optimalHour.
  rewrite !hour_after_date by assumption.
  split; [reflexivity |]. split; [exact P2 |].
  split; [now rewrite P2 |].
  split; [reflexivity |]. split; [exact P1 |].
  intros Hr. rewrite !hour_without_date by assumption.
  split; [reflexivity | exact P2].
Qed.

(** "2025-03-01 07:30" and "07:30" both show "07:00" and are read as 7,
    which at 9 o'clock is no longer today. *)
Lemma optimal_time_shows_the_hour_witness :
  OptimalTiming.formattedTime "2025-03-01 07:30" = "07:00"%string /\
  OptimalTiming.optimalHour "2025-03-01 07:30" = Some 7%Z /\
  OptimalTiming.isFutureToday "2025-03-01 07:30" 9 = false /\
  OptimalTiming.formattedTime "07:30" = "07:00"%string /\
  OptimalTiming.optimalHour "07:30" = Some 7%Z.
Proof.
  pose proof (optimal_time_shows_the_hour "2025-03-01" "30" 0 7 9
                ltac:(lia) ltac:(lia) eq_refl) as (H1 & H2 & H0 & _ & _ & H3).
  specialize (H3 eq_refl). destruct H3 as [H3 H4].
  split; [exact H1 |]. split; [exact H2 |]. split; [exact H0 |].
  split; [exact H3 | exact H4].
Defined.

(** The first page shows hour and minute as they stand in the time it is
    given, drops the seconds, and writes "00" for minutes that are
    missing or empty. *)
Theorem page_time_keeps_hour_and_minute (hh mm ss : string) :
  includes " "%char hh = false -> includes ":"%char hh = false ->
  includes " "%char mm = false -> includes ":"%char mm = false ->
  includes " "%char ss = false ->
  let minute := match mm with EmptyString => "00"%string | _ => mm end in
  Page.formattedTime (hh ++ ":" ++ mm ++ ":" ++ ss) = (hh ++ ":" ++ minute)%string /\
  Page.formattedTime (hh ++ ":" ++ mm) = (hh ++ ":" ++ minute)%string /\
  Page.formattedTime hh = (hh ++ ":00")%string.
Proof.
  intros Hh1 Hh2 Hm1 Hm2 Hs. cbv zeta.
  unfold Page.formattedTime, OptimalTiming.timeString.
  change (hh ++ ":" ++ mm ++ ":" ++ ss)%string
    with (hh ++ String ":" (mm ++ String ":" ss))%string.
  change (hh ++ ":" ++ mm)%string with (hh ++ String ":" mm)%string.
  rewrite !includes_app. cbn [includes]. rewrite !includes_app. cbn [includes].
  rewrite Hh1, Hm1, Hs. cbn [orb Ascii.eqb Bool.eqb].
  rewrite !split_app by assumption.
  rewrite (split_whole ":" mm), (split_whole ":" hh) by assumption.
  cbn [nth nth_error]. repeat split; destruct mm; reflexivity.
Qed.

Lemma page_time_keeps_hour_and_minute_witness :
  Page.formattedTime "07:30:00" = "07:30"%string /\
  Page.formattedTime "07:30" = "07:30"%string /\
  Page.formattedTime "07" = "07:00"%string.
Proof.
  exact (page_time_keeps_hour_and_minute "07" "30" "00"
           eq_refl eq_refl eq_refl eq_refl eq_refl).
Defined.

End Times.

Section Chart.
Import Client Client.IopChart.

Lemma filter_index_ext {A : Type} (f g : nat -> bool) (l : list A) :
  forall i k, (forall j, f (i + j)%nat = g (k + j)%nat) ->
  filter_index f i l = filter_index g k l.
Proof.
  induction l as [| x r IH]; intros i k H; cbn; [reflexivity |].
  pose proof (H 0%nat) as H0. rewrite !Nat.add_0_r in H0. rewrite H0.
  rewrite (IH (S i) (S k)); [reflexivity |].
  intros j. specialize (H (S j)). now rewrite <- !plus_n_Sm in H.
Qed.

(** Three predictions on, the filter is where it started. *)
Lemma bars_three {A : Type} (x y z : A) (r : list A) :
  bars (x :: y :: z :: r) = x :: bars r.
Proof.
  unfold bars. cbn [filter_index].
  change (0 mod 3 =? 0)%nat with true. change (1 mod 3 =? 0)%nat with false.
  change (2 mod 3 =? 0)%nat with false. cbv iota.
  f_equal. apply filter_index_ext. intros j.
  replace (3 + j)%nat with (j + 1 * 3)%nat by lia.
  now rewrite Nat.Div0.mod_add.
Qed.

Lemma bars_spec {A : Type} (n : nat) :
  forall predictions : list A, (length predictions <= n)%nat ->
  (forall index, nth_error (bars predictions) index
                 = nth_error predictions (actualIndex index)) /\
  length (bars predictions) = ((length predictions + 2) / 3)%nat.
Proof.
  induction n as [n IH] using lt_wf_ind. intros predictions Hn.
  destruct predictions as [| x [| y [| z r]]].
  - split; [intros [| i]; reflexivity | reflexivity].
  - split; [intros [| [| i]]; reflexivity | reflexivity].
  - split; [intros [| [| i]]; reflexivity | reflexivity].
  - rewrite bars_three. cbn [length] in Hn.
    destruct (IH (length r) ltac:(lia) r (le_n _)) as [Hnth Hlen].
    split.
    + intros [| i]; [reflexivity |]. cbn [nth_error]. rewrite Hnth.
      unfold actualIndex. now replace (S i * 3)%nat with (S (S (S (i * 3)))) by lia.
    + cbn [length]. rewrite Hlen.
      replace (S (S (S (length r))) + 2)%nat with (length r + 2 + 1 * 3)%nat by lia.
      rewrite Nat.div_add by lia. lia.
Qed.

(** The first chart draws every third prediction: the bar of index
    [index] is the prediction of index [index * 3], which is what its test
    identifier and its hover state say, and there is a bar for each
    started group of three.  For the 24 hours these are 8 bars. *)
Theorem bars_are_every_third {A : Type} (predictions : list A) (index : nat) :
  nth_error (bars predictions) index = nth_error predictions (actualIndex index) /\
  length (bars predictions) = ((length predictions + 2) / 3)%nat.
Proof.
  destruct (bars_spec (length predictions) predictions (le_n _)) as [Hnth Hlen].
  split; [apply Hnth | exact Hlen].
Qed.

Lemma spans_all : forallb spans (seq 2 99) = true.
Proof. vm_compute. reflexivity. Qed.

(** The trace of the second chart.  With a single prediction its one
    abscissa is 0 / 0 * 100, which is NaN.  With 2 to 100 predictions the
    abscissas start at 0, end at 100 and grow from each point to the
    next. *)
Theorem trace_points_span {A : Type} (prediction : A) (predictions : list A) :
  (2 <= length predictions <= 100)%nat ->
  trace_xs [prediction] = [nan] /\
  hd nan (trace_xs predictions) = 0%float /\
  last (trace_xs predictions) nan = 100%float /\
  increasing (trace_xs predictions) = true.
Proof.
  intros H. split; [vm_compute; reflexivity |]. unfold trace_xs.
  pose proof spans_all as Hall. rewrite forallb_forall in Hall.
  specialize (Hall (length predictions) ltac:(apply in_seq; lia)).
  unfold spans in Hall. cbv zeta in Hall.
  apply andb_true_iff in Hall as [Hall H3].
  apply andb_true_iff in Hall as [H1 H2].
  apply FloatAxioms.Leibniz.eqb_spec in H1, H2. now repeat split.
Qed.

(** The 24 hours of a forecast. *)
Lemma trace_points_span_witness :
  (2 <= length (seq 0 24) <= 100)%nat /\
  trace_xs [0%nat] = [nan] /\
  hd nan (trace_xs (seq 0 24)) = 0%float /\
  last (trace_xs (seq 0 24)) nan = 100%float /\
  increasing (trace_xs (seq 0 24)) = true.
Proof.
  assert (H : (2 <= length (seq 0 24) <= 100)%nat) by (cbn; lia).
  split; [exact H |]. exact (trace_points_span 0%nat (seq 0 24) H).
Defined.

End Chart.

Section Page.
Import Client Client.Home.

Lemma handle_keeps (s : State) (c : callback) :
  predictions s = None \/ error s = EmptyString ->
  predictions (handle s c) = None \/ error (handle s c) = EmptyString.
Proof.
  intros H. destruct c; cbn; [now right | now left | exact H].
Qed.

(** Whatever callbacks the form calls, in whatever order, the page never
    holds an error together with a forecast: while the error banner
    shows, neither the chart nor the optimal time is drawn.  A submission
    takes the forecast off the page before the request is sent, ends with
    [loading] off, and leaves either the forecast without an error or the
    message of the failure without a forecast: the text that was thrown,
    if it was an [Error]. *)
Theorem page_shows_error_or_forecast (calls : list callback) (s : State)
    (outcome : Routes.thrown + Api.IopForecastResponse) :
  let reached := fold_left handle calls initial in
  let sent := fold_left handle (firstn 2 (handleSubmit outcome)) s in
  let done := fold_left handle (handleSubmit outcome) s in
  shows_error reached && (draws_chart reached || shows_timing reached) = false /\
  predictions sent = None /\ loading sent = true /\
  loading done = false /\
  match outcome with
  | inr forecast => predictions done = Some forecast /\ error done = EmptyString
  | inl thrown =>
      predictions done = None /\
      error done = Routes.message_or thrown "Failed to generate predictions"
  end.
Proof.
  cbv zeta. split.
  - assert (H : predictions (fold_left handle calls initial) = None
                \/ error (fold_left handle calls initial) = EmptyString).
    { assert (H0 : predictions initial = None \/ error initial = EmptyString)
        by now left.
      revert H0. generalize initial.
      induction calls as [| c calls IH]; intros s0 H0; [exact H0 |].
      cbn [fold_left]. apply IH. now apply handle_keeps. }
    unfold shows_error, draws_chart, shows_timing.
    destruct H as [-> | ->]; [| reflexivity].
    now destruct (error _).
  - destruct outcome as [thrown | forecast]; cbn; repeat split.
Qed.

End Page.

Section RiskCard.
Import Client Client.RiskAssessment.

(** Whatever the record, the level the scorer answers with has its own
    entry in [configs]: the card is drawn in the colours of this level,
    never in those of the fallback or of another level, the colours of the
    four levels differ, and the badge reads the level with a capital. *)
Theorem risk_card_has_the_colours_of_the_level (data : PatientData) :
  let palette :=
    [ ("low", configs_low, "Low"); ("moderate", configs_moderate, "Moderate");
      ("high", configs_high, "High"); ("critical", configs_critical, "Critical") ]%string in
  NoDup (map (fun entry => snd (fst entry)) palette) /\
  exists riskData config,
    calculateRealTimeRisk data = Ok riskData /\
    getRiskConfig (risk_level riskData) = Own config /\
    In (risk_level riskData, config, badge_text (risk_level riskData)) palette.
Proof.
  cbv zeta. split.
  - repeat constructor; cbn; intuition discriminate.
  - exists (response_of (riskPercentage data)).
    cbn [risk_level response_of]. unfold Spec.riskLevel.
    destruct (riskPercentage data <? 20)%float; [| destruct (riskPercentage data <? 40)%float;
      [| destruct (riskPercentage data <? 70)%float]];
      eexists; (split; [apply calculateRealTimeRisk_returns |]);
      (split; [reflexivity | cbn; tauto]).
Qed.

End RiskCard.
